(** * Multi-QR encoder / decoder: a shallow embedding of [services/qr_tools.py]

    The service turns a text into a checksum envelope, optionally encrypts
    it, cuts the payload into chunks, frames every chunk as
    [msg_id|index|total|chunk], renders one QR symbol per frame and tiles
    the symbols on one canvas.  Decoding scans the canvas, parses the
    frames, regroups them by message id, joins the chunks, decrypts and
    verifies the checksum.

    Conventions of the embedding.
    - A Python [str] is a [string]; one [ascii] stands for one
      character, so [len] and slicing count characters, as in Python.
      The codes below 128 stand for the ASCII characters, 133 and 160 for
      the white space U+0085 and U+00A0, and every other code for a
      character that is neither white space nor a decimal digit; which
      one is left to the [Alphabet], so a text may hold any such
      characters, lone surrogates among them.
    - [text.encode("utf-8")] raises on a text that holds a surrogate
      ([encode_utf8]).  The bytes it returns are stood for by the text
      they encode: a library function that takes those bytes is given the
      text.  Other bytes (a digest, the content of a file) are a [string]
      of one [ascii] per byte.
    - A Python [int] is a [Z].
    - [None] is [None]; a function returning a tuple [(value, error)]
      returns a tuple of options.
    - A raised exception is a [Raise] result.
    - The libraries the service calls (hashlib, json, cryptography.fernet,
      qrcode, pyzbar, Pillow's PNG codec) are the fields of the class
      [Libs]; the random choices of a call (uuid4, the Fernet IV and time
      stamp) are an explicit [entropy] argument. *)

From Stdlib Require Import ZArith NArith List String Ascii Lia Sorting.Sorted.
From stdpp Require Import base option gmap strings list.
Import ListNotations.
Open Scope string_scope.
Open Scope Z_scope.
Open Scope list_scope.
Set Warnings "-register-all".

(* ================================================================== *)
(** * Python values and built-ins *)
(* ================================================================== *)

(** The exceptions the service raises.  [QRCodeError] is what
    [qr.make(fit=True)] raises on data that fit no symbol; its class
    depends on the release of the QR library ([DataOverflowError], or the
    [ValueError] of the version check that runs first), and the service
    never looks at it.  The two Unicode errors carry the object that
    could not be converted. *)
Inductive exn : Type :=
| ValueError (msg : string)
| UnicodeEncodeError (object : string)
| UnicodeDecodeError (object : string)
| QRCodeError.

Inductive result (A : Type) : Type :=
| Ok (a : A)
| Raise (e : exn).
Arguments Ok {A} a.
Arguments Raise {A} e.

Definition bind {A B} (r : result A) (k : A -> result B) : result B :=
  match r with
  | Ok a => k a
  | Raise e => Raise e
  end.

Notation "'do' x <- r ; k" := (bind r (fun x => k))
  (at level 10, x name, r at level 100, k at level 200).

(** [for x in xs: acc = body(acc, x)] where the body may raise. *)
Fixpoint for_each {A S} (body : S -> A -> result S) (xs : list A) (acc : S) : result S :=
  match xs with
  | [] => Ok acc
  | x :: xs' => do acc' <- body acc x; for_each body xs' acc'
  end.

(** Truth value of an optional string: [None] and [""] are false. *)
Definition py_truthy (o : option string) : bool :=
  match o with
  | None => false
  | Some s => negb (String.eqb s "")
  end.

Definition py_len (s : string) : Z := Z.of_nat (String.length s).

Fixpoint str_take (n : nat) (s : string) : string :=
  match n, s with
  | S n', String c s' => String c (str_take n' s')
  | _, _ => ""
  end.

Fixpoint str_drop (n : nat) (s : string) : string :=
  match n, s with
  | S n', String _ s' => str_drop n' s'
  | _, _ => s
  end.

(** [s[i:j]] for [0 <= i]; the slice is clipped at the end of [s]. *)
Definition py_slice (s : string) (i j : Z) : string :=
  str_take (Z.to_nat (j - i)) (str_drop (Z.to_nat i) s).

(** [range(start, stop, step)] for a positive [step]. *)
Definition py_range3 (start stop step : Z) : list Z :=
  map (fun k => start + Z.of_nat k * step)
      (seq 0 (Z.to_nat ((stop - start + step - 1) / step))).

(** [range(n)]. *)
Definition py_range (n : Z) : list Z := map Z.of_nat (seq 0 (Z.to_nat n)).

(** [enumerate(xs)]. *)
Definition enumerate {A} (xs : list A) : list (Z * A) :=
  combine (py_range (Z.of_nat (length xs))) xs.

(** ** [str(n)] for an integer

    The digits of [n].  In Python the conversion has the limit of
    [int_max_str_digits] digits too, which no integer the service
    formats reaches: the lengths and indices of lists have at most 19
    digits (a list holds fewer than [2^63] items), and the indices
    missing below a total that [int] has read have no more digits than
    the total. *)

Definition digit_char (d : Z) : ascii := ascii_of_nat (48 + Z.to_nat d).

Fixpoint dec_digits (fuel : nat) (n : Z) (acc : string) : string :=
  match fuel with
  | O => acc
  | S fuel' =>
      let acc' := String (digit_char (n mod 10)) acc in
      if n <? 10 then acc' else dec_digits fuel' (n / 10) acc'
  end.

Definition py_str_nonneg (n : Z) : string :=
  dec_digits (S (Z.to_nat (Z.log2 n))) n "".

Definition py_str (n : Z) : string :=
  if n <? 0 then String "-" (py_str_nonneg (- n)) else py_str_nonneg n.

(** [repr] of a list of integers, as an f-string prints it: ["[0, 2]"]. *)
Definition py_repr_list (l : list Z) : string :=
  "[" +:+ String.concat ", " (map py_str l) +:+ "]".

(** ** [int(s)] for a string, base 10

    Leading and trailing white space is skipped, one sign is allowed,
    and single underscores may separate digits.  A string with more than
    [int_max_str_digits] digits is refused, whatever it spells (the
    default of [sys.int_max_str_digits]).  [None] stands for the
    [ValueError] that [int] raises. *)

Definition is_space (c : ascii) : bool :=
  let n := nat_of_ascii c in
  ((9 <=? n)%nat && (n <=? 13)%nat) || (n =? 32)%nat || (n =? 133)%nat || (n =? 160)%nat.

Definition digit_val (c : ascii) : option Z :=
  let n := nat_of_ascii c in
  if ((48 <=? n)%nat && (n <=? 57)%nat)%bool then Some (Z.of_nat n - 48) else None.

Fixpoint lstrip (s : string) : string :=
  match s with
  | String c s' => if is_space c then lstrip s' else s
  | EmptyString => EmptyString
  end.

Fixpoint all_space (s : string) : bool :=
  match s with
  | String c s' => is_space c && all_space s'
  | EmptyString => true
  end.

Fixpoint parse_digits (s : string) (acc : Z) (prev_digit : bool) : option Z :=
  match s with
  | EmptyString => if prev_digit then Some acc else None
  | String c s' =>
      match digit_val c with
      | Some d => parse_digits s' (10 * acc + d) true
      | None =>
          if Ascii.eqb c "_" then
            if prev_digit then parse_digits s' acc false else None
          else if is_space c then
            if prev_digit && all_space s' then Some acc else None
          else None
      end
  end.

Fixpoint count_digits (s : string) : nat :=
  match s with
  | EmptyString => 0
  | String c s' =>
      match digit_val c with
      | Some _ => S (count_digits s')
      | None => count_digits s'
      end
  end.

Definition int_max_str_digits : nat := 4300.

Definition py_int (s : string) : option Z :=
  if (int_max_str_digits <? count_digits s)%nat then None
  else
    match lstrip s with
    | String "+" s' => parse_digits s' 0 false
    | String "-" s' => Z.opp <$> parse_digits s' 0 false
    | s' => parse_digits s' 0 false
    end.

(** ** [s.split(sep, maxsplit)] for a one-character separator *)

Fixpoint str_cut (sep : ascii) (s : string) : option (string * string) :=
  match s with
  | EmptyString => None
  | String c s' =>
      if Ascii.eqb c sep then Some (EmptyString, s')
      else match str_cut sep s' with
           | Some (before, after) => Some (String c before, after)
           | None => None
           end
  end.

Fixpoint py_split (sep : ascii) (maxsplit : nat) (s : string) : list string :=
  match maxsplit with
  | O => [s]
  | S k =>
      match str_cut sep s with
      | None => [s]
      | Some (before, after) => before :: py_split sep k after
      end
  end.

(** ** A [dict] with string keys, in insertion order *)

Fixpoint od_get {V} (k : string) (d : list (string * V)) : option V :=
  match d with
  | [] => None
  | (k', v) :: d' => if String.eqb k' k then Some v else od_get k d'
  end.

(** [d[k] = v]: an existing key keeps its place, a new key goes last. *)
Fixpoint od_set {V} (k : string) (v : V) (d : list (string * V)) : list (string * V) :=
  match d with
  | [] => [(k, v)]
  | (k', v') :: d' => if String.eqb k' k then (k, v) :: d' else (k', v') :: od_set k v d'
  end.

(** The value [json.loads] returns.  A number keeps its literal: the
    service never looks inside one. *)
Inductive json : Type :=
| JNull
| JBool (b : bool)
| JNumber (literal : string)
| JString (s : string)
| JArray (items : list json)
| JObject (members : list (string * json)).

(** [obj.get(key)] on the dict that [json.loads] built. *)
Definition json_get (key : string) (obj : list (string * json)) : option json :=
  od_get key obj.

(** ** Hexadecimal text *)

Definition hex_digit (d : N) : ascii :=
  if (d <? 10)%N then ascii_of_N (48 + d) else ascii_of_N (87 + d).

(** [bytes.hex()]: two lower-case digits per byte. *)
Fixpoint hexlify (bytes : string) : string :=
  match bytes with
  | EmptyString => EmptyString
  | String b rest =>
      let n := N_of_ascii b in
      String (hex_digit (n / 16)) (String (hex_digit (n mod 16)) (hexlify rest))
  end.

(** ['%0*x' % n]: the [width] low hexadecimal digits of [n]. *)
Fixpoint hex_fixed (width : nat) (n : N) (acc : string) : string :=
  match width with
  | O => acc
  | S w => hex_fixed w (n / 16) (String (hex_digit (n mod 16)) acc)
  end.

(** [uuid.UUID.hex] of a 128-bit identifier. *)
Definition uuid_hex (u : N) : string := hex_fixed 32 u "".

(* ================================================================== *)
(** * Text and UTF-8 *)
(* ================================================================== *)

(** The characters of a text.  All the service needs to know of a
    character outside ASCII is whether UTF-8 encodes it: it encodes every
    character but the surrogates U+D800 to U+DFFF, which a [str] can hold
    (a JSON escape such as [\ud800] yields one) though no UTF-8 decoder
    returns them. *)
Class Alphabet : Type := {
  is_surrogate : ascii -> bool
}.

Section Text.
Context `{Alpha : Alphabet}.

(** No surrogate in the text. *)
Fixpoint encodable (text : string) : bool :=
  match text with
  | EmptyString => true
  | String c rest => negb (is_surrogate c) && encodable rest
  end.

(** [text.encode("utf-8")] *)
Definition encode_utf8 (text : string) : result string :=
  if encodable text then Ok text else Raise (UnicodeEncodeError text).

End Text.

(* ================================================================== *)
(** * Images

    An image is the history of the Pillow calls that built it: a blank
    canvas, a rendered QR symbol, one image pasted on another, a text
    drawn on an image.  Only the size is computed from it; what a scanner
    reads off an image is the scanner's business. *)
(* ================================================================== *)

Inductive image : Type :=
| Blank (w h : Z)
| QRCode (data : string) (side : Z)
| Paste (base : image) (x y : Z) (top : image)
| DrawText (base : image) (text : string).

Fixpoint img_size (img : image) : Z * Z :=
  match img with
  | Blank w h => (w, h)
  | QRCode _ side => (side, side)
  | Paste base _ _ _ => img_size base
  | DrawText base _ => img_size base
  end.

(** The random choices of one encode call. *)
Record entropy : Type := {
  uuid4 : N;
  fernet_nonce : N
}.

(** One entry of the [messages] dict of the decoder:
    [{"total": total, "parts": {idx: chunk, ...}}]. *)
Record message : Type := {
  msg_total : Z;
  msg_parts : gmap Z string
}.

(* ================================================================== *)
(** * The libraries behind the service *)
(* ================================================================== *)

(** What [Fernet.decrypt] followed by [.decode("utf-8")] gives: the
    text, [InvalidToken], or bytes that are not UTF-8. *)
Inductive decrypted : Type :=
| Plain (text : string)
| InvalidToken
| NotUtf8 (plain_bytes : string).

Class Libs `{Alpha : Alphabet} : Type := {
  (** The content of a file: what [io.BytesIO] holds and an upload carries *)
  file : Type;
  (** [hashlib.sha256(data).digest()] *)
  sha256 : string -> string;
  (** [json.dumps(obj, ensure_ascii=False)] *)
  json_dumps : json -> string;
  (** [json.loads(s)]; [None] when it raises *)
  json_loads : string -> option json;
  (** [Fernet(key).encrypt(data).decode("utf-8")], the IV and the time
      stamp drawn from the nonce *)
  fernet_encrypt : string -> N -> string -> string;
  (** [Fernet(key).decrypt(token)] and the [.decode("utf-8")] of what it
      returns *)
  fernet_decrypt : string -> string -> decrypted;
  (** The smallest QR version that holds the data at error correction
      level Q ([qr.make(fit=True)]); [None] when even version 40 is too
      small and the library raises. *)
  qr_best_fit : string -> option Z;
  (** [pyzbar.decode(img)], each symbol's [data.decode("utf-8")]; a symbol
      whose bytes are not UTF-8 is [None] *)
  decode_qr : image -> list (option string);
  (** [img.save(buf, format="PNG")] *)
  png_save : image -> file;
  (** [Image.open(stream).convert("RGB")]; [inl msg] when it raises *)
  image_open : file -> string + image
}.

(** What is known of the alphabet and of the results of the libraries,
    whatever their release, and is assumed where a proof needs it. *)
Class Lawful `{L : Libs} : Prop := {
  (** A surrogate is not an ASCII character and not white space. *)
  surrogate_outside_ascii : forall c, is_surrogate c = true ->
    (128 <= nat_of_ascii c)%nat /\ nat_of_ascii c <> 133%nat /\ nat_of_ascii c <> 160%nat;
  (** [json.dumps] with [ensure_ascii=False] writes the characters of
      the two strings of the envelope, some of them escaped, and ASCII
      characters around them. *)
  json_dumps_encodable : forall sha text,
    encodable sha = true -> encodable text = true ->
    encodable (json_dumps (JObject [("hash", JString sha); ("text", JString text)])) = true;
  (** A Fernet token is URL-safe base64 text. *)
  fernet_token_encodable : forall key nonce data,
    encodable data = true -> encodable (fernet_encrypt key nonce data) = true;
  (** A version-40 symbol holds 13328 bits of data at level Q, and no
      mode spends less than ten bits on three characters: no more than
      3993 characters fit. *)
  qr_capacity : forall data version,
    qr_best_fit data = Some version -> (String.length data <= 3993)%nat;
  (** What [.decode("utf-8")] returns holds no surrogate. *)
  decode_qr_encodable : forall img data,
    Some data ∈ decode_qr img -> encodable data = true
}.

(* ================================================================== *)
(** * The service: [services/qr_tools.py] *)
(* ================================================================== *)

Section Service.
Context `{L : Libs}.

(** ** Helpers *)

Definition chunk_text (text : string) (size : Z) : result (list string) :=
  if size <=? 0 then Raise (ValueError "chunk_size must be positive")
  else Ok (map (fun i => py_slice text i (i + size)) (py_range3 0 (py_len text) size)).

(** [qr.add_data(data)] encodes the data; [box_size=10], [border=4]; a
    version-[v] symbol has [4v+17] modules. *)
Definition make_qr_image (data : string) : result image :=
  do data_bytes <- encode_utf8 data;
  match qr_best_fit data_bytes with
  | None => Raise QRCodeError
  | Some version => Ok (QRCode data ((4 * version + 17 + 2 * 4) * 10))
  end.

(** The place of the label inside its band depends on font metrics and is
    not recorded. *)
Definition add_index_label (img : image) (index total : Z) : image :=
  let '(w, h) := img_size img in
  let label_height := Z.max 24 (h / 6) in
  let new_img := Blank w (h + label_height) in
  let new_img := Paste new_img 0 0 img in
  let text := py_str (index + 1) +:+ "/" +:+ py_str total in
  DrawText new_img text.

Definition py_max (l : list Z) : Z :=
  match l with
  | [] => 0
  | x :: l' => fold_left Z.max l' x
  end.

(** [math.ceil(math.sqrt(n))] *)
Definition ceil_sqrt (n : Z) : Z :=
  let r := Z.sqrt n in if r * r =? n then r else r + 1.

(** [math.ceil(n / cols)] *)
Definition ceil_div (n cols : Z) : Z := (n + cols - 1) / cols.

Definition tile_images (images : list image) : result image :=
  match images with
  | [] => Raise (ValueError "No images to tile")
  | _ =>
      let max_w := py_max (map (fun img => fst (img_size img)) images) in
      let max_h := py_max (map (fun img => snd (img_size img)) images) in
      let n := Z.of_nat (length images) in
      let cols := ceil_sqrt n in
      let rows := ceil_div n cols in
      let big_w := cols * max_w in
      let big_h := rows * max_h in
      let canvas := Blank big_w big_h in
      Ok (fold_left
            (fun canvas '(i, img) =>
               let r := i / cols in
               let c := i mod cols in
               Paste canvas (c * max_w) (r * max_h) img)
            (enumerate images) canvas)
  end.

(** ** Encryption helpers *)

(** The Fernet key is the SHA-256 digest of the passphrase. *)
Definition _get_fernet (passphrase : string) : result string :=
  do passphrase_bytes <- encode_utf8 passphrase;
  Ok (sha256 passphrase_bytes).

Definition maybe_encrypt (rnd : entropy) (text : string) (passphrase : option string)
  : result string :=
  if negb (py_truthy passphrase) then Ok text
  else
    match passphrase with
    | Some p =>
        do f <- _get_fernet p;
        do text_bytes <- encode_utf8 text;
        Ok (fernet_encrypt f (fernet_nonce rnd) text_bytes)
    | None => Ok text
    end.

(** Only [InvalidToken] is caught: the [UnicodeEncodeError] of
    [text.encode] and the [UnicodeDecodeError] of [plain_bytes.decode]
    leave the function. *)
Definition maybe_decrypt (text : string) (passphrase : option string)
  : result (option string * option string) :=
  if negb (py_truthy passphrase) then Ok (Some text, None)
  else
    match passphrase with
    | Some p =>
        do f <- _get_fernet p;
        do text_bytes <- encode_utf8 text;
        match fernet_decrypt f text_bytes with
        | Plain plain => Ok (Some plain, None)
        | NotUtf8 plain_bytes => Raise (UnicodeDecodeError plain_bytes)
        | InvalidToken =>
            Ok (None, Some "Decryption failed. Wrong passphrase or corrupted data.")
        end
    | None => Ok (Some text, None)
    end.

(** ** Checksum helpers *)

(** [hashlib.sha256(data).hexdigest()] *)
Definition sha256_hexdigest (data : string) : string := hexlify (sha256 data).

Definition wrap_payload_with_checksum (text : string) : result string :=
  do text_bytes <- encode_utf8 text;
  let sha := sha256_hexdigest text_bytes in
  let obj := JObject [("hash", JString sha); ("text", JString text)] in
  Ok (json_dumps obj).

(** [text.encode] comes after the [try] and the two [isinstance] tests:
    its [UnicodeEncodeError] leaves the function. *)
Definition unwrap_and_verify_payload (payload : string)
  : result (option string * option string * option string) :=
  match json_loads payload with
  | None => Ok (Some payload, None, None)
  | Some (JObject obj) =>
      let sha_stored := json_get "hash" obj in
      let text := json_get "text" obj in
      match sha_stored, text with
      | Some (JString sha_stored), Some (JString text) =>
          do text_bytes <- encode_utf8 text;
          let sha_calc := sha256_hexdigest text_bytes in
          if negb (String.eqb sha_calc sha_stored) then
            Ok (None, Some sha_stored, Some "Integrity check failed (SHA-256 mismatch)")
          else Ok (Some text, Some sha_stored, None)
      | _, _ => Ok (Some payload, None, None)
      end
  | Some _ => Ok (Some payload, None, None)
  end.

(** ** Encode *)

(** [f"{msg_id}|{idx}|{total}|{chunk}"] *)
Definition frame_string (msg_id : string) (idx total : Z) (chunk : string) : string :=
  msg_id +:+ "|" +:+ py_str idx +:+ "|" +:+ py_str total +:+ "|" +:+ chunk.

Definition _build_big_qr_image (payload : string) (chunk_size : Z) (add_labels : bool)
    (uuid : N) : result image :=
  do chunks <- chunk_text payload chunk_size;
  let msg_id := str_take 8 (uuid_hex uuid) in
  let total := Z.of_nat (length chunks) in
  do images <-
    for_each
      (fun images '(idx, chunk) =>
         let encoded := frame_string msg_id idx total chunk in
         do img <- make_qr_image encoded;
         let img := if add_labels then add_index_label img idx total else img in
         Ok (images ++ [img])%list)
      (enumerate chunks) [];
  tile_images images.

Definition encode_text_to_big_qr_file (rnd : entropy) (text : string) (chunk_size : Z)
    (passphrase : option string) : result file :=
  do wrapped <- wrap_payload_with_checksum text;
  do payload <- maybe_encrypt rnd wrapped passphrase;
  do big_img <- _build_big_qr_image payload chunk_size true (uuid4 rnd);
  Ok (png_save big_img).

(** ** Decode *)

(** The body of the [for symbol in decoded] loop.  Every step that can
    raise comes before the first update of [messages], so a symbol that
    raises leaves [messages] as it was. *)
Definition scan_symbol (messages : list (string * message)) (symbol : option string)
  : list (string * message) :=
  match symbol with
  | None => messages
  | Some content =>
      match py_split "|" 3 content with
      | [msg_id; idx_str; total_str; chunk] =>
          match py_int idx_str with
          | None => messages
          | Some idx =>
              match py_int total_str with
              | None => messages
              | Some total =>
                  let messages :=
                    match od_get msg_id messages with
                    | None => od_set msg_id {| msg_total := total; msg_parts := ∅ |} messages
                    | Some _ => messages
                    end in
                  match od_get msg_id messages with
                  | Some m =>
                      od_set msg_id
                        {| msg_total := m.(msg_total);
                           msg_parts := <[idx := chunk]> m.(msg_parts) |}
                        messages
                  | None => messages
                  end
              end
          end
      | _ => messages
      end
  end.

(** [_decode_big_image] after the scan: from the scanned symbols to
    [(payload, error)]. *)
Definition reassemble (decoded : list (option string)) : option string * option string :=
  match decoded with
  | [] => (None, Some "No QR codes found.")
  | _ =>
      let messages := fold_left scan_symbol decoded [] in
      match messages with
      | [] => (None, Some "Invalid QR format.")
      | (msg_id, data) :: _ =>
          let total := data.(msg_total) in
          let parts := data.(msg_parts) in
          let missing := filter (fun i => parts !! i = None) (py_range total) in
          match missing with
          | _ :: _ => (None, Some ("Missing QR chunks: " +:+ py_repr_list missing))
          | [] => (Some (String.concat "" (map (fun i => default "" (parts !! i)) (py_range total))),
                   None)
          end
      end
  end.

Definition _decode_big_image (img : image) : option string * option string :=
  let decoded := decode_qr img in
  reassemble decoded.

(** A value of a [(value, error)] pair is a string whenever the error is
    [None]; [default ""] only unpacks it.  Nothing is caught here: what
    [maybe_decrypt] or [unwrap_and_verify_payload] raises leaves the
    function. *)
Definition decode_big_qr_to_text (file_stream : file) (passphrase : option string)
  : result (option string * option string * option string) :=
  match image_open file_stream with
  | inl e => Ok (None, None, Some ("Invalid image: " +:+ e))
  | inr img =>
      let '(payload, err) := _decode_big_image img in
      if py_truthy err then Ok (None, None, err)
      else
        do decrypted <- maybe_decrypt (default "" payload) passphrase;
        let '(wrapped, dec_err) := decrypted in
        if py_truthy dec_err then Ok (None, None, dec_err)
        else
          do verified <- unwrap_and_verify_payload (default "" wrapped);
          let '(text, sha_hex, verify_err) := verified in
          if py_truthy verify_err then Ok (None, sha_hex, verify_err)
          else Ok (text, sha_hex, None)
  end.

End Service.


(* ================================================================== *)
(** * The HTTP layer: [blueprints/api.py] and [blueprints/web.py]

    The handlers read a Flask request and answer with [jsonify],
    [send_file] or [render_template].  A request is the record of what
    the handlers read from it; a response is the call that made it, with
    its arguments.  An exception that no handler catches leaves the view
    function ([Raises]).

    The JSON body arrives as Python values of any type, so the steps of
    a handler that depend on the type of a value ([.get], [int], [not],
    [.encode]) are written out on [pyval]. *)
(* ================================================================== *)

From Stdlib Require Import Floats.SpecFloat.

(** ** More built-ins *)

(** White space for [str.strip()], among the characters below 256. *)
Definition is_strip_space (c : ascii) : bool :=
  let n := nat_of_ascii c in
  ((9 <=? n)%nat && (n <=? 13)%nat) || ((28 <=? n)%nat && (n <=? 32)%nat)
  || (n =? 133)%nat || (n =? 160)%nat.

Fixpoint py_lstrip (s : string) : string :=
  match s with
  | String c s' => if is_strip_space c then py_lstrip s' else s
  | EmptyString => EmptyString
  end.

Fixpoint py_rstrip (s : string) : string :=
  match s with
  | EmptyString => EmptyString
  | String c s' =>
      match py_rstrip s' with
      | EmptyString => if is_strip_space c then EmptyString else String c EmptyString
      | kept => String c kept
      end
  end.

(** [s.strip()] *)
Definition py_strip (s : string) : string := py_rstrip (py_lstrip s).

(** [x or y] for optional strings. *)
Definition py_or (x y : option string) : option string :=
  if py_truthy x then x else y.

(** [base64.b64encode(data).decode("ascii")], the bytes given one
    character per byte. *)
Definition b64_alphabet : string :=
  "ABCDEFGHIJKLMNOPQRSTUVWXYZabcdefghijklmnopqrstuvwxyz0123456789+/".

Definition b64_digit (n : N) : ascii :=
  match String.get (N.to_nat n) b64_alphabet with
  | Some c => c
  | None => "="%char
  end.

Fixpoint b64encode (data : string) : string :=
  match data with
  | EmptyString => EmptyString
  | String a EmptyString =>
      let a := N_of_ascii a in
      String (b64_digit (a / 4)) (String (b64_digit (a mod 4 * 16)) "==")
  | String a (String b EmptyString) =>
      let a := N_of_ascii a in
      let b := N_of_ascii b in
      String (b64_digit (a / 4))
        (String (b64_digit (a mod 4 * 16 + b / 16))
           (String (b64_digit (b mod 16 * 4)) "="))
  | String a (String b (String c rest)) =>
      let a := N_of_ascii a in
      let b := N_of_ascii b in
      let c := N_of_ascii c in
      String (b64_digit (a / 4))
        (String (b64_digit (a mod 4 * 16 + b / 16))
           (String (b64_digit (b mod 16 * 4 + c / 64))
              (String (b64_digit (c mod 64)) (b64encode rest))))
  end.

(** ** Python values of a JSON body *)

(** What [request.get_json] returns: [None], a [bool], an [int], a
    [float] (sign, mantissa and binary exponent), a [str], a [list] or a
    [dict] with string keys, in insertion order and with no key twice. *)
Inductive pyval : Type :=
| PyNone
| PyBool (b : bool)
| PyInt (n : Z)
| PyFloat (x : spec_float)
| PyStr (s : string)
| PyList (items : list pyval)
| PyDict (members : list (string * pyval)).

(** [bool(v)] *)
Definition val_truthy (v : pyval) : bool :=
  match v with
  | PyNone => false
  | PyBool b => b
  | PyInt n => negb (n =? 0)
  | PyFloat (S754_zero _) => false
  | PyFloat _ => true
  | PyStr s => negb (String.eqb s "")
  | PyList [] => false
  | PyList _ => true
  | PyDict [] => false
  | PyDict _ => true
  end.

(** [type(v).__name__] *)
Definition type_name (v : pyval) : string :=
  match v with
  | PyNone => "NoneType"
  | PyBool _ => "bool"
  | PyInt _ => "int"
  | PyFloat _ => "float"
  | PyStr _ => "str"
  | PyList _ => "list"
  | PyDict _ => "dict"
  end.

(** Exceptions that no handler catches, by class; [ServiceError] is an
    exception the service raised. *)
Inductive uncaught : Type :=
| AttributeError (type_of_value attribute : string)
| TypeError
| IntValueError
| OverflowError
| ServiceError (e : exn).

Inductive view (A : Type) : Type :=
| Returns (a : A)
| Raises (e : uncaught).
Arguments Returns {A} a.
Arguments Raises {A} e.

Definition view_bind {A B} (r : view A) (k : A -> view B) : view B :=
  match r with
  | Returns a => k a
  | Raises e => Raises e
  end.

(** [int(s)] for a string *)
Definition int_of_str (s : string) : view Z :=
  match py_int s with
  | Some n => Returns n
  | None => Raises IntValueError
  end.

(** [int(x)] for a float: the value cut towards zero. *)
Definition int_of_float (x : spec_float) : view Z :=
  match x with
  | S754_zero _ => Returns 0
  | S754_infinity _ => Raises OverflowError
  | S754_nan => Raises IntValueError
  | S754_finite negative m e =>
      let magnitude := if 0 <=? e then Z.pos m * 2 ^ e else Z.pos m / 2 ^ (- e) in
      Returns (if negative then - magnitude else magnitude)
  end.

(** [int(v)] *)
Definition int_of_val (v : pyval) : view Z :=
  match v with
  | PyBool b => Returns (if b then 1 else 0)
  | PyInt n => Returns n
  | PyFloat x => int_of_float x
  | PyStr s => int_of_str s
  | PyNone | PyList _ | PyDict _ => Raises TypeError
  end.

(** A [str] or [None] inside a [jsonify] body. *)
Definition json_of (o : option string) : json :=
  match o with
  | Some s => JString s
  | None => JNull
  end.

(** The five values [app_view] hands to the template. *)
Record page : Type := {
  encoded_image : option string;
  decoded_text : option string;
  decoded_hash : option string;
  encode_error : option string;
  decode_error : option string
}.

Definition empty_page : page :=
  {| encoded_image := None; decoded_text := None; decoded_hash := None;
     encode_error := None; decode_error := None |}.

(** What the handlers need besides the libraries of the service. *)
Class Host `{L : Libs} : Type := {
  (** [buf.getvalue()]: the bytes of a file, one character per byte *)
  getvalue : file -> string;
  (** [str(e)] of the exception the QR library raises when no symbol
      holds the data *)
  overflow_message : string;
  (** [str(e)] of the [UnicodeEncodeError] of [object.encode("utf-8")] *)
  encode_error_message : string -> string;
  (** [str(e)] of the [UnicodeDecodeError] of [object.decode("utf-8")] *)
  decode_error_message : string -> string
}.

Section Endpoints.
Context `{H : Host}.

(** ** Requests and responses *)

(** An uploaded file, a werkzeug [FileStorage]: it is false when its
    file name is empty or absent. *)
Record upload : Type := {
  filename : option string;
  stream : file
}.

(** [request.method], [request.get_json(silent=True)] ([PyNone] when the
    body is not JSON), [request.form], [request.args] and
    [request.files]; [.get] on the last three finds the first value of
    a key. *)
Record request : Type := {
  method : string;
  get_json : pyval;
  form : list (string * string);
  args : list (string * string);
  files : list (string * upload)
}.

Inductive response : Type :=
| jsonify (body : list (string * json)) (status : Z)
| send_file (buf : file) (mimetype : string) (as_attachment : bool) (download_name : string)
| render_template (name : string) (context : list (string * option string)).

(** ** [services/qr_tools.py], the base64 variant of the encoder *)

Definition encode_text_to_big_qr (rnd : entropy) (text : string) (chunk_size : Z)
    (passphrase : option string) : result string :=
  do wrapped <- wrap_payload_with_checksum text;
  do payload <- maybe_encrypt rnd wrapped passphrase;
  do big_img <- _build_big_qr_image payload chunk_size true (uuid4 rnd);
  let buf := png_save big_img in
  Ok (b64encode (getvalue buf)).

(** ** The service called with values of any type *)

(** What a call of the encoder raises: an exception of the service, or
    the [AttributeError] of [.encode("utf-8")] on a value that is not a
    string. *)
Inductive call_error : Type :=
| Codec (e : exn)
| NoAttribute (type_of_value attribute : string).

(** [str(e)] *)
Definition str_of_exn (e : exn) : string :=
  match e with
  | ValueError msg => msg
  | UnicodeEncodeError object => encode_error_message object
  | UnicodeDecodeError object => decode_error_message object
  | QRCodeError => overflow_message
  end.

Definition str_of_error (e : call_error) : string :=
  match e with
  | Codec e => str_of_exn e
  | NoAttribute type_of_value attribute =>
      "'" +:+ type_of_value +:+ "' object has no attribute '" +:+ attribute +:+ "'"
  end.

(** [encode_text_to_big_qr_file(data, chunk_size, passphrase=passphrase)]:
    [wrap_payload_with_checksum] encodes [data] first; [maybe_encrypt]
    then tests the passphrase and, when it is true, encodes it. *)
Definition encode_call (rnd : entropy) (data : pyval) (chunk_size : Z) (passphrase : pyval)
  : call_error + file :=
  match data with
  | PyStr text =>
      let run p :=
        match encode_text_to_big_qr_file rnd text chunk_size p with
        | Ok buf => inr buf
        | Raise e => inl (Codec e)
        end in
      if negb (val_truthy passphrase) then run None
      else match passphrase with
           | PyStr p => run (Some p)
           | v =>
               match wrap_payload_with_checksum text with
               | Ok _ => inl (NoAttribute (type_name v) "encode")
               | Raise e => inl (Codec e)
               end
           end
  | v => inl (NoAttribute (type_name v) "encode")
  end.

(** ** [blueprints/api.py] *)

(** [int(payload.get("chunk_size", 500))] *)
Definition json_chunk_size (payload : list (string * pyval)) : view Z :=
  int_of_val (default (PyInt 500) (od_get "chunk_size" payload)).

(** [payload.get("passphrase") or None] *)
Definition json_passphrase (payload : list (string * pyval)) : pyval :=
  let p := default PyNone (od_get "passphrase" payload) in
  if val_truthy p then p else PyNone.

Definition encode_api (rnd : entropy) (req : request) : view response :=
  let payload := if val_truthy req.(get_json) then req.(get_json) else PyDict [] in
  match payload with
  | PyDict payload =>
      let data := default PyNone (od_get "data" payload) in
      view_bind (json_chunk_size payload)
        (fun chunk_size =>
           let passphrase := json_passphrase payload in
           if negb (val_truthy data) then
             Returns (jsonify [("error", JString "Provide 'data' in JSON body.")] 400)
           else
             match encode_call rnd data chunk_size passphrase with
             | inl e => Returns (jsonify [("error", JString (str_of_error e))] 400)
             | inr buf => Returns (send_file buf "image/png" true "multi_qr.png")
             end)
  | v => Raises (AttributeError (type_name v) "get")
  end.

(** Nothing is caught: an exception of the decoder leaves the handler. *)
Definition decode_api (req : request) : view response :=
  match od_get "file" req.(files) with
  | None => Returns (jsonify [("error", JString "No file uploaded (key 'file')")] 400)
  | Some file =>
      let passphrase := py_or (od_get "passphrase" req.(form)) (od_get "passphrase" req.(args)) in
      let passphrase := if py_truthy passphrase then py_strip <$> passphrase else passphrase in
      match decode_big_qr_to_text file.(stream) passphrase with
      | Ok (text, sha_hex, err) =>
          if py_truthy err then
            Returns (jsonify [("error", json_of err); ("sha256", json_of sha_hex)] 400)
          else
            Returns (jsonify [("data", json_of text); ("sha256", json_of sha_hex)] 200)
      | Raise e => Raises (ServiceError e)
      end
  end.

(** ** [blueprints/web.py] *)

Definition landing : response := render_template "landing.html" [].

Definition render_page (p : page) : response :=
  render_template "app.html"
    [("encoded_image", p.(encoded_image)); ("decoded_text", p.(decoded_text));
     ("decoded_hash", p.(decoded_hash)); ("encode_error", p.(encode_error));
     ("decode_error", p.(decode_error))].

(** [request.form.get("passphrase", "").strip() or None] *)
Definition form_passphrase (req : request) : option string :=
  py_or (Some (py_strip (default "" (od_get "passphrase" req.(form))))) None.

(** [int(request.form.get("chunk_size", "500") or "500")] *)
Definition form_chunk_size (req : request) : view Z :=
  let chunk_size := default "500" (od_get "chunk_size" req.(form)) in
  int_of_str (if negb (String.eqb chunk_size "") then chunk_size else "500").

(** The values of the page at the end of [app_view].  Both branches
    catch every exception of the service and show its message; the
    conversion of [chunk_size] comes before the [try]. *)
Definition app_view_page (rnd : entropy) (req : request) : view page :=
  if String.eqb req.(method) "POST" then
    let mode := od_get "mode" req.(form) in
    if bool_decide (mode = Some "encode") then
      let text := default "" (od_get "data" req.(form)) in
      view_bind (form_chunk_size req)
        (fun chunk_size =>
           let passphrase := form_passphrase req in
           if String.eqb (py_strip text) "" then
             Returns {| encoded_image := None; decoded_text := None; decoded_hash := None;
                        encode_error := Some "Please provide some text to encode.";
                        decode_error := None |}
           else
             match encode_text_to_big_qr rnd text chunk_size passphrase with
             | Ok encoded_image_b64 =>
                 Returns {| encoded_image := Some encoded_image_b64; decoded_text := None;
                            decoded_hash := None; encode_error := None;
                            decode_error := None |}
             | Raise e =>
                 Returns {| encoded_image := None; decoded_text := None; decoded_hash := None;
                            encode_error := Some ("Failed to encode: " +:+ str_of_error (Codec e));
                            decode_error := None |}
             end)
    else if bool_decide (mode = Some "decode") then
      let passphrase := form_passphrase req in
      match od_get "file" req.(files) with
      | Some file =>
          if py_truthy file.(filename) then
            match decode_big_qr_to_text file.(stream) passphrase with
            | Ok (text, sha_hex, err) =>
                Returns {| encoded_image := None; decoded_text := text; decoded_hash := sha_hex;
                           encode_error := None;
                           decode_error := if py_truthy err then err else None |}
            | Raise e =>
                Returns {| encoded_image := None; decoded_text := None; decoded_hash := None;
                           encode_error := None;
                           decode_error := Some ("Failed to decode: " +:+ str_of_exn e) |}
            end
          else
            Returns {| encoded_image := None; decoded_text := None; decoded_hash := None;
                       encode_error := None; decode_error := Some "Please upload a QR image." |}
      | None =>
          Returns {| encoded_image := None; decoded_text := None; decoded_hash := None;
                     encode_error := None; decode_error := Some "Please upload a QR image." |}
      end
    else Returns empty_page
  else Returns empty_page.

Definition app_view (rnd : entropy) (req : request) : view response :=
  view_bind (app_view_page rnd req) (fun p => Returns (render_page p)).

End Endpoints.


(* ================================================================== *)
(** * Notions used to state the properties *)
(* ================================================================== *)

(** The first [count] slices of [sz] characters of a string. *)
Definition slices (sz count : nat) (s : string) : list string :=
  map (fun k => str_take sz (str_drop (k * sz) s)) (seq 0 count).

(** The ceiling of [len / size] for a positive [size]. *)
Definition chunk_count (len size : Z) : Z := (len + size - 1) / size.

Fixpoint str_forall (P : ascii -> bool) (s : string) : bool :=
  match s with
  | EmptyString => true
  | String c s' => P c && str_forall P s'
  end.

Definition is_dec_digit (c : ascii) : bool :=
  match digit_val c with Some _ => true | None => false end.

Definition is_hex_digit (c : ascii) : bool :=
  let n := N_of_ascii c in
  (((48 <=? n) && (n <=? 57)) || ((97 <=? n) && (n <=? 102)))%N.

Definition is_ascii (c : ascii) : bool := (nat_of_ascii c <? 128)%nat.

(** No separator in the string. *)
Definition no_sep (s : string) : bool := str_forall (fun c => negb (Ascii.eqb c "|")) s.

(** The value of a run of decimal digits read after [acc]. *)
Fixpoint horner (s : string) (acc : Z) : Z :=
  match s with
  | EmptyString => acc
  | String c s' => horner s' (10 * acc + default 0 (digit_val c))
  end.

(** ** Frames

    The loop body of [_decode_big_image] read in two steps: what a
    scanned symbol parses to, and what a parsed frame does to
    [messages].  [scan_symbol_parse] below shows that the loop body is
    the composition of the two. *)

Record frame : Type := {
  frame_id : string;
  frame_index : Z;
  frame_total : Z;
  frame_text : string
}.

(** The steps of the loop body that can raise. *)
Definition parse_frame (symbol : option string) : option frame :=
  match symbol with
  | None => None
  | Some content =>
      match py_split "|" 3 content with
      | [msg_id; idx_str; total_str; chunk] =>
          match py_int idx_str, py_int total_str with
          | Some idx, Some total =>
              Some {| frame_id := msg_id; frame_index := idx;
                      frame_total := total; frame_text := chunk |}
          | _, _ => None
          end
      | _ => None
      end
  end.

(** The two updates of [messages] at the end of the loop body. *)
Definition store_frame (messages : list (string * message)) (f : frame)
  : list (string * message) :=
  let messages :=
    match od_get f.(frame_id) messages with
    | None => od_set f.(frame_id) {| msg_total := f.(frame_total); msg_parts := ∅ |} messages
    | Some _ => messages
    end in
  match od_get f.(frame_id) messages with
  | Some m =>
      od_set f.(frame_id)
        {| msg_total := m.(msg_total);
           msg_parts := <[f.(frame_index) := f.(frame_text)]> m.(msg_parts) |}
        messages
  | None => messages
  end.

(** The text of the last frame of [frames] that carries index [i]. *)
Definition pick_text (i : Z) (acc : option string) (f : frame) : option string :=
  if Z.eqb f.(frame_index) i then Some f.(frame_text) else acc.

Definition text_at (i : Z) (frames : list frame) : option string :=
  fold_left (pick_text i) frames None.

(** The frames of [frames] that carry the message id [msg_id]. *)
Definition frames_of (msg_id : string) (frames : list frame) : list frame :=
  filter (fun f => f.(frame_id) = msg_id) frames.

(** The scanned symbols that parse as a frame of message [msg_id]. *)
Definition carries (msg_id : string) (symbol : option string) : Prop :=
  match parse_frame symbol with
  | Some f => f.(frame_id) = msg_id
  | None => False
  end.

#[global] Instance carries_dec (msg_id : string) (symbol : option string) :
  Decision (carries msg_id symbol).
Proof. unfold carries. destruct (parse_frame symbol); apply _. Defined.

(** What one frame does to the entry of its message id, and to the
    [parts] of that entry. *)
Definition upd_entry (o : option message) (f : frame) : message :=
  {| msg_total := from_option msg_total f.(frame_total) o;
     msg_parts := <[f.(frame_index) := f.(frame_text)]> (from_option msg_parts ∅ o) |}.

Definition insert_frame (p : gmap Z string) (f : frame) : gmap Z string :=
  <[f.(frame_index) := f.(frame_text)]> p.

(** What reassembly answers for a message of [total] fragments whose
    scanned frames are [sel]. *)
Definition missing_indices (total : Z) (sel : list frame) : list Z :=
  filter (fun i => text_at i sel = None) (py_range total).

Definition assemble (total : Z) (sel : list frame) : option string * option string :=
  match missing_indices total sel with
  | [] => (Some (String.concat "" (map (fun i => default "" (text_at i sel)) (py_range total))),
           None)
  | missing => (None, Some ("Missing QR chunks: " +:+ py_repr_list missing))
  end.

(** ** The picture between encoder and decoder

    What the service needs from the renderer, the file format and the
    scanner for one payload: the payload is not empty, every frame fits
    a QR symbol, the file reads back as the image that was saved, and the
    scanner finds the frames drawn on the image and nothing else, in any
    order and any number of times. *)

Section Channel.
Context `{L : Libs}.

(** The frames [_build_big_qr_image] renders for a payload. *)
Definition frames_drawn (uuid : N) (payload : string) (chunk_size : Z) : list string :=
  match chunk_text payload chunk_size with
  | Ok chunks =>
      map (fun '(idx, chunk) =>
             frame_string (str_take 8 (uuid_hex uuid)) idx (Z.of_nat (length chunks)) chunk)
          (enumerate chunks)
  | Raise _ => []
  end.

Record carried_intact (uuid : N) (payload : string) (chunk_size : Z) : Prop := {
  payload_not_empty : payload <> "";
  frames_fit : forall data, data ∈ frames_drawn uuid payload chunk_size ->
               qr_best_fit data <> None;
  file_reads_back : forall img, _build_big_qr_image payload chunk_size true uuid = Ok img ->
                    image_open (png_save img) = inr img;
  scanner_finds_frames : forall img, _build_big_qr_image payload chunk_size true uuid = Ok img ->
                         forall symbol, symbol ∈ decode_qr img <->
                           exists data, symbol = Some data /\
                                        data ∈ frames_drawn uuid payload chunk_size
}.

(** The image the loop of [_build_big_qr_image] appends for one chunk when
    the frame fits a symbol. *)
Definition rendered (add_labels : bool) (total : Z) (msg_id : string) (p : Z * string) : image :=
  let '(idx, chunk) := p in
  let data := frame_string msg_id idx total chunk in
  let img := QRCode data ((4 * default 0 (qr_best_fit data) + 17 + 2 * 4) * 10) in
  if add_labels then add_index_label img idx total else img.

(** The envelope [wrap_payload_with_checksum] serialises, and the string
    it returns for a text that UTF-8 encodes. *)
Definition envelope (text : string) : json :=
  JObject [("hash", JString (sha256_hexdigest text)); ("text", JString text)].

Definition envelope_text (text : string) : string := json_dumps (envelope text).

(** The key [_get_fernet] derives from a passphrase that UTF-8 encodes. *)
Definition fernet_key (passphrase : string) : string := sha256 passphrase.

(** A passphrase that UTF-8 encodes, or none. *)
Definition passphrase_encodable (passphrase : option string) : bool :=
  match passphrase with
  | Some p => encodable p
  | None => true
  end.

(** The payload the encoder cuts into chunks, when text and passphrase
    encode: the envelope, encrypted under a passphrase that is true. *)
Definition payload_of (rnd : entropy) (text : string) (passphrase : option string) : string :=
  match passphrase with
  | Some p =>
      if String.eqb p "" then envelope_text text
      else fernet_encrypt (fernet_key p) (fernet_nonce rnd) (envelope_text text)
  | None => envelope_text text
  end.

End Channel.


(* ================================================================== *)
(** * Notions used to state the layout of a picture *)
(* ================================================================== *)

(** The images pasted on a canvas with their offsets, first to last. *)
Fixpoint pastes (img : image) : list (Z * Z * image) :=
  match img with
  | Blank _ _ => []
  | QRCode _ _ => []
  | Paste base x y top => pastes base ++ [(x, y, top)]
  | DrawText base _ => pastes base
  end.

(** A character of base64 text: a digit of the alphabet or the padding. *)
Definition is_b64_char (c : ascii) : bool :=
  let n := N_of_ascii c in
  (((65 <=? n) && (n <=? 90)) || ((97 <=? n) && (n <=? 122)) || ((48 <=? n) && (n <=? 57))
   || (n =? 43) || (n =? 47) || (n =? 61))%N.

(* ================================================================== *)
(** * Reference libraries

    One concrete choice for the alphabet and for every field of [Libs],
    so that the service can be run on concrete inputs: the characters
    below 256 with two surrogates among them, SHA-256 as FIPS 180-4
    defines it, a JSON writer and reader after Python's [json] module, a
    renderer with the byte-mode capacities of level Q, a scanner that
    reads back every symbol of the picture, a lossless file format, and a
    stand-in cipher that authenticates the key and keeps the text in
    clear. *)
(* ================================================================== *)

Module Ref.

(** ** The alphabet

    The code points below 256, except that the codes 128 and 129 stand
    for the surrogates U+D800 and U+DC00 (the two control characters
    U+0080 and U+0081 are left out). *)

Definition high_surrogate : ascii := ascii_of_N 128.
Definition low_surrogate : ascii := ascii_of_N 129.

Definition alphabet : Alphabet :=
  {| is_surrogate := fun c => ((N_of_ascii c =? 128) || (N_of_ascii c =? 129))%N |}.

(** The character of a code point, when the alphabet has it. *)
Definition char_of_code_point (u : N) : option ascii :=
  if (u =? 0xD800)%N then Some high_surrogate
  else if (u =? 0xDC00)%N then Some low_surrogate
  else if ((u <? 256) && negb (u =? 128) && negb (u =? 129))%N then Some (ascii_of_N u)
  else None.

(** ** SHA-256 *)

Definition w32 (x : Z) : Z := x mod 2 ^ 32.
Definition rotr (n x : Z) : Z := Z.lor (Z.shiftr x n) (w32 (Z.shiftl x (32 - n))).
Definition xor3 (a b c : Z) : Z := Z.lxor (Z.lxor a b) c.
Definition Ch (x y z : Z) : Z :=
  Z.lxor (Z.land x y) (Z.land (Z.lxor x 0xffffffff) z).
Definition Maj (x y z : Z) : Z := xor3 (Z.land x y) (Z.land x z) (Z.land y z).
Definition Sigma0 (x : Z) : Z := xor3 (rotr 2 x) (rotr 13 x) (rotr 22 x).
Definition Sigma1 (x : Z) : Z := xor3 (rotr 6 x) (rotr 11 x) (rotr 25 x).
Definition sigma0 (x : Z) : Z := xor3 (rotr 7 x) (rotr 18 x) (Z.shiftr x 3).
Definition sigma1 (x : Z) : Z := xor3 (rotr 17 x) (rotr 19 x) (Z.shiftr x 10).

(** The round constants are the first 32 bits of the fractional parts of
    the cube roots of the first 64 primes, the initial hash value those
    of the square roots of the first 8 primes. *)
Definition is_prime (p : Z) : bool :=
  forallb (fun d => negb (p mod Z.of_nat d =? 0)) (seq 2 (Z.to_nat p - 2)).

Definition primes64 : list Z :=
  List.filter is_prime (map Z.of_nat (seq 2 310)).

(** The largest [r] below [2 ^ bits] with [r ^ k <= n], found bit by bit. *)
Fixpoint int_root (k : Z) (bits : nat) (n r : Z) : Z :=
  match bits with
  | O => r
  | S b =>
      let c := r + 2 ^ Z.of_nat b in
      int_root k b n (if c ^ k <=? n then c else r)
  end.

Definition frac_root32 (k p : Z) : Z :=
  int_root k 40 (p * 2 ^ (32 * k)) 0 mod 2 ^ 32.

Definition K256 : list Z := Eval vm_compute in map (frac_root32 3) primes64.

Definition H256 : list Z := Eval vm_compute in map (frac_root32 2) (firstn 8 primes64).

(** The UTF-8 bytes of a text of characters below 256. *)
Fixpoint utf8_encode (text : string) : list Z :=
  match text with
  | EmptyString => []
  | String c rest =>
      let n := Z.of_nat (nat_of_ascii c) in
      if n <? 128 then n :: utf8_encode rest
      else Z.lor 0xc0 (Z.shiftr n 6) :: Z.lor 0x80 (Z.land n 0x3f) :: utf8_encode rest
  end.

(** The message, one [0x80], zeros up to 56 modulo 64, the bit length on
    eight bytes. *)
Definition sha_pad (msg : list Z) : list Z :=
  let len := Z.of_nat (length msg) in
  let zeros := Z.to_nat ((55 - len) mod 64) in
  let bits := 8 * len in
  msg ++ [0x80] ++ repeat 0 zeros
      ++ map (fun k => Z.shiftr bits (8 * (7 - Z.of_nat k)) mod 256) (seq 0 8).

Fixpoint be_words (bytes : list Z) : list Z :=
  match bytes with
  | a :: b :: c :: d :: rest =>
      (Z.shiftl a 24 + Z.shiftl b 16 + Z.shiftl c 8 + d) :: be_words rest
  | _ => []
  end.

(** The message schedule, latest word first. *)
Fixpoint sha_extend (n : nat) (w : list Z) : list Z :=
  match n with
  | O => w
  | S n' =>
      let new := w32 (sigma1 (nth 1 w 0) + nth 6 w 0 + sigma0 (nth 14 w 0) + nth 15 w 0) in
      sha_extend n' (new :: w)
  end.

Definition sha_round (st : list Z) (kw : Z * Z) : list Z :=
  match st with
  | [a; b; c; d; e; f; g; h] =>
      let t1 := h + Sigma1 e + Ch e f g + fst kw + snd kw in
      let t2 := Sigma0 a + Maj a b c in
      [w32 (t1 + t2); a; b; c; w32 (d + t1); e; f; g]
  | _ => st
  end.

Definition sha_block (h : list Z) (block : list Z) : list Z :=
  let w := rev (sha_extend 48 (rev (be_words block))) in
  let st := fold_left sha_round (combine K256 w) h in
  map (fun p => w32 (fst p + snd p)) (combine h st).

Fixpoint sha_blocks (n : nat) (h : list Z) (bytes : list Z) : list Z :=
  match n with
  | O => h
  | S n' => sha_blocks n' (sha_block h (firstn 64 bytes)) (skipn 64 bytes)
  end.

Definition word_bytes (w : Z) : list Z :=
  [Z.shiftr w 24 mod 256; Z.shiftr w 16 mod 256; Z.shiftr w 8 mod 256; w mod 256].

Definition bytes_to_string (bytes : list Z) : string :=
  string_of_list_ascii (map (fun b => ascii_of_nat (Z.to_nat b)) bytes).

Definition sha256 (text : string) : string :=
  let padded := sha_pad (utf8_encode text) in
  let h := sha_blocks (length padded / 64) H256 padded in
  bytes_to_string (flat_map word_bytes h).

(** ** JSON, after [json/encoder.py] and [json/decoder.py] *)

Definition dquote : ascii := "034".
Definition backslash : ascii := "092".

(** [py_encode_basestring]: the quote, the backslash and the control
    characters are escaped, everything else is kept. *)
Definition escape_char (c : ascii) : string :=
  let n := N_of_ascii c in
  if Ascii.eqb c dquote then String backslash (String dquote "")
  else if Ascii.eqb c backslash then String backslash (String backslash "")
  else if (n =? 10)%N then String backslash "n"
  else if (n =? 13)%N then String backslash "r"
  else if (n =? 9)%N then String backslash "t"
  else if (n =? 8)%N then String backslash "b"
  else if (n =? 12)%N then String backslash "f"
  else if (n <? 32)%N then String backslash ("u00" +:+ hexlify (String c ""))
  else String c "".

Fixpoint escape (s : string) : string :=
  match s with
  | EmptyString => EmptyString
  | String c rest => escape_char c +:+ escape rest
  end.

Definition quoted (s : string) : string :=
  String dquote (escape s +:+ String dquote "").

Fixpoint json_dumps (v : json) : string :=
  match v with
  | JNull => "null"
  | JBool true => "true"
  | JBool false => "false"
  | JNumber literal => literal
  | JString s => quoted s
  | JArray items => "[" +:+ String.concat ", " (map json_dumps items) +:+ "]"
  | JObject members =>
      "{" +:+ String.concat ", "
                (map (fun kv => quoted (fst kv) +:+ ": " +:+ json_dumps (snd kv)) members)
          +:+ "}"
  end.

Definition is_json_ws (c : ascii) : bool :=
  let n := N_of_ascii c in
  (n =? 32)%N || (n =? 9)%N || (n =? 10)%N || (n =? 13)%N.

Fixpoint skip_ws (s : string) : string :=
  match s with
  | String c rest => if is_json_ws c then skip_ws rest else s
  | EmptyString => EmptyString
  end.

Definition hex_val (c : ascii) : option N :=
  let n := N_of_ascii c in
  if ((48 <=? n) && (n <=? 57))%N then Some (n - 48)%N
  else if ((97 <=? n) && (n <=? 102))%N then Some (n - 87)%N
  else if ((65 <=? n) && (n <=? 70))%N then Some (n - 55)%N
  else None.

(** The code point of the four hexadecimal digits of an escape. *)
Definition scan_uXXXX (s : string) : option (N * string) :=
  match s with
  | String h1 (String h2 (String h3 (String h4 rest))) =>
      match hex_val h1, hex_val h2, hex_val h3, hex_val h4 with
      | Some a, Some b, Some c, Some d => Some (((a * 16 + b) * 16 + c) * 16 + d, rest)%N
      | _, _, _, _ => None
      end
  | _ => None
  end.

(** A low surrogate written as an escape comes next: with the high
    surrogate before it, it names one character beyond U+FFFF. *)
Definition low_surrogate_next (s : string) : bool :=
  match s with
  | String b (String u rest) =>
      if Ascii.eqb b backslash && Ascii.eqb u "u" then
        match scan_uXXXX rest with
        | Some (u2, _) => ((0xDC00 <=? u2) && (u2 <=? 0xDFFF))%N
        | None => false
        end
      else false
  | _ => false
  end.

(** The characters after an opening quote, up to the closing one.  An
    escape [\uXXXX] alone names the character of that code point, a
    surrogate too; the reader gives up on a character the alphabet has
    no room for. *)
Fixpoint scanstring (s : string) : option (string * string) :=
  match s with
  | EmptyString => None
  | String c rest =>
      if Ascii.eqb c dquote then Some (EmptyString, rest)
      else if Ascii.eqb c backslash then
        match rest with
        | String e rest' =>
            let plain (ch : ascii) :=
              match scanstring rest' with
              | Some (body, tail) => Some (String ch body, tail)
              | None => None
              end in
            if Ascii.eqb e dquote then plain dquote
            else if Ascii.eqb e backslash then plain backslash
            else if Ascii.eqb e "/" then plain "/"%char
            else if Ascii.eqb e "b" then plain "008"%char
            else if Ascii.eqb e "f" then plain "012"%char
            else if Ascii.eqb e "n" then plain "010"%char
            else if Ascii.eqb e "r" then plain "013"%char
            else if Ascii.eqb e "t" then plain "009"%char
            else if Ascii.eqb e "u" then
              match rest' with
              | String h1 (String h2 (String h3 (String h4 rest''))) =>
                  match scan_uXXXX (String h1 (String h2 (String h3 (String h4 "")))) with
                  | Some (uni, _) =>
                      if ((0xD800 <=? uni) && (uni <=? 0xDBFF))%N && low_surrogate_next rest''
                      then None
                      else
                        match char_of_code_point uni, scanstring rest'' with
                        | Some ch, Some (body, tail) => Some (String ch body, tail)
                        | _, _ => None
                        end
                  | None => None
                  end
              | _ => None
              end
            else None
        | EmptyString => None
        end
      else if (N_of_ascii c <? 32)%N then None
      else
        match scanstring rest with
        | Some (body, tail) => Some (String c body, tail)
        | None => None
        end
  end.

Definition is_digit (c : ascii) : bool :=
  let n := N_of_ascii c in ((48 <=? n) && (n <=? 57))%N.

Fixpoint span_digits (s : string) : string * string :=
  match s with
  | String c rest =>
      if is_digit c then let '(ds, tail) := span_digits rest in (String c ds, tail)
      else (EmptyString, s)
  | EmptyString => (EmptyString, EmptyString)
  end.

(** A number literal and what follows it: an optional minus, then a
    zero or a run of digits that does not start with zero, then an
    optional fraction (a dot and digits), then an optional exponent
    (e or E, an optional sign, digits). *)
Definition scan_number (s : string) : option (string * string) :=
  let '(sign, s1) :=
    match s with
    | String "-" r => ("-", r)
    | _ => ("", s)
    end in
  let int_part :=
    match s1 with
    | String "0" r => Some ("0", r)
    | String c r =>
        if is_digit c then let '(ds, tail) := span_digits s1 in Some (ds, tail) else None
    | EmptyString => None
    end in
  match int_part with
  | None => None
  | Some (ip, s2) =>
      let '(frac, s3) :=
        match s2 with
        | String "." r =>
            match span_digits r with
            | (EmptyString, _) => ("", s2)
            | (ds, tail) => (String "." ds, tail)
            end
        | _ => ("", s2)
        end in
      let '(expo, s4) :=
        match s3 with
        | String e r =>
            if Ascii.eqb e "e" || Ascii.eqb e "E" then
              let '(esign, r') :=
                match r with
                | String "+" r' => ("+", r')
                | String "-" r' => ("-", r')
                | _ => ("", r)
                end in
              match span_digits r' with
              | (EmptyString, _) => ("", s3)
              | (ds, tail) => (String e (esign +:+ ds), tail)
              end
            else ("", s3)
        | EmptyString => ("", s3)
        end in
      Some (sign +:+ ip +:+ frac +:+ expo, s4)
  end.

Fixpoint strip_prefix (p s : string) : option string :=
  match p, s with
  | EmptyString, _ => Some s
  | String a p', String b s' => if Ascii.eqb a b then strip_prefix p' s' else None
  | String _ _, EmptyString => None
  end.

Definition scan_literal (s : string) : option (json * string) :=
  match strip_prefix "null" s with
  | Some r => Some (JNull, r)
  | None =>
  match strip_prefix "true" s with
  | Some r => Some (JBool true, r)
  | None =>
  match strip_prefix "false" s with
  | Some r => Some (JBool false, r)
  | None =>
  match strip_prefix "NaN" s with
  | Some r => Some (JNumber "NaN", r)
  | None =>
  match strip_prefix "Infinity" s with
  | Some r => Some (JNumber "Infinity", r)
  | None =>
  match strip_prefix "-Infinity" s with
  | Some r => Some (JNumber "-Infinity", r)
  | None =>
  match scan_number s with
  | Some (lit, r) => Some (JNumber lit, r)
  | None => None
  end end end end end end end.

(** [scan_once], [JSONObject] and [JSONArray]; the fuel bounds the
    number of values read. *)
Fixpoint scan_once (fuel : nat) (s : string) : option (json * string) :=
  match fuel with
  | O => None
  | S fuel' =>
      match s with
      | String c rest =>
          if Ascii.eqb c dquote then
            match scanstring rest with
            | Some (body, tail) => Some (JString body, tail)
            | None => None
            end
          else if Ascii.eqb c "{" then
            match skip_ws rest with
            | String "}" tail => Some (JObject [], tail)
            | String c' rest' =>
                if Ascii.eqb c' dquote then
                  match scan_members fuel' rest' [] with
                  | Some (members, tail) => Some (JObject members, tail)
                  | None => None
                  end
                else None
            | EmptyString => None
            end
          else if Ascii.eqb c "[" then
            match skip_ws rest with
            | String "]" tail => Some (JArray [], tail)
            | rest' =>
                match scan_items fuel' rest' [] with
                | Some (items, tail) => Some (JArray items, tail)
                | None => None
                end
            end
          else scan_literal s
      | EmptyString => None
      end
  end
with scan_members (fuel : nat) (s : string) (acc : list (string * json))
  : option (list (string * json) * string) :=
  match fuel with
  | O => None
  | S fuel' =>
      match scanstring s with
      | None => None
      | Some (key, s1) =>
          match skip_ws s1 with
          | String ":" s2 =>
              match scan_once fuel' (skip_ws s2) with
              | None => None
              | Some (value, s3) =>
                  let acc' := od_set key value acc in
                  match skip_ws s3 with
                  | String "}" tail => Some (acc', tail)
                  | String "," s4 =>
                      match skip_ws s4 with
                      | String c s5 =>
                          if Ascii.eqb c dquote then scan_members fuel' s5 acc' else None
                      | EmptyString => None
                      end
                  | _ => None
                  end
              end
          | _ => None
          end
      end
  end
with scan_items (fuel : nat) (s : string) (acc : list json)
  : option (list json * string) :=
  match fuel with
  | O => None
  | S fuel' =>
      match scan_once fuel' s with
      | None => None
      | Some (value, s1) =>
          let acc' := (acc ++ [value])%list in
          match skip_ws s1 with
          | String "]" tail => Some (acc', tail)
          | String "," s2 => scan_items fuel' (skip_ws s2) acc'
          | _ => None
          end
      end
  end.

Definition json_loads (s : string) : option json :=
  match scan_once (S (String.length s)) (skip_ws s) with
  | Some (v, tail) =>
      match skip_ws tail with
      | EmptyString => Some v
      | _ => None
      end
  | None => None
  end.

(** ** A stand-in for Fernet

    The token carries a fixed header, the key spelled so that no key's
    spelling is the beginning of another's, a colon and the text.
    Decryption accepts exactly a token that starts with the header and
    the spelling of the given key.  A token with an exclamation mark in
    place of the colon stands for one made elsewhere under that key from
    bytes that are not UTF-8. *)

Fixpoint spell_key (key : string) : string :=
  match key with
  | EmptyString => "."
  | String c rest =>
      let n := N_of_ascii c in
      String (hex_digit (n / 16)) (String (hex_digit (n mod 16)) (spell_key rest))
  end.

Definition fernet_encrypt (key : string) (nonce : N) (text : string) : string :=
  "gAAAAA" +:+ hex_fixed 8 nonce "" +:+ spell_key key +:+ ":" +:+ text.

Definition fernet_decrypt (key : string) (token : string) : decrypted :=
  match strip_prefix "gAAAAA" token with
  | None => InvalidToken
  | Some rest =>
      match strip_prefix (spell_key key) (str_drop 8 rest) with
      | Some (String ":" text) => Plain text
      | Some (String "!" plain_bytes) => NotUtf8 plain_bytes
      | _ => InvalidToken
      end
  end.

(** ** Renderer, scanner and file format *)

(** Bytes a symbol of version 1 to 40 holds in byte mode at level Q. *)
Definition capacity_Q : list Z :=
  [11; 20; 32; 46; 60; 74; 86; 108; 130; 151;
   177; 203; 241; 258; 292; 322; 364; 394; 442; 482;
   509; 565; 611; 661; 715; 751; 805; 868; 908; 982;
   1030; 1112; 1168; 1228; 1283; 1351; 1423; 1499; 1579; 1663].

Fixpoint first_fit (need : Z) (version : Z) (caps : list Z) : option Z :=
  match caps with
  | [] => None
  | cap :: caps' => if need <=? cap then Some version else first_fit need (version + 1) caps'
  end.

Definition qr_best_fit (data : string) : option Z :=
  first_fit (Z.of_nat (length (utf8_encode data))) 1 capacity_Q.

(** Every symbol of the picture, in the order it was put there. *)
Fixpoint symbols_in (img : image) : list string :=
  match img with
  | Blank _ _ => []
  | QRCode data _ => [data]
  | Paste base _ _ top => symbols_in base ++ symbols_in top
  | DrawText base _ => symbols_in base
  end.

(** The bytes of a symbol whose data hold a surrogate are not UTF-8. *)
Definition decode_qr (img : image) : list (option string) :=
  map (fun data => if @encodable alphabet data then Some data else None) (symbols_in img).

Inductive ref_file : Type :=
| PngOf (img : image)
| Garbage (why : string).

Definition image_open (f : ref_file) : string + image :=
  match f with
  | PngOf img => inr img
  | Garbage why => inl why
  end.

Definition libs : @Libs alphabet :=
  @Build_Libs alphabet ref_file sha256 json_dumps json_loads fernet_encrypt fernet_decrypt
              qr_best_fit decode_qr PngOf image_open.

(** ** Sample inputs *)

Definition sample_entropy : entropy :=
  {| uuid4 := 0xa8e2f417d5ac43aab37aa1ea0a24b1bb; fernet_nonce := 77 |}.

(** A scan with a stray symbol, an unreadable one, two frames of message
    [aaaa0001] out of order and one frame of another message. *)
Definition sample_scan : list (option string) :=
  [Some "stray"; Some "aaaa0001|1|2|wor|ld"; None; Some "bbbb0002|0|1|zzz";
   Some "aaaa0001|0|2|hello "].

(** The same scan without the frame of index 0. *)
Definition sample_scan_incomplete : list (option string) :=
  [Some "stray"; Some "aaaa0001|1|2|wor|ld"; None; Some "bbbb0002|0|1|zzz"].

Definition sample_frames : list frame :=
  [{| frame_id := "aaaa0001"; frame_index := 1; frame_total := 2; frame_text := "wor|ld" |};
   {| frame_id := "bbbb0002"; frame_index := 0; frame_total := 1; frame_text := "zzz" |};
   {| frame_id := "aaaa0001"; frame_index := 0; frame_total := 2; frame_text := "hello " |}].

(** Two thousand characters: more than one symbol holds at level Q. *)
Definition long_text : string := string_of_list_ascii (repeat "a"%char 2000).

(** The envelope of ["hi"] with a hash that is not its hash. *)
Definition tampered_envelope : string :=
  json_dumps (JObject [("hash", JString "00"); ("text", JString "hi")]).

(** An envelope whose text is a lone surrogate, written as an escape. *)
Definition surrogate_envelope : string :=
  "{" +:+ String dquote "hash" +:+ String dquote ": " +:+ String dquote "00"
  +:+ String dquote ", " +:+ String dquote "text" +:+ String dquote ": "
  +:+ String dquote (String backslash "ud800") +:+ String dquote "}".

(** A text of one character, a lone surrogate. *)
Definition surrogate_text : string := String high_surrogate "".

(** A token made elsewhere under the key of ["pw"] from the two bytes
    [ff fe], which are not UTF-8. *)
Definition foreign_token : string :=
  "gAAAAA" +:+ hex_fixed 8 0 "" +:+ spell_key (sha256 "pw") +:+ "!"
  +:+ String (ascii_of_N 255) (String (ascii_of_N 254) "").

End Ref.

(* ================================================================== *)
(** * A reference host and sample requests

    The bytes of a reference file are a stand-in for a PNG stream: a
    header and the frames of the picture.  The QR library is a release
    whose version check answers data that fit no symbol. *)
(* ================================================================== *)

Module RefHost.

Definition getvalue (f : Ref.ref_file) : string :=
  match f with
  | Ref.PngOf img => "PNG:" +:+ String.concat ";" (Ref.symbols_in img)
  | Ref.Garbage why => why
  end.

(** The length of the run of surrogates a text starts with. *)
Fixpoint surrogate_run (text : string) : nat :=
  match text with
  | String c rest => if @is_surrogate Ref.alphabet c then S (surrogate_run rest) else 0
  | EmptyString => 0
  end.

(** The first run of surrogates of a text: where it starts, its first
    character and its length. *)
Fixpoint first_surrogates (text : string) (pos : Z) : option (Z * ascii * nat) :=
  match text with
  | EmptyString => None
  | String c rest =>
      if @is_surrogate Ref.alphabet c then Some (pos, c, surrogate_run text)
      else first_surrogates rest (pos + 1)
  end.

Definition encode_error_message (object : string) : string :=
  match first_surrogates object 0 with
  | Some (start, c, 1%nat) =>
      "'utf-8' codec can't encode character '\ud"
      +:+ (if Ascii.eqb c Ref.high_surrogate then "800" else "c00")
      +:+ "' in position " +:+ py_str start +:+ ": surrogates not allowed"
  | Some (start, _, n) =>
      "'utf-8' codec can't encode characters in position " +:+ py_str start +:+ "-"
      +:+ py_str (start + Z.of_nat n - 1) +:+ ": surrogates not allowed"
  | None => ""
  end.

(** For bytes of which the first starts no character. *)
Definition decode_error_message (object : string) : string :=
  "'utf-8' codec can't decode byte 0x" +:+ hexlify (str_take 1 object)
  +:+ " in position 0: invalid start byte".

Definition host : @Host Ref.alphabet Ref.libs :=
  @Build_Host Ref.alphabet Ref.libs getvalue "Invalid version (was 41, expected 1 to 40)"
    encode_error_message decode_error_message.

(** A JSON body for the API encoder, with the passphrase [p]. *)
Definition encode_body (p : string) : list (string * pyval) :=
  [("data", PyStr "hello world"); ("chunk_size", PyInt 40); ("passphrase", PyStr p)].

Definition api_encode (p : string) : @request Ref.alphabet Ref.libs :=
  @Build_request Ref.alphabet Ref.libs "POST" (PyDict (encode_body p)) [] [] [].

(** An upload for either decoder, with the passphrase [p] in the form. *)
Definition decode_upload (p : string) (f : Ref.ref_file) : @request Ref.alphabet Ref.libs :=
  @Build_request Ref.alphabet Ref.libs "POST" PyNone [("mode", "decode"); ("passphrase", p)] []
    [("file", @Build_upload Ref.alphabet Ref.libs (Some "qr.png") f)].

(** The encode form of the web page. *)
Definition web_encode (data chunk_size p : string) : @request Ref.alphabet Ref.libs :=
  @Build_request Ref.alphabet Ref.libs "POST" PyNone
    [("mode", "encode"); ("data", data); ("chunk_size", chunk_size); ("passphrase", p)]
    [] [].

(** A picture of one frame whose envelope carries a wrong hash. *)
Definition tampered_file : Ref.ref_file :=
  Ref.PngOf (QRCode ("ab12cd34|0|1|" +:+ Ref.tampered_envelope) 330).

(** A picture of one frame that announces no chunk at all. *)
Definition hollow_file : Ref.ref_file := Ref.PngOf (QRCode "ab12cd34|0|0|x" 290).

(** A picture of one frame whose envelope holds a lone surrogate. *)
Definition surrogate_file : Ref.ref_file :=
  Ref.PngOf (QRCode ("ab12cd34|0|1|" +:+ Ref.surrogate_envelope) 330).

(** A picture of one frame that carries a token of bytes that are not
    UTF-8. *)
Definition foreign_file : Ref.ref_file :=
  Ref.PngOf (QRCode ("ab12cd34|0|1|" +:+ Ref.foreign_token) 410).

(** A JSON body whose [data] is the text ["\ud800"], with a chunk size. *)
Definition surrogate_body (chunk_size : Z) : list (string * pyval) :=
  [("data", PyStr Ref.surrogate_text); ("chunk_size", PyInt chunk_size)].

End RefHost.

(* ================================================================== *)
(** * Facts about the built-ins *)
(* ================================================================== *)

Section Strings.

Lemma app_cons (c : ascii) (s t : string) : String c s +:+ t = String c (s +:+ t).
Proof. reflexivity. Qed.

Lemma app_empty_l (s : string) : "" +:+ s = s.
Proof. reflexivity. Qed.

Lemma app_empty_r (s : string) : s +:+ "" = s.
Proof. induction s as [|c s IH]; [reflexivity|]. now rewrite app_cons, IH. Qed.

Lemma app_assoc' (s t u : string) : (s +:+ t) +:+ u = s +:+ (t +:+ u).
Proof. induction s as [|c s IH]; [reflexivity|]. now rewrite !app_cons, IH. Qed.

Lemma app_length (s t : string) :
  String.length (s +:+ t) = (String.length s + String.length t)%nat.
Proof. induction s as [|c s IH]; [reflexivity|]. rewrite app_cons. simpl. now rewrite IH. Qed.

Lemma join_cons (x : string) (xs : list string) :
  String.concat "" (x :: xs) = x +:+ String.concat "" xs.
Proof. destruct xs; simpl; [now rewrite app_empty_r | reflexivity]. Qed.

Lemma join_app (xs ys : list string) :
  String.concat "" (xs ++ ys) = String.concat "" xs +:+ String.concat "" ys.
Proof.
  induction xs as [|x xs IH]; [reflexivity|].
  change ((x :: xs) ++ ys)%list with (x :: (xs ++ ys))%list.
  now rewrite !join_cons, IH, app_assoc'.
Qed.

Lemma take_drop (n : nat) (s : string) : str_take n s +:+ str_drop n s = s.
Proof.
  revert s; induction n as [|n IH]; intros [|c s]; try reflexivity.
  simpl. now rewrite app_cons, IH.
Qed.

Lemma take_length (n : nat) (s : string) :
  String.length (str_take n s) = Nat.min n (String.length s).
Proof.
  revert s; induction n as [|n IH]; intros [|c s]; try reflexivity.
  simpl. now rewrite IH.
Qed.

Lemma drop_length (n : nat) (s : string) :
  String.length (str_drop n s) = (String.length s - n)%nat.
Proof.
  revert s; induction n as [|n IH]; intros [|c s]; try reflexivity.
  simpl. now rewrite IH.
Qed.

Lemma drop_drop (n m : nat) (s : string) :
  str_drop n (str_drop m s) = str_drop (m + n) s.
Proof.
  revert s; induction m as [|m IH]; intros s; [reflexivity|].
  destruct s as [|c s]; [now destruct n | apply IH].
Qed.

Lemma take_all (n : nat) (s : string) : (String.length s <= n)%nat -> str_take n s = s.
Proof.
  revert s; induction n as [|n IH]; intros [|c s] H; try reflexivity.
  - simpl in H. lia.
  - simpl in *. f_equal. apply IH. lia.
Qed.

Lemma length_zero_empty (s : string) : String.length s = 0%nat -> s = "".
Proof. now destruct s. Qed.

End Strings.

(** ** The chunks of a text: slices of [size] characters, taken in order *)

Section Slices.
Variable sz : nat.

Lemma slices_succ (count : nat) (s : string) :
  slices sz (S count) s = str_take sz s :: slices sz count (str_drop sz s).
Proof.
  unfold slices. rewrite <- cons_seq, <- seq_shift. cbn [map]. rewrite map_map.
  f_equal. apply map_ext. intros k. now rewrite drop_drop.
Qed.

Lemma slices_join (count : nat) (s : string) :
  (String.length s <= count * sz)%nat -> String.concat "" (slices sz count s) = s.
Proof.
  revert s; induction count as [|count IH]; intros s Hlen.
  - simpl in Hlen. assert (String.length s = 0%nat) as ->%length_zero_empty by lia.
    reflexivity.
  - rewrite slices_succ, join_cons, IH, take_drop; [reflexivity|].
    rewrite drop_length. simpl in Hlen. lia.
Qed.

Lemma slices_lookup (count : nat) (s : string) (k : nat) (c : string) :
  slices sz count s !! k = Some c ->
  (k < count)%nat /\ c = str_take sz (str_drop (k * sz) s).
Proof.
  unfold slices. rewrite list_lookup_fmap. intros H.
  destruct (seq 0 count !! k) as [j|] eqn:Hj; [|discriminate].
  apply lookup_seq in Hj as [-> ?]. simpl in H. split; [lia | congruence].
Qed.

Lemma slices_length (count : nat) (s : string) : length (slices sz count s) = count.
Proof. unfold slices. now rewrite length_map, length_seq. Qed.

End Slices.

Section Chunker.

Lemma chunk_count_bounds (len size : Z) :
  0 <= len -> 0 < size ->
  0 <= chunk_count len size /\
  (chunk_count len size - 1) * size < len <= chunk_count len size * size.
Proof.
  intros Hlen Hsize. unfold chunk_count.
  pose proof (Z.div_mod (len + size - 1) size ltac:(lia)) as Hdm.
  pose proof (Z.mod_pos_bound (len + size - 1) size Hsize) as Hm.
  assert (0 <= (len + size - 1) / size) by (apply Z.div_pos; lia).
  nia.
Qed.

Lemma chunk_text_slices (text : string) (size : Z) :
  0 < size ->
  chunk_text text size =
  Ok (slices (Z.to_nat size) (Z.to_nat (chunk_count (py_len text) size)) text).
Proof.
  intros Hsize. unfold chunk_text, py_range3, slices, chunk_count.
  destruct (Z.leb_spec size 0) as [?|_]; [lia|].
  f_equal. rewrite map_map. rewrite Z.sub_0_r. apply map_ext. intros k.
  unfold py_slice. f_equal; [f_equal; lia|]. f_equal.
  rewrite Z.add_0_l, Z2Nat.inj_mul, Nat2Z.id by lia. reflexivity.
Qed.

Lemma chunk_text_nonpositive (text : string) (size : Z) :
  size <= 0 -> chunk_text text size = Raise (ValueError "chunk_size must be positive").
Proof.
  intros Hsize. unfold chunk_text. destruct (Z.leb_spec size 0); [reflexivity | lia].
Qed.

Lemma chunk_text_join (text : string) (size : Z) (chunks : list string) :
  chunk_text text size = Ok chunks -> String.concat "" chunks = text.
Proof.
  intros H. destruct (Z.leb_spec size 0) as [Hs|Hs].
  - rewrite chunk_text_nonpositive in H by assumption. discriminate.
  - rewrite chunk_text_slices in H by assumption. injection H as <-.
    apply slices_join.
    pose proof (chunk_count_bounds (py_len text) size ltac:(unfold py_len; lia) Hs).
    unfold py_len in *. nia.
Qed.

Lemma chunk_text_length (text : string) (size : Z) (chunks : list string) :
  chunk_text text size = Ok chunks ->
  Z.of_nat (length chunks) = chunk_count (py_len text) size.
Proof.
  intros H. destruct (Z.leb_spec size 0) as [Hs|Hs].
  - rewrite chunk_text_nonpositive in H by assumption. discriminate.
  - rewrite chunk_text_slices in H by assumption. injection H as <-.
    rewrite slices_length.
    pose proof (chunk_count_bounds (py_len text) size ltac:(unfold py_len; lia) Hs). lia.
Qed.

Lemma chunk_text_lookup (text : string) (size : Z) (chunks : list string)
    (k : nat) (c : string) :
  chunk_text text size = Ok chunks -> chunks !! k = Some c ->
  c = py_slice text (Z.of_nat k * size) (Z.of_nat k * size + size) /\
  0 < py_len c <= size /\
  ((S k < length chunks)%nat -> py_len c = size).
Proof.
  intros H Hk. destruct (Z.leb_spec size 0) as [Hs|Hs].
  - rewrite chunk_text_nonpositive in H by assumption. discriminate.
  - pose proof (chunk_text_length _ _ _ H) as Hn.
    rewrite chunk_text_slices in H by assumption. injection H as <-.
    pose proof (chunk_count_bounds (py_len text) size ltac:(unfold py_len; lia) Hs) as Hb.
    apply slices_lookup in Hk as [Hlt ->].
    assert (py_slice text (Z.of_nat k * size) (Z.of_nat k * size + size)
            = str_take (Z.to_nat size) (str_drop (k * Z.to_nat size) text)) as Hsl.
    { unfold py_slice. f_equal; [f_equal; lia|]. f_equal.
      rewrite Z2Nat.inj_mul, Nat2Z.id by lia. reflexivity. }
    split; [now rewrite Hsl|].
    unfold py_len in *. rewrite take_length, drop_length.
    rewrite slices_length in Hn |- *. split; [nia|]. intros. nia.
Qed.

Lemma chunk_text_single (text : string) (size : Z) :
  text <> "" -> py_len text <= size -> chunk_text text size = Ok [text].
Proof.
  intros Hne Hle.
  assert (0 < py_len text) as Hpos.
  { unfold py_len. destruct text; [congruence | simpl; lia]. }
  rewrite chunk_text_slices by lia.
  assert (chunk_count (py_len text) size = 1) as ->.
  { pose proof (chunk_count_bounds (py_len text) size ltac:(lia) ltac:(lia)). nia. }
  change (Z.to_nat 1) with 1%nat. unfold slices. simpl. f_equal. f_equal.
  apply take_all. unfold py_len in *. lia.
Qed.

Lemma chunk_text_nonempty (text : string) (size : Z) (chunks : list string) :
  text <> "" -> chunk_text text size = Ok chunks -> chunks <> [].
Proof.
  intros Hne H ->. apply chunk_text_join in H. simpl in H. congruence.
Qed.

End Chunker.

(** ** Decimal text of an integer, and reading it back *)

Section Decimal.

Lemma str_forall_app (P : ascii -> bool) (s t : string) :
  str_forall P (s +:+ t) = str_forall P s && str_forall P t.
Proof.
  induction s as [|c s IH]; [reflexivity|].
  rewrite app_cons. simpl. now rewrite IH, andb_assoc.
Qed.

Lemma str_forall_impl (P Q : ascii -> bool) (s : string) :
  (forall c, P c = true -> Q c = true) ->
  str_forall P s = true -> str_forall Q s = true.
Proof.
  intros HPQ. induction s as [|c s IH]; [reflexivity|]. simpl.
  intros [Hc Hs]%andb_true_iff. rewrite (HPQ _ Hc). now apply IH.
Qed.

Lemma str_forall_take (P : ascii -> bool) (n : nat) (s : string) :
  str_forall P s = true -> str_forall P (str_take n s) = true.
Proof.
  revert s; induction n as [|n IH]; intros [|c s]; try reflexivity. simpl.
  intros [Hc Hs]%andb_true_iff. rewrite Hc. now apply IH.
Qed.

Lemma digit_val_char (d : Z) : 0 <= d < 10 -> digit_val (digit_char d) = Some d.
Proof.
  intros Hd. assert (d = 0 \/ d = 1 \/ d = 2 \/ d = 3 \/ d = 4 \/ d = 5 \/ d = 6
                     \/ d = 7 \/ d = 8 \/ d = 9) as Hcases by lia.
  repeat (destruct Hcases as [-> | Hcases]; [reflexivity|]). now subst.
Qed.

Lemma is_dec_digit_char (d : Z) : 0 <= d < 10 -> is_dec_digit (digit_char d) = true.
Proof. intros Hd. unfold is_dec_digit. now rewrite digit_val_char. Qed.

Lemma dec_digits_spec (fuel : nat) (n : Z) (acc : string) :
  0 <= n < 2 ^ Z.of_nat (S fuel) ->
  str_forall is_dec_digit acc = true ->
  str_forall is_dec_digit (dec_digits (S fuel) n acc) = true /\
  dec_digits (S fuel) n acc <> "" /\
  exists k, 0 <= k /\
    forall a, horner (dec_digits (S fuel) n acc) a = horner acc (a * 10 ^ k + n).
Proof.
  assert (forall d acc', 0 <= d < 10 -> str_forall is_dec_digit acc' = true ->
            str_forall is_dec_digit (String (digit_char d) acc') = true /\
            String (digit_char d) acc' <> "" /\
            forall a, horner (String (digit_char d) acc') a = horner acc' (10 * a + d))
    as Hone.
  { intros d acc' Hd Hacc'. cbn [str_forall horner].
    rewrite is_dec_digit_char, digit_val_char, Hacc' by lia.
    repeat split. discriminate. }
  revert n acc. induction fuel as [|fuel IH]; intros n acc Hn Hacc.
  - assert (n < 10) as Hlt by (change (2 ^ Z.of_nat 1) with 2 in Hn; lia).
    cbn [dec_digits]. destruct (Z.ltb_spec n 10); [|lia].
    rewrite Z.mod_small by lia.
    destruct (Hone n acc ltac:(lia) Hacc) as (H1 & H2 & H3).
    repeat split; [exact H1 | exact H2 |].
    exists 1. split; [lia|]. intros a. rewrite H3. f_equal. lia.
  - cbn [dec_digits]. destruct (Z.ltb_spec n 10) as [Hlt|Hge].
    + rewrite Z.mod_small by lia.
      destruct (Hone n acc ltac:(lia) Hacc) as (H1 & H2 & H3).
      repeat split; [exact H1 | exact H2 |].
      exists 1. split; [lia|]. intros a. rewrite H3. f_equal. lia.
    + pose proof (Z.mod_pos_bound n 10 ltac:(lia)) as Hm.
      pose proof (Z.div_mod n 10 ltac:(lia)) as Hdm.
      destruct (Hone (n mod 10) acc Hm Hacc) as (H1 & H2 & H3).
      destruct (IH (n / 10) (String (digit_char (n mod 10)) acc)) as (Hd & Hne & k & Hk0 & Hk).
      * split; [apply Z.div_pos; lia|].
        apply Z.div_lt_upper_bound; [lia|].
        rewrite (Nat2Z.inj_succ (S fuel)), Z.pow_succ_r in Hn by lia. lia.
      * exact H1.
      * repeat split; [exact Hd | exact Hne |].
        exists (k + 1). split; [lia|]. intros a. rewrite Hk, H3. f_equal.
        rewrite Z.pow_add_r by lia. lia.
Qed.

Lemma py_str_nonneg_spec (n : Z) :
  0 <= n ->
  str_forall is_dec_digit (py_str_nonneg n) = true /\
  py_str_nonneg n <> "" /\
  horner (py_str_nonneg n) 0 = n.
Proof.
  intros Hn. unfold py_str_nonneg.
  destruct (dec_digits_spec (Z.to_nat (Z.log2 n)) n "") as (Hd & Hne & k & Hk0 & Hk).
  - split; [lia|]. rewrite Nat2Z.inj_succ, Z2Nat.id by apply Z.log2_nonneg.
    destruct (Z.eq_dec n 0) as [->|]; [reflexivity|]. apply Z.log2_spec. lia.
  - reflexivity.
  - repeat split; [exact Hd | exact Hne |]. rewrite Hk. cbn [horner]. lia.
Qed.

Lemma parse_digits_horner (s : string) (acc : Z) (prev : bool) :
  str_forall is_dec_digit s = true -> s <> "" \/ prev = true ->
  parse_digits s acc prev = Some (horner s acc).
Proof.
  revert acc prev. induction s as [|c s IH]; intros acc prev Hd Hne.
  - destruct Hne as [?| ->]; [congruence | reflexivity].
  - simpl in *. apply andb_true_iff in Hd as [Hc Hs]. unfold is_dec_digit in Hc.
    destruct (digit_val c) as [d|]; [|discriminate]. simpl. apply IH; auto.
Qed.

Lemma count_digits_le (s : string) : (count_digits s <= String.length s)%nat.
Proof.
  induction s as [|c s IH]; [reflexivity|]. cbn [count_digits String.length].
  destruct (digit_val c); lia.
Qed.

Lemma count_digits_all (s : string) :
  str_forall is_dec_digit s = true -> count_digits s = String.length s.
Proof.
  induction s as [|c s IH]; [reflexivity|]. cbn [str_forall count_digits String.length].
  intros [Hc Hs]%andb_true_iff. unfold is_dec_digit in Hc.
  destruct (digit_val c); [|discriminate]. now rewrite IH.
Qed.

(** [int] refuses more than 4300 digits, whatever else the string holds. *)
Lemma py_int_limit (s : string) :
  (int_max_str_digits < count_digits s)%nat -> py_int s = None.
Proof.
  intros Hlim. unfold py_int. apply Nat.ltb_lt in Hlim. now rewrite Hlim.
Qed.

Lemma py_int_within (s : string) :
  (count_digits s <= int_max_str_digits)%nat ->
  py_int s = match lstrip s with
             | String "+" s' => parse_digits s' 0 false
             | String "-" s' => Z.opp <$> parse_digits s' 0 false
             | s' => parse_digits s' 0 false
             end.
Proof.
  intros Hlim. unfold py_int. apply Nat.ltb_ge in Hlim. now rewrite Hlim.
Qed.

Lemma lstrip_unsigned (c : ascii) (s : string) :
  is_dec_digit c = true ->
  match lstrip (String c s) with
  | String "+" s' => parse_digits s' 0 false
  | String "-" s' => Z.opp <$> parse_digits s' 0 false
  | s' => parse_digits s' 0 false
  end = parse_digits (String c s) 0 false.
Proof.
  destruct c as [[] [] [] [] [] [] [] []]; try discriminate; reflexivity.
Qed.

Lemma count_digits_py_str (n : Z) :
  count_digits (py_str n) = String.length (py_str_nonneg (Z.abs n)).
Proof.
  unfold py_str. destruct (Z.ltb_spec n 0) as [Hneg|Hpos].
  - destruct (py_str_nonneg_spec (- n)) as (Hd & _ & _); [lia|].
    change (count_digits (String "-" ?s)) with (count_digits s).
    rewrite count_digits_all by exact Hd. f_equal. f_equal. lia.
  - destruct (py_str_nonneg_spec n) as (Hd & _ & _); [lia|].
    rewrite count_digits_all by exact Hd. f_equal. f_equal. lia.
Qed.

(** [int(str(n)) == n] for an integer within the limit of digits. *)
Lemma py_int_str (n : Z) :
  (count_digits (py_str n) <= int_max_str_digits)%nat -> py_int (py_str n) = Some n.
Proof.
  intros Hlim. rewrite py_int_within by exact Hlim.
  unfold py_str. destruct (Z.ltb_spec n 0) as [Hneg|Hpos].
  - destruct (py_str_nonneg_spec (- n)) as (Hd & Hne & Hv); [lia|].
    cbn [lstrip]. change (is_space "-") with false. cbn iota.
    rewrite parse_digits_horner by auto. rewrite Hv. simpl. f_equal. lia.
  - destruct (py_str_nonneg_spec n) as (Hd & Hne & Hv); [lia|].
    destruct (py_str_nonneg n) as [|c s] eqn:E; [congruence|].
    rewrite lstrip_unsigned by (simpl in Hd; now apply andb_true_iff in Hd as [? _]).
    rewrite parse_digits_horner by auto. now rewrite Hv.
Qed.

Lemma dec_digits_length_le (fuel : nat) (m : Z) (k : nat) (acc : string) :
  0 <= m < 10 ^ Z.of_nat k -> (1 <= k)%nat ->
  (String.length (dec_digits fuel m acc) <= k + String.length acc)%nat.
Proof.
  revert m k acc. induction fuel as [|fuel IH]; intros m k acc Hm Hk.
  - cbn [dec_digits]. lia.
  - cbn [dec_digits]. cbv zeta. destruct (Z.ltb_spec m 10) as [Hlt|Hge].
    + cbn [String.length]. lia.
    + destruct k as [|[|k]]; [lia | change (10 ^ Z.of_nat 1) with 10 in Hm; lia |].
      etransitivity; [apply (IH (m / 10) (S k))|cbn [String.length]; lia]; [|lia].
      split; [apply Z.div_pos; lia|].
      apply Z.div_lt_upper_bound; [lia|].
      rewrite (Nat2Z.inj_succ (S k)), Z.pow_succ_r in Hm by lia. lia.
Qed.

(** An integer below [10 ^ k] in absolute value is written with [k]
    digits at most. *)
Lemma py_str_digits (n : Z) (k : nat) :
  (1 <= k)%nat -> - 10 ^ Z.of_nat k < n < 10 ^ Z.of_nat k ->
  (count_digits (py_str n) <= k)%nat.
Proof.
  intros Hk Hn. rewrite count_digits_py_str. unfold py_str_nonneg.
  etransitivity; [apply (dec_digits_length_le _ _ k); [lia | exact Hk]|].
  cbn [String.length]. lia.
Qed.

Lemma py_str_no_sep (n : Z) : no_sep (py_str n) = true.
Proof.
  assert (forall m, 0 <= m -> no_sep (py_str_nonneg m) = true) as Hnn.
  { intros m Hm. destruct (py_str_nonneg_spec m Hm) as (Hd & _ & _).
    revert Hd. apply str_forall_impl.
    intros [[] [] [] [] [] [] [] []]; try discriminate; reflexivity. }
  unfold py_str. destruct (Z.ltb_spec n 0); [|apply Hnn; lia].
  unfold no_sep. simpl. apply Hnn. lia.
Qed.

End Decimal.

(** ** Splitting on the separator *)

Section Split.

Lemma str_cut_app (a b : string) :
  no_sep a = true -> str_cut "|" (a +:+ String "|" b) = Some (a, b).
Proof.
  induction a as [|c a IH]; intros Ha; [reflexivity|].
  unfold no_sep in Ha. cbn [str_forall] in Ha. apply andb_true_iff in Ha as [Hc Ha].
  rewrite app_cons. cbn [str_cut]. apply negb_true_iff in Hc. rewrite Hc.
  now rewrite (IH Ha).
Qed.

Lemma str_cut_Some (s a b : string) :
  str_cut "|" s = Some (a, b) -> s = a +:+ String "|" b /\ no_sep a = true.
Proof.
  revert a. induction s as [|c s IH]; intros a H; [discriminate|].
  cbn [str_cut] in H. destruct (Ascii.eqb_spec c "|") as [->|Hc].
  - injection H as <- <-. now split.
  - destruct (str_cut "|" s) as [[a' b']|]; [|discriminate].
    injection H as <- <-. destruct (IH a' eq_refl) as [-> Ha'].
    split; [reflexivity|]. unfold no_sep. cbn [str_forall].
    apply Ascii.eqb_neq in Hc. now rewrite Hc.
Qed.

Lemma str_cut_None (s : string) : str_cut "|" s = None -> no_sep s = true.
Proof.
  induction s as [|c s IH]; [reflexivity|]. cbn [str_cut].
  destruct (Ascii.eqb_spec c "|") as [->|Hc]; [discriminate|].
  destruct (str_cut "|" s) as [[a b]|]; [discriminate|]. intros _.
  unfold no_sep. cbn [str_forall]. apply Ascii.eqb_neq in Hc. rewrite Hc. now apply IH.
Qed.

(** Joining the fields with the separator gives the string back: nothing
    is lost or changed by the split, whatever the limit. *)
Lemma py_split_join (n : nat) (s : string) :
  String.concat "|" (py_split "|" n s) = s.
Proof.
  revert s. induction n as [|n IH]; intros s; [reflexivity|]. cbn [py_split].
  destruct (str_cut "|" s) as [[a b]|] eqn:E; [|reflexivity].
  apply str_cut_Some in E as [-> _]. specialize (IH b).
  destruct (py_split "|" n b) as [|x xs] eqn:E'.
  - destruct n; cbn [py_split] in E'; [discriminate|].
    destruct (str_cut "|" b) as [[? ?]|]; discriminate.
  - change (String.concat "|" (a :: x :: xs))
      with (a +:+ "|" +:+ String.concat "|" (x :: xs)).
    now rewrite IH.
Qed.

Lemma py_split_length (n : nat) (s : string) :
  (1 <= length (py_split "|" n s) <= S n)%nat.
Proof.
  revert s. induction n as [|n IH]; intros s; cbn [py_split]; [simpl; lia|].
  destruct (str_cut "|" s) as [[a b]|]; cbn [length]; [|lia].
  specialize (IH b). lia.
Qed.

(** Four fields come out exactly when the string has three separators or
    more; the first three fields hold none, the fourth is all that
    follows the third separator. *)
Lemma py_split_four (s m i t c : string) :
  py_split "|" 3 s = [m; i; t; c] <->
  s = m +:+ "|" +:+ i +:+ "|" +:+ t +:+ "|" +:+ c /\
  no_sep m = true /\ no_sep i = true /\ no_sep t = true.
Proof.
  split.
  - cbn [py_split]. intros H.
    destruct (str_cut "|" s) as [[a1 r1]|] eqn:E1; [|discriminate].
    destruct (str_cut "|" r1) as [[a2 r2]|] eqn:E2; [|discriminate].
    destruct (str_cut "|" r2) as [[a3 r3]|] eqn:E3; [|discriminate].
    injection H as <- <- <- <-.
    apply str_cut_Some in E1 as [-> H1], E2 as [-> H2], E3 as [-> H3].
    auto.
  - intros (-> & Hm & Hi & Ht). cbn [py_split].
    change ("|" +:+ ?x) with (String "|" x).
    rewrite (str_cut_app m) by assumption.
    change ("|" +:+ ?x) with (String "|" x).
    rewrite (str_cut_app i) by assumption.
    change ("|" +:+ ?x) with (String "|" x).
    rewrite (str_cut_app t) by assumption. reflexivity.
Qed.

End Split.

(** ** Hexadecimal identifiers hold no separator *)

(** A goal about a hexadecimal digit value [d < 16], settled by running
    it on the sixteen values. *)
Ltac by_nibble d :=
  let H := fresh "Hcases" in
  assert (d = 0 \/ d = 1 \/ d = 2 \/ d = 3 \/ d = 4 \/ d = 5 \/ d = 6 \/ d = 7 \/
          d = 8 \/ d = 9 \/ d = 10 \/ d = 11 \/ d = 12 \/ d = 13 \/ d = 14 \/ d = 15)%N
    as H by lia;
  repeat (destruct H as [-> | H]; [reflexivity|]); subst; reflexivity.

Section Hex.

Lemma hex_digit_is_hex (d : N) : (d < 16)%N -> is_hex_digit (hex_digit d) = true.
Proof.
  intros Hd. by_nibble d.
Qed.

Lemma hex_fixed_is_hex (width : nat) (n : N) (acc : string) :
  str_forall is_hex_digit acc = true ->
  str_forall is_hex_digit (hex_fixed width n acc) = true.
Proof.
  revert n acc. induction width as [|w IH]; intros n acc Hacc; [exact Hacc|].
  cbn [hex_fixed]. apply IH. cbn [str_forall]. rewrite Hacc, hex_digit_is_hex; [reflexivity|].
  apply N.mod_lt. discriminate.
Qed.

Lemma msg_id_no_sep (uuid : N) : no_sep (str_take 8 (uuid_hex uuid)) = true.
Proof.
  apply str_forall_take. unfold uuid_hex.
  apply (str_forall_impl is_hex_digit); [|now apply hex_fixed_is_hex].
  intros [[] [] [] [] [] [] [] []]; try discriminate; reflexivity.
Qed.

End Hex.

(** ** The decoder's dictionary of messages *)

Section Messages.

Lemma od_get_set_eq {V} (k : string) (v : V) (d : list (string * V)) :
  od_get k (od_set k v d) = Some v.
Proof.
  induction d as [|[k' v'] d IH]; cbn [od_set od_get].
  - now rewrite String.eqb_refl.
  - destruct (String.eqb_spec k' k) as [->|Hne]; cbn [od_get].
    + now rewrite String.eqb_refl.
    + apply String.eqb_neq in Hne. now rewrite Hne.
Qed.

Lemma od_get_set_ne {V} (k k' : string) (v : V) (d : list (string * V)) :
  k <> k' -> od_get k' (od_set k v d) = od_get k' d.
Proof.
  intros Hne. induction d as [|[k0 v0] d IH]; cbn [od_set od_get].
  - apply String.eqb_neq in Hne. now rewrite Hne.
  - destruct (String.eqb_spec k0 k) as [->|Hne0]; cbn [od_get].
    + apply String.eqb_neq in Hne. now rewrite Hne.
    + now rewrite IH.
Qed.

(** The first key of a dict never changes once it is there. *)
Lemma od_set_first {V} (k : string) (v : V) (d : list (string * V)) :
  fst <$> head (od_set k v d) = Some (default k (fst <$> head d)).
Proof.
  destruct d as [|[k0 v0] d]; [reflexivity|]. cbn [od_set].
  destruct (String.eqb_spec k0 k) as [->|Hne]; reflexivity.
Qed.

Lemma od_get_first {V} (k : string) (v : V) (d : list (string * V)) :
  od_get k ((k, v) :: d) = Some v.
Proof. cbn [od_get]. now rewrite String.eqb_refl. Qed.

Lemma od_first_get {V} (d : list (string * V)) (k : string) (v : V) :
  head d = Some (k, v) -> od_get k d = Some v.
Proof. destruct d as [|[k0 v0] d]; [discriminate|]. intros [= -> ->]. apply od_get_first. Qed.

Lemma store_frame_get (messages : list (string * message)) (f : frame) (k : string) :
  od_get k (store_frame messages f) =
  if decide (frame_id f = k) then Some (upd_entry (od_get k messages) f)
  else od_get k messages.
Proof.
  unfold store_frame, upd_entry. destruct (decide (frame_id f = k)) as [<-|Hne].
  - destruct (od_get (frame_id f) messages) as [m|] eqn:E.
    + rewrite E. now rewrite od_get_set_eq.
    + rewrite od_get_set_eq. now rewrite od_get_set_eq.
  - destruct (od_get (frame_id f) messages) as [m|] eqn:E.
    + rewrite E. now rewrite od_get_set_ne.
    + rewrite od_get_set_eq. now rewrite !od_get_set_ne.
Qed.

Lemma store_frame_first (messages : list (string * message)) (f : frame) :
  fst <$> head (store_frame messages f) = Some (default (frame_id f) (fst <$> head messages)).
Proof.
  unfold store_frame. destruct (od_get (frame_id f) messages) as [m|] eqn:E.
  - rewrite E. apply od_set_first.
  - rewrite od_get_set_eq, od_set_first, od_set_first.
    now destruct messages as [|[k0 v0] d].
Qed.

Lemma scan_symbol_parse (messages : list (string * message)) (symbol : option string) :
  scan_symbol messages symbol =
  match parse_frame symbol with
  | Some f => store_frame messages f
  | None => messages
  end.
Proof.
  destruct symbol as [content|]; [|reflexivity].
  unfold scan_symbol, parse_frame.
  destruct (py_split "|" 3 content) as [|m [|i [|t [|c [|x xs]]]]]; try reflexivity.
  destruct (py_int i) as [idx|]; [|reflexivity].
  destruct (py_int t) as [total|]; reflexivity.
Qed.

Lemma scan_fold_parse (decoded : list (option string)) (messages : list (string * message)) :
  fold_left scan_symbol decoded messages =
  fold_left store_frame (omap parse_frame decoded) messages.
Proof.
  revert messages. induction decoded as [|s decoded IH]; intros messages; [reflexivity|].
  change (omap parse_frame (s :: decoded))
    with (match parse_frame s with
          | Some f => f :: omap parse_frame decoded
          | None => omap parse_frame decoded
          end).
  cbn [fold_left]. rewrite IH, scan_symbol_parse.
  now destruct (parse_frame s).
Qed.

Lemma store_fold_first (frames : list frame) (messages : list (string * message)) (k : string) :
  fst <$> head messages = Some k ->
  fst <$> head (fold_left store_frame frames messages) = Some k.
Proof.
  revert messages. induction frames as [|f frames IH]; intros messages Hk; [exact Hk|].
  cbn [fold_left]. apply IH. rewrite store_frame_first, Hk. reflexivity.
Qed.

Lemma store_fold_get (frames : list frame) (messages : list (string * message)) (k : string) :
  od_get k (fold_left store_frame frames messages) =
  fold_left (fun o f => Some (upd_entry o f)) (frames_of k frames) (od_get k messages).
Proof.
  revert messages. induction frames as [|f frames IH]; intros messages; [reflexivity|].
  cbn [fold_left]. rewrite IH, store_frame_get. unfold frames_of.
  rewrite filter_cons. destruct (decide (frame_id f = k)); reflexivity.
Qed.

Lemma upd_fold (frames : list frame) (m : message) :
  fold_left (fun o f => Some (upd_entry o f)) frames (Some m) =
  Some {| msg_total := m.(msg_total);
          msg_parts := fold_left insert_frame frames m.(msg_parts) |}.
Proof.
  revert m. induction frames as [|f frames IH]; intros m; [now destruct m|].
  cbn [fold_left]. rewrite IH. reflexivity.
Qed.

Lemma pick_fold_default (i : Z) (frames : list frame) (o : option string) :
  fold_left (pick_text i) frames o =
  match fold_left (pick_text i) frames None with
  | Some t => Some t
  | None => o
  end.
Proof.
  revert o. induction frames as [|f frames IH]; intros o; [reflexivity|].
  cbn [fold_left]. rewrite (IH (pick_text i o f)), (IH (pick_text i None f)).
  destruct (fold_left (pick_text i) frames None); [reflexivity|].
  unfold pick_text. now destruct (frame_index f =? i).
Qed.

Lemma insert_fold_lookup (frames : list frame) (p : gmap Z string) (i : Z) :
  fold_left insert_frame frames p !! i =
  match text_at i frames with
  | Some t => Some t
  | None => p !! i
  end.
Proof.
  change (text_at i frames) with (fold_left (pick_text i) frames None).
  rewrite <- pick_fold_default.
  revert p. induction frames as [|f frames IH]; intros p; [reflexivity|].
  cbn [fold_left]. rewrite IH. f_equal. unfold insert_frame, pick_text.
  destruct (Z.eqb_spec (frame_index f) i) as [->|Hne].
  - apply lookup_insert_eq.
  - now apply lookup_insert_ne.
Qed.

Lemma text_at_Some (i : Z) (frames : list frame) (t : string) :
  text_at i frames = Some t ->
  exists f, f ∈ frames /\ frame_index f = i /\ frame_text f = t.
Proof.
  change (text_at i frames) with (fold_left (pick_text i) frames None).
  induction frames as [|f frames IH] using rev_ind; [discriminate|].
  rewrite fold_left_app. cbn [fold_left]. unfold pick_text at 1.
  destruct (Z.eqb_spec (frame_index f) i) as [Hi|Hne].
  - intros [= <-]. exists f. split; [apply elem_of_app; right; apply list_elem_of_singleton; reflexivity | auto].
  - intros H. destruct (IH H) as (g & Hg & Hgi & Hgt). exists g.
    split; [apply elem_of_app; now left | auto].
Qed.

Lemma text_at_None (i : Z) (frames : list frame) :
  text_at i frames = None <-> forall f, f ∈ frames -> frame_index f <> i.
Proof.
  change (text_at i frames) with (fold_left (pick_text i) frames None).
  induction frames as [|f frames IH] using rev_ind.
  - split; [intros _ f Hf; inversion Hf | reflexivity].
  - rewrite fold_left_app. cbn [fold_left]. unfold pick_text at 1.
    destruct (Z.eqb_spec (frame_index f) i) as [Hi|Hne].
    + split; [discriminate|]. intros H. exfalso. apply (H f); [|exact Hi].
      apply elem_of_app. right. now apply list_elem_of_singleton.
    + rewrite IH. split.
      * intros H g [Hg|Hg%list_elem_of_singleton]%elem_of_app; [now apply H | now subst].
      * intros H g Hg. apply H. apply elem_of_app. now left.
Qed.

End Messages.

(** ** Texts that UTF-8 encodes *)

Lemma hex_is_ascii (s : string) :
  str_forall is_hex_digit s = true -> str_forall is_ascii s = true.
Proof.
  apply str_forall_impl. intros [[] [] [] [] [] [] [] []]; try discriminate; reflexivity.
Qed.

Lemma hexlify_is_hex (bytes : string) : str_forall is_hex_digit (hexlify bytes) = true.
Proof.
  induction bytes as [|b bytes IH]; [reflexivity|].
  cbn [hexlify str_forall]. rewrite IH, !hex_digit_is_hex; [reflexivity| |].
  - apply N.mod_lt. discriminate.
  - apply N.Div0.div_lt_upper_bound. pose proof (N_ascii_bounded b). lia.
Qed.

Section Encodable.
Context `{Alpha : Alphabet}.

Lemma encodable_app (s t : string) : encodable (s +:+ t) = encodable s && encodable t.
Proof.
  induction s as [|c s IH]; [reflexivity|].
  rewrite app_cons. cbn [encodable]. now rewrite IH, andb_assoc.
Qed.

Lemma encodable_take (n : nat) (s : string) :
  encodable s = true -> encodable (str_take n s) = true.
Proof.
  revert s; induction n as [|n IH]; intros [|c s]; try reflexivity. cbn [encodable str_take].
  intros [Hc Hs]%andb_true_iff. rewrite Hc. now apply IH.
Qed.

Lemma encodable_drop (n : nat) (s : string) :
  encodable s = true -> encodable (str_drop n s) = true.
Proof.
  revert s; induction n as [|n IH]; intros [|c s]; try (intros H; exact H).
  cbn [encodable str_drop]. intros [_ Hs]%andb_true_iff. now apply IH.
Qed.

Lemma encodable_slice (s : string) (i j : Z) :
  encodable s = true -> encodable (py_slice s i j) = true.
Proof. intros Hs. unfold py_slice. now apply encodable_take, encodable_drop. Qed.

Lemma encodable_join (xs : list string) :
  (forall x, x ∈ xs -> encodable x = true) -> encodable (String.concat "" xs) = true.
Proof.
  induction xs as [|x xs IH]; intros Hxs; [reflexivity|].
  rewrite join_cons, encodable_app, (Hxs x) by now left.
  apply IH. intros y Hy. apply Hxs. now right.
Qed.

Lemma encodable_joined (xs : list string) :
  encodable (String.concat "" xs) = true -> forall x, x ∈ xs -> encodable x = true.
Proof.
  induction xs as [|x xs IH]; intros Hxs y Hy; [inversion Hy|].
  rewrite join_cons, encodable_app in Hxs. apply andb_true_iff in Hxs as [Hx Hrest].
  apply elem_of_cons in Hy as [-> | Hy]; [exact Hx | now apply IH].
Qed.

Lemma encode_utf8_ok (s : string) : encodable s = true -> encode_utf8 s = Ok s.
Proof. intros Hs. unfold encode_utf8. now rewrite Hs. Qed.

Lemma encode_utf8_raises (s : string) :
  encodable s = false -> encode_utf8 s = Raise (UnicodeEncodeError s).
Proof. intros Hs. unfold encode_utf8. now rewrite Hs. Qed.

Lemma encode_utf8_inv (s bytes : string) :
  encode_utf8 s = Ok bytes -> encodable s = true /\ bytes = s.
Proof. unfold encode_utf8. destruct (encodable s); [intros [= <-]; now split | discriminate]. Qed.

End Encodable.

Section AsciiText.
Context `{W : Lawful}.

Lemma ascii_char_encodable (c : ascii) : is_ascii c = true -> is_surrogate c = false.
Proof.
  intros Hc. destruct (is_surrogate c) eqn:E; [|reflexivity].
  apply surrogate_outside_ascii in E as (E & _). unfold is_ascii in Hc.
  apply Nat.ltb_lt in Hc. lia.
Qed.

Lemma ascii_encodable (s : string) : str_forall is_ascii s = true -> encodable s = true.
Proof.
  induction s as [|c s IH]; [reflexivity|]. cbn [str_forall encodable].
  intros [Hc Hs]%andb_true_iff. now rewrite (ascii_char_encodable _ Hc), IH.
Qed.

Lemma digits_encodable (s : string) : str_forall is_dec_digit s = true -> encodable s = true.
Proof.
  intros Hs. apply ascii_encodable. revert Hs. apply str_forall_impl.
  intros [[] [] [] [] [] [] [] []]; try discriminate; reflexivity.
Qed.

Lemma hex_encodable (s : string) : str_forall is_hex_digit s = true -> encodable s = true.
Proof. intros Hs. now apply ascii_encodable, hex_is_ascii. Qed.

Lemma py_str_encodable (n : Z) : encodable (py_str n) = true.
Proof.
  assert (forall m, 0 <= m -> encodable (py_str_nonneg m) = true) as Hnn.
  { intros m Hm. destruct (py_str_nonneg_spec m Hm) as (Hd & _ & _). now apply digits_encodable. }
  unfold py_str. destruct (Z.ltb_spec n 0); [|apply Hnn; lia].
  cbn [encodable]. rewrite ascii_char_encodable by reflexivity. apply Hnn. lia.
Qed.

Lemma msg_id_encodable (uuid : N) : encodable (str_take 8 (uuid_hex uuid)) = true.
Proof.
  apply encodable_take, hex_encodable. unfold uuid_hex. now apply hex_fixed_is_hex.
Qed.

Lemma hexlify_encodable (bytes : string) : encodable (hexlify bytes) = true.
Proof. apply hex_encodable, hexlify_is_hex. Qed.

(** A frame of the encoder is as encodable as its chunk. *)
Lemma frame_string_encodable (uuid : N) (idx total : Z) (chunk : string) :
  encodable (frame_string (str_take 8 (uuid_hex uuid)) idx total chunk) = encodable chunk.
Proof.
  unfold frame_string. rewrite !encodable_app, msg_id_encodable, !py_str_encodable.
  cbn [encodable]. now rewrite ascii_char_encodable by reflexivity.
Qed.

End AsciiText.

(* ================================================================== *)
(** * Reassembly *)
(* ================================================================== *)

Section Reassembly.

Lemma py_range_elem (n i : Z) : i ∈ py_range n <-> 0 <= i < n.
Proof.
  unfold py_range. rewrite list_elem_of_fmap. split.
  - intros (k & -> & Hk%elem_of_seq). lia.
  - intros Hi. exists (Z.to_nat i). split; [lia|]. apply elem_of_seq. lia.
Qed.

Lemma py_range_sorted (n : Z) : StronglySorted Z.lt (py_range n).
Proof.
  unfold py_range. generalize (Z.to_nat n) as m. generalize 0%nat as start.
  intros start m. revert start. induction m as [|m IH]; intros start; [constructor|].
  cbn [seq map]. constructor; [apply IH|].
  apply Forall_forall. intros x (k & -> & Hk%elem_of_seq)%list_elem_of_fmap. lia.
Qed.

Lemma filter_sorted {A} (R : A -> A -> Prop) (P : A -> Prop) `{forall x, Decision (P x)}
    (l : list A) :
  StronglySorted R l -> StronglySorted R (filter P l).
Proof.
  induction 1 as [|x l Hs IH Hx]; [constructor|].
  rewrite filter_cons. destruct (decide (P x)); [|exact IH].
  constructor; [exact IH|]. apply Forall_forall. intros y [_ Hy]%list_elem_of_filter.
  rewrite Forall_forall in Hx. now apply Hx.
Qed.

Lemma missing_indices_sorted (total : Z) (sel : list frame) :
  StronglySorted Z.lt (missing_indices total sel).
Proof. apply filter_sorted, py_range_sorted. Qed.

Lemma missing_indices_elem (total : Z) (sel : list frame) (i : Z) :
  i ∈ missing_indices total sel <->
  0 <= i < total /\ forall f, f ∈ sel -> frame_index f <> i.
Proof.
  unfold missing_indices. rewrite list_elem_of_filter, py_range_elem, text_at_None. tauto.
Qed.

Lemma frames_of_omap (k : string) (decoded : list (option string)) :
  omap parse_frame (filter (carries k) decoded) = frames_of k (omap parse_frame decoded).
Proof.
  assert (forall s l, omap parse_frame (s :: l) =
            match parse_frame s with
            | Some f => f :: omap parse_frame l
            | None => omap parse_frame l
            end) as Hcons by reflexivity.
  unfold frames_of. induction decoded as [|s decoded IH]; [reflexivity|].
  rewrite filter_cons, Hcons.
  destruct (decide (carries k s)) as [Hc|Hc]; unfold carries in Hc;
    rewrite ?Hcons; destruct (parse_frame s) as [f|] eqn:E.
  - rewrite filter_cons, decide_True by exact Hc. now rewrite IH.
  - contradiction.
  - rewrite filter_cons, decide_False by exact Hc. exact IH.
  - exact IH.
Qed.

Lemma frames_of_idem (k : string) (frames : list frame) :
  frames_of k (frames_of k frames) = frames_of k frames.
Proof.
  unfold frames_of. rewrite list_filter_filter. apply list_filter_iff. tauto.
Qed.

Lemma frames_of_first (f0 : frame) (rest : list frame) :
  frames_of (frame_id f0) (f0 :: rest) = f0 :: frames_of (frame_id f0) rest.
Proof. unfold frames_of. now rewrite filter_cons, decide_True. Qed.

(** The dictionary after the loop: its first entry belongs to the first
    frame that parsed, holds that frame's [total], and holds as [parts]
    exactly what the frames of that message id wrote, in scan order. *)
Lemma scan_fold_first (decoded : list (option string)) (f0 : frame) (rest : list frame) :
  omap parse_frame decoded = f0 :: rest ->
  exists others,
    fold_left scan_symbol decoded [] =
    (frame_id f0,
     {| msg_total := frame_total f0;
        msg_parts := fold_left insert_frame (frames_of (frame_id f0) (f0 :: rest)) ∅ |})
      :: others.
Proof.
  intros Hparse. rewrite scan_fold_parse, Hparse.
  pose proof (store_fold_get (f0 :: rest) [] (frame_id f0)) as Hget.
  pose proof (store_fold_first rest (store_frame [] f0) (frame_id f0)) as Hfirst.
  cbn [fold_left] in *.
  destruct (fold_left store_frame rest (store_frame [] f0)) as [|[k data] others].
  { specialize (Hfirst (store_frame_first [] f0)). discriminate. }
  specialize (Hfirst (store_frame_first [] f0)). cbn in Hfirst. injection Hfirst as ->.
  exists others. f_equal. f_equal.
  rewrite od_get_first, frames_of_first in Hget. cbn [fold_left od_get] in Hget.
  rewrite upd_fold in Hget. injection Hget as ->.
  rewrite frames_of_first. reflexivity.
Qed.

Lemma reassemble_first (decoded : list (option string)) (f0 : frame) (rest : list frame) :
  omap parse_frame decoded = f0 :: rest ->
  reassemble decoded = assemble (frame_total f0) (frames_of (frame_id f0) (f0 :: rest)).
Proof.
  intros Hparse. destruct (scan_fold_first _ _ _ Hparse) as [others Hfold].
  unfold reassemble, assemble, missing_indices.
  destruct decoded as [|s decoded]; [discriminate|].
  rewrite Hfold. cbn [msg_total msg_parts].
  set (sel := frames_of (frame_id f0) (f0 :: rest)).
  assert (forall i, fold_left insert_frame sel ∅ !! i = text_at i sel) as Hlook.
  { intros i. rewrite insert_fold_lookup, lookup_empty. now destruct (text_at i sel). }
  rewrite (list_filter_iff (fun i => fold_left insert_frame sel ∅ !! i = None)
                           (fun i => text_at i sel = None))
    by (intros i; now rewrite Hlook).
  destruct (filter _ (py_range (frame_total f0))); [|reflexivity].
  do 3 f_equal. apply map_ext. intros i. now rewrite Hlook.
Qed.

End Reassembly.

Section ReassemblyText.
Context `{Alpha : Alphabet}.

Lemma parse_frame_encodable (content : string) (f : frame) :
  parse_frame (Some content) = Some f -> encodable content = true ->
  encodable (frame_text f) = true.
Proof.
  unfold parse_frame.
  destruct (py_split "|" 3 content) as [|m [|i [|t [|c [|x xs]]]]] eqn:E; try discriminate.
  apply py_split_four in E as (-> & _).
  destruct (py_int i), (py_int t); try discriminate.
  intros [= <-]. cbn [frame_text]. rewrite !encodable_app, !andb_true_iff. tauto.
Qed.

(** What reassembly returns is made of the texts of scanned frames. *)
Lemma reassemble_encodable (decoded : list (option string)) (payload : string) :
  reassemble decoded = (Some payload, None) ->
  (forall data, Some data ∈ decoded -> encodable data = true) ->
  encodable payload = true.
Proof.
  intros Hres Hall.
  destruct (omap parse_frame decoded) as [|f0 rest] eqn:Hparse.
  { unfold reassemble in Hres. destruct decoded as [|s decoded]; [discriminate|].
    rewrite scan_fold_parse, Hparse in Hres. discriminate. }
  rewrite (reassemble_first _ _ _ Hparse) in Hres. unfold assemble in Hres.
  destruct (missing_indices _ _); [|discriminate]. injection Hres as <-.
  apply encodable_join. intros x (i & -> & _)%list_elem_of_fmap.
  destruct (text_at i _) as [t|] eqn:Ht; [|reflexivity].
  apply text_at_Some in Ht as (f & Hf & _ & <-). cbn.
  apply list_elem_of_filter in Hf as [_ Hf]. rewrite <- Hparse in Hf.
  apply list_elem_of_omap in Hf as ([content|] & Hs & Hp); [|discriminate].
  apply (parse_frame_encodable content); [exact Hp | now apply Hall].
Qed.

End ReassemblyText.

(* ================================================================== *)
(** * From the payload to the picture and back *)
(* ================================================================== *)

Section Transport.
Context `{L : Libs}.

Lemma filter_all {A} (P : A -> Prop) `{forall x, Decision (P x)} (l : list A) :
  (forall x, x ∈ l -> P x) -> filter P l = l.
Proof.
  induction l as [|x l IH]; intros HP; [reflexivity|].
  rewrite filter_cons, decide_True by (apply HP; now left).
  f_equal. apply IH. intros y Hy. apply HP. now right.
Qed.

Lemma py_range_lookup (n : Z) (k : nat) :
  py_range n !! k = if decide (k < Z.to_nat n)%nat then Some (Z.of_nat k) else None.
Proof.
  unfold py_range. rewrite list_lookup_fmap. destruct (decide (k < Z.to_nat n)%nat) as [Hk|Hk].
  - now rewrite lookup_seq_lt.
  - now rewrite lookup_seq_ge by lia.
Qed.

Lemma py_range_length (n : Z) : length (py_range n) = Z.to_nat n.
Proof. unfold py_range. now rewrite length_map, length_seq. Qed.

Lemma enumerate_lookup {A} (xs : list A) (k : nat) :
  enumerate xs !! k = (fun x => (Z.of_nat k, x)) <$> xs !! k.
Proof.
  unfold enumerate.
  assert (forall start, combine (map Z.of_nat (seq start (length xs))) xs !! k
                        = (fun x => (Z.of_nat (start + k), x)) <$> xs !! k) as H.
  { revert k. induction xs as [|x xs IH]; intros k start; [reflexivity|].
    cbn [length seq map combine]. destruct k as [|k]; cbn [lookup list_lookup].
    - simpl. now rewrite Nat.add_0_r.
    - rewrite IH. destruct (xs !! k); [|reflexivity]. simpl. do 3 f_equal. lia. }
  unfold py_range. rewrite Nat2Z.id. apply (H 0%nat).
Qed.

Lemma enumerate_elem {A} (xs : list A) (i : Z) (x : A) :
  (i, x) ∈ enumerate xs <-> 0 <= i /\ xs !! Z.to_nat i = Some x.
Proof.
  rewrite list_elem_of_lookup. split.
  - intros [k Hk]. rewrite enumerate_lookup in Hk.
    destruct (xs !! k) as [y|] eqn:E; [|discriminate]. injection Hk as <- <-.
    split; [lia|]. now rewrite Nat2Z.id.
  - intros [Hi Hx]. exists (Z.to_nat i). rewrite enumerate_lookup, Hx. simpl.
    now rewrite Z2Nat.id.
Qed.

Lemma enumerate_length {A} (xs : list A) : length (enumerate xs) = length xs.
Proof.
  unfold enumerate. rewrite length_combine, py_range_length, Nat2Z.id. lia.
Qed.

Lemma frame_string_length (msg_id : string) (idx total : Z) (chunk : string) :
  String.length (frame_string msg_id idx total chunk)
  = (String.length msg_id + String.length (py_str idx) + String.length (py_str total)
     + String.length chunk + 3)%nat.
Proof.
  unfold frame_string. rewrite !app_length. cbn [String.length]. lia.
Qed.

(** A frame the encoder writes is a frame the decoder reads, when its
    index and its total are within the limit of digits of [int]. *)
Lemma parse_frame_string (uuid : N) (idx total : Z) (chunk : string) :
  (count_digits (py_str idx) <= int_max_str_digits)%nat ->
  (count_digits (py_str total) <= int_max_str_digits)%nat ->
  parse_frame (Some (frame_string (str_take 8 (uuid_hex uuid)) idx total chunk)) =
  Some {| frame_id := str_take 8 (uuid_hex uuid); frame_index := idx;
          frame_total := total; frame_text := chunk |}.
Proof.
  intros Hidx Htotal. unfold parse_frame, frame_string.
  assert (py_split "|" 3 (str_take 8 (uuid_hex uuid) +:+ "|" +:+ py_str idx +:+ "|"
                            +:+ py_str total +:+ "|" +:+ chunk)
          = [str_take 8 (uuid_hex uuid); py_str idx; py_str total; chunk]) as ->.
  { apply py_split_four. auto using msg_id_no_sep, py_str_no_sep. }
  now rewrite !py_int_str.
Qed.

Lemma make_qr_image_encodable (data : string) :
  encodable data = true ->
  make_qr_image data =
  match qr_best_fit data with
  | None => Raise QRCodeError
  | Some version => Ok (QRCode data ((4 * version + 17 + 2 * 4) * 10))
  end.
Proof. intros Hd. unfold make_qr_image. now rewrite (encode_utf8_ok _ Hd). Qed.

Lemma make_qr_image_ok (data : string) (img : image) :
  make_qr_image data = Ok img ->
  encodable data = true /\
  exists version, qr_best_fit data = Some version /\
                  img = QRCode data ((4 * version + 17 + 2 * 4) * 10).
Proof.
  unfold make_qr_image, encode_utf8. destruct (encodable data); [|discriminate].
  cbn [bind]. destruct (qr_best_fit data) as [version|]; [|discriminate].
  intros [= <-]. eauto.
Qed.

Lemma render_loop (add_labels : bool) (total : Z) (msg_id : string)
    (xs : list (Z * string)) (acc : list image) :
  (forall idx chunk, (idx, chunk) ∈ xs ->
     encodable (frame_string msg_id idx total chunk) = true /\
     qr_best_fit (frame_string msg_id idx total chunk) <> None) ->
  for_each
    (fun images '(idx, chunk) =>
       do img <- make_qr_image (frame_string msg_id idx total chunk);
       Ok (images ++ [if add_labels then add_index_label img idx total else img])%list)
    xs acc
  = Ok (acc ++ map (rendered add_labels total msg_id) xs)%list.
Proof.
  revert acc. induction xs as [|[idx chunk] xs IH]; intros acc Hfit.
  - cbn [for_each map]. now rewrite app_nil_r.
  - cbn [for_each map]. destruct (Hfit idx chunk ltac:(now left)) as (Henc & Hv).
    rewrite (make_qr_image_encodable _ Henc).
    destruct (qr_best_fit (frame_string msg_id idx total chunk)) as [v|] eqn:E; [|congruence].
    cbn [bind]. rewrite IH.
    + rewrite <- app_assoc. cbn [app]. unfold rendered at 2. now rewrite E.
    + intros i c Hic. apply Hfit. now right.
Qed.

Lemma render_loop_overflow (add_labels : bool) (total : Z) (msg_id : string)
    (xs : list (Z * string)) (acc : list image) :
  (forall idx chunk, (idx, chunk) ∈ xs ->
     encodable (frame_string msg_id idx total chunk) = true) ->
  (exists idx chunk, (idx, chunk) ∈ xs /\
                     qr_best_fit (frame_string msg_id idx total chunk) = None) ->
  for_each
    (fun images '(idx, chunk) =>
       do img <- make_qr_image (frame_string msg_id idx total chunk);
       Ok (images ++ [if add_labels then add_index_label img idx total else img])%list)
    xs acc
  = Raise QRCodeError.
Proof.
  revert acc. induction xs as [|[idx chunk] xs IH]; intros acc Henc (i & c & Hic & Hnone).
  - inversion Hic.
  - cbn [for_each]. rewrite (make_qr_image_encodable _ (Henc idx chunk ltac:(now left))).
    destruct (qr_best_fit (frame_string msg_id idx total chunk)) as [v|] eqn:E;
      [|reflexivity].
    cbn [bind]. apply IH; [intros i' c' Hic'; apply Henc; now right|].
    exists i, c. split; [|exact Hnone].
    apply elem_of_cons in Hic as [[= -> ->]|Hic]; [congruence | exact Hic].
Qed.

Lemma tile_images_some (images : list image) :
  images <> [] -> exists img, tile_images images = Ok img.
Proof. destruct images; [congruence|]. intros _. eexists. reflexivity. Qed.

End Transport.

Section Picture.
Context `{W : Lawful}.

Lemma chunks_encodable (payload : string) (chunk_size : Z) (chunks : list string)
    (idx : Z) (chunk : string) :
  encodable payload = true -> chunk_text payload chunk_size = Ok chunks ->
  (idx, chunk) ∈ enumerate chunks -> encodable chunk = true.
Proof.
  intros Hp Hc (_ & Hk)%enumerate_elem.
  destruct (chunk_text_lookup _ _ _ _ _ Hc Hk) as (-> & _). now apply encodable_slice.
Qed.

Lemma frames_encodable (uuid : N) (payload : string) (chunk_size : Z) (data : string) :
  encodable payload = true -> data ∈ frames_drawn uuid payload chunk_size ->
  encodable data = true.
Proof.
  intros Hp Hd. unfold frames_drawn in Hd.
  destruct (chunk_text payload chunk_size) as [chunks|e] eqn:Hc; [|inversion Hd].
  apply list_elem_of_fmap in Hd as ([idx chunk] & -> & Hic).
  rewrite frame_string_encodable. exact (chunks_encodable _ _ _ _ _ Hp Hc Hic).
Qed.

Lemma build_succeeds (uuid : N) (payload : string) (chunk_size : Z) :
  0 < chunk_size -> payload <> "" -> encodable payload = true ->
  (forall data, data ∈ frames_drawn uuid payload chunk_size -> qr_best_fit data <> None) ->
  exists img, _build_big_qr_image payload chunk_size true uuid = Ok img.
Proof.
  intros Hsize Hne Hp Hfit. unfold _build_big_qr_image, frames_drawn in *.
  destruct (chunk_text payload chunk_size) as [chunks|e] eqn:Hchunks.
  2:{ rewrite chunk_text_slices in Hchunks by assumption. discriminate. }
  change (bind (Ok chunks) ?k) with (k chunks). cbv beta zeta.
  pose proof (render_loop true (Z.of_nat (length chunks)) (str_take 8 (uuid_hex uuid))
                (enumerate chunks) []) as Hloop.
  cbv beta iota in Hloop. rewrite Hloop.
  - cbn [bind app]. apply tile_images_some.
    pose proof (chunk_text_nonempty _ _ _ Hne Hchunks) as Hc.
    intros Hnil%(f_equal length). rewrite length_map, enumerate_length in Hnil.
    destruct chunks; [congruence | discriminate].
  - intros idx chunk Hic. split.
    + rewrite frame_string_encodable. exact (chunks_encodable _ _ _ _ _ Hp Hchunks Hic).
    + apply Hfit. apply list_elem_of_fmap. exists (idx, chunk). split; [reflexivity | exact Hic].
Qed.

(** One frame too long for a symbol and no picture is built. *)
Lemma build_overflows (uuid : N) (payload : string) (chunk_size : Z) (add_labels : bool) :
  encodable payload = true ->
  (exists data, data ∈ frames_drawn uuid payload chunk_size /\ qr_best_fit data = None) ->
  _build_big_qr_image payload chunk_size add_labels uuid = Raise QRCodeError.
Proof.
  intros Hp (data & Hdata & Hnone). unfold _build_big_qr_image, frames_drawn in *.
  destruct (chunk_text payload chunk_size) as [chunks|e] eqn:Hchunks; [|inversion Hdata].
  change (bind (Ok chunks) ?k) with (k chunks). cbv beta zeta.
  rewrite render_loop_overflow; [reflexivity | |].
  - intros idx chunk Hic. rewrite frame_string_encodable.
    exact (chunks_encodable _ _ _ _ _ Hp Hchunks Hic).
  - apply list_elem_of_fmap in Hdata as ([idx chunk] & -> & Hic). eauto.
Qed.

(** A frame that fits a symbol is short: its index and its total are
    within the limit of digits of [int]. *)
Lemma fitting_frame_digits (msg_id : string) (idx total : Z) (chunk : string) :
  qr_best_fit (frame_string msg_id idx total chunk) <> None ->
  (count_digits (py_str idx) <= int_max_str_digits)%nat /\
  (count_digits (py_str total) <= int_max_str_digits)%nat.
Proof.
  intros Hfit. destruct (qr_best_fit _) as [version|] eqn:Hv; [|congruence].
  apply qr_capacity in Hv. rewrite frame_string_length in Hv.
  pose proof (count_digits_le (py_str idx)). pose proof (count_digits_le (py_str total)).
  unfold int_max_str_digits. lia.
Qed.

(** Reassembly of the scanned frames gives the payload back. *)
Lemma reassemble_frames_drawn (uuid : N) (payload : string) (chunk_size : Z)
    (decoded : list (option string)) :
  0 < chunk_size -> payload <> "" ->
  (forall data, data ∈ frames_drawn uuid payload chunk_size -> qr_best_fit data <> None) ->
  (forall symbol, symbol ∈ decoded <->
     exists data, symbol = Some data /\ data ∈ frames_drawn uuid payload chunk_size) ->
  reassemble decoded = (Some payload, None).
Proof.
  intros Hsize Hne Hfit Hscan. unfold frames_drawn in Hscan, Hfit.
  destruct (chunk_text payload chunk_size) as [chunks|e] eqn:Hchunks.
  2:{ rewrite chunk_text_slices in Hchunks by assumption. discriminate. }
  set (msg_id := str_take 8 (uuid_hex uuid)) in *.
  set (total := Z.of_nat (length chunks)) in *.
  assert (forall idx chunk, (idx, chunk) ∈ enumerate chunks ->
            parse_frame (Some (frame_string msg_id idx total chunk))
            = Some {| frame_id := msg_id; frame_index := idx;
                      frame_total := total; frame_text := chunk |}) as Hparsed.
  { intros idx chunk Hic.
    destruct (fitting_frame_digits msg_id idx total chunk) as (Hi & Ht).
    - apply Hfit. apply list_elem_of_fmap. exists (idx, chunk). split; [reflexivity | exact Hic].
    - now apply parse_frame_string. }
  (* every scanned symbol parses to a frame of the message *)
  assert (forall f, f ∈ omap parse_frame decoded ->
            frame_id f = msg_id /\ frame_total f = total /\
            0 <= frame_index f /\ chunks !! Z.to_nat (frame_index f) = Some (frame_text f))
    as Hframes.
  { intros f (s & Hs & Hf)%list_elem_of_omap.
    apply Hscan in Hs as (data & -> & ([idx chunk] & -> & Hic)%list_elem_of_fmap).
    rewrite (Hparsed _ _ Hic) in Hf. injection Hf as <-.
    cbn. apply enumerate_elem in Hic. tauto. }
  (* every chunk was scanned *)
  assert (forall k c, chunks !! k = Some c ->
            exists f, f ∈ omap parse_frame decoded /\ frame_index f = Z.of_nat k) as Hall.
  { intros k c Hk.
    assert ((Z.of_nat k, c) ∈ enumerate chunks) as Hic.
    { apply enumerate_elem. rewrite Nat2Z.id. split; [lia | exact Hk]. }
    exists {| frame_id := msg_id; frame_index := Z.of_nat k;
              frame_total := total; frame_text := c |}.
    split; [|reflexivity]. apply list_elem_of_omap.
    exists (Some (frame_string msg_id (Z.of_nat k) total c)).
    split; [|now apply Hparsed].
    apply Hscan. eexists. split; [reflexivity|].
    apply list_elem_of_fmap. exists (Z.of_nat k, c). split; [reflexivity | exact Hic]. }
  pose proof (chunk_text_nonempty _ _ _ Hne Hchunks) as Hc.
  destruct (omap parse_frame decoded) as [|f0 rest] eqn:Hparse.
  { destruct chunks as [|c chunks]; [congruence|].
    destruct (Hall 0%nat c eq_refl) as (f & Hf & _). inversion Hf. }
  rewrite (reassemble_first _ _ _ Hparse).
  destruct (Hframes f0 ltac:(now left)) as (Hid0 & Htot0 & _).
  set (fr := f0 :: rest) in *.
  assert (frames_of (frame_id f0) fr = fr) as ->.
  { unfold frames_of. apply filter_all. intros f Hf.
    destruct (Hframes f Hf) as (-> & _). now symmetry. }
  rewrite Htot0. unfold assemble.
  assert (missing_indices total fr = []) as ->.
  { destruct (missing_indices total fr) as [|i missing] eqn:Hm; [reflexivity|].
    assert (i ∈ missing_indices total fr) as Hi by (rewrite Hm; now left).
    apply missing_indices_elem in Hi as [Hi Hno].
    destruct (chunks !! Z.to_nat i) as [c|] eqn:Hc'.
    - destruct (Hall _ _ Hc') as (f & Hf & Hfi). exfalso. apply (Hno f Hf). lia.
    - apply lookup_ge_None in Hc'. unfold total in Hi. lia. }
  do 2 f_equal. rewrite <- (chunk_text_join _ _ _ Hchunks). f_equal.
  apply list_eq. intros k. rewrite list_lookup_fmap, py_range_lookup.
  unfold total. rewrite Nat2Z.id.
  destruct (decide (k < length chunks)%nat) as [Hk|Hk].
  - destruct (lookup_lt_is_Some_2 chunks k Hk) as [c Hc'].
    rewrite Hc'. cbn -[text_at]. f_equal.
    destruct (text_at (Z.of_nat k) fr) as [t|] eqn:Ht.
    + apply text_at_Some in Ht as (f & Hf & Hfi & <-).
      destruct (Hframes f Hf) as (_ & _ & _ & Hlook).
      rewrite Hfi, Nat2Z.id, Hc' in Hlook. cbn. congruence.
    + exfalso. rewrite text_at_None in Ht.
      destruct (Hall _ _ Hc') as (f & Hf & Hfi). now apply (Ht f Hf).
  - cbn. symmetry. apply lookup_ge_None. lia.
Qed.

(** What was encoded is what the scan reassembles. *)
Lemma picture_round_trip (uuid : N) (payload : string) (chunk_size : Z) :
  0 < chunk_size -> encodable payload = true -> carried_intact uuid payload chunk_size ->
  exists img,
    _build_big_qr_image payload chunk_size true uuid = Ok img /\
    image_open (png_save img) = inr img /\
    _decode_big_image img = (Some payload, None).
Proof.
  intros Hsize Hp [Hne Hfit Hfile Hscan].
  destruct (build_succeeds uuid payload chunk_size Hsize Hne Hp Hfit) as [img Himg].
  exists img. split; [exact Himg|]. split; [now apply Hfile|].
  unfold _decode_big_image. eapply reassemble_frames_drawn; eauto.
Qed.

End Picture.

(* ================================================================== *)
(** * The claims *)
(* ================================================================== *)

Section Claims.
Context `{W : Lawful}.

(** ** Chunker *)

Lemma build_single (payload : string) (chunk_size : Z) (add_labels : bool) (uuid : N) :
  payload <> "" -> py_len payload <= chunk_size ->
  _build_big_qr_image payload chunk_size add_labels uuid =
  (do img <- make_qr_image (str_take 8 (uuid_hex uuid) +:+ "|0|1|" +:+ payload);
   tile_images [if add_labels then add_index_label img 0 1 else img]).
Proof.
  intros Hne Hle. unfold _build_big_qr_image.
  rewrite chunk_text_single by assumption.
  change (bind (Ok [payload]) ?k) with (k [payload]). cbv beta zeta.
  change (enumerate [payload]) with [(0, payload)].
  change (Z.of_nat (length [payload])) with 1.
  cbn [for_each].
  change (frame_string (str_take 8 (uuid_hex uuid)) 0 1 payload)
    with (str_take 8 (uuid_hex uuid) +:+ "|0|1|" +:+ payload).
  destruct (make_qr_image _); reflexivity.
Qed.

(** C9 (amended).  For every payload and every positive chunk size the
    chunker returns, in order, the contiguous slices
    [payload[k*size : k*size+size]]: joined they give the payload back,
    each holds between 1 and [chunk_size] characters, every slice but the
    last holds exactly [chunk_size], and their number [n] is the ceiling
    of [len(payload) / chunk_size], that is [(n-1)*size < len <= n*size].
    When the payload is not empty and [chunk_size >= len(payload)] there
    is exactly one fragment, the payload itself, and the one frame that
    is rendered reads [msg_id|0|1|payload]. *)
Theorem chunk_text_slices_payload (payload : string) (chunk_size : Z) :
  0 < chunk_size ->
  exists chunks,
    chunk_text payload chunk_size = Ok chunks /\
    String.concat "" chunks = payload /\
    Z.of_nat (length chunks) = chunk_count (py_len payload) chunk_size /\
    (Z.of_nat (length chunks) - 1) * chunk_size < py_len payload
      <= Z.of_nat (length chunks) * chunk_size /\
    (forall (k : nat) (c : string), chunks !! k = Some c ->
       c = py_slice payload (Z.of_nat k * chunk_size) (Z.of_nat k * chunk_size + chunk_size) /\
       0 < py_len c <= chunk_size /\
       ((S k < length chunks)%nat -> py_len c = chunk_size)) /\
    (payload <> "" -> py_len payload <= chunk_size ->
       chunks = [payload] /\
       forall add_labels uuid,
         _build_big_qr_image payload chunk_size add_labels uuid =
         (do img <- make_qr_image (str_take 8 (uuid_hex uuid) +:+ "|0|1|" +:+ payload);
          tile_images [if add_labels then add_index_label img 0 1 else img])).
Proof.
  intros Hsize.
  exists (slices (Z.to_nat chunk_size) (Z.to_nat (chunk_count (py_len payload) chunk_size)) payload).
  pose proof (chunk_text_slices payload chunk_size Hsize) as Hc.
  pose proof (chunk_text_length _ _ _ Hc) as Hn.
  split; [exact Hc|]. split; [exact (chunk_text_join _ _ _ Hc)|]. split; [exact Hn|].
  split.
  { rewrite Hn. apply chunk_count_bounds; [unfold py_len; lia | exact Hsize]. }
  split; [intros k c Hk; exact (chunk_text_lookup _ _ _ _ _ Hc Hk)|].
  intros Hne Hle. split.
  - pose proof (chunk_text_single payload chunk_size Hne Hle) as H1. congruence.
  - intros add_labels uuid. now apply build_single.
Qed.

(** ** Encryption wrapper *)

(** C10.  With the empty string as passphrase, encryption returns the
    text unchanged and decryption returns the token unchanged with no
    error, exactly as with no passphrase at all; so do the encoder and the
    decoder built on them. *)
Theorem empty_passphrase_is_no_passphrase
    (rnd : entropy) (text token : string) (chunk_size : Z) (file_stream : file) :
  maybe_encrypt rnd text (Some "") = Ok text /\
  maybe_encrypt rnd text None = Ok text /\
  maybe_decrypt token (Some "") = Ok (Some token, None) /\
  maybe_decrypt token None = Ok (Some token, None) /\
  encode_text_to_big_qr_file rnd text chunk_size (Some "")
    = encode_text_to_big_qr_file rnd text chunk_size None /\
  decode_big_qr_to_text file_stream (Some "") = decode_big_qr_to_text file_stream None.
Proof. repeat split. Qed.

(** ** Encoder input *)

Lemma for_each_raises {A S} (body : S -> A -> result S) (xs : list A) (acc : S) (e : exn) :
  for_each body xs acc = Raise e ->
  exists acc' x, x ∈ xs /\ body acc' x = Raise e.
Proof.
  revert acc. induction xs as [|x xs IH]; intros acc H; [discriminate|].
  cbn [for_each] in H. destruct (body acc x) as [acc'|e'] eqn:E.
  - cbn [bind] in H. destruct (IH _ H) as (a & y & Hy & Hb).
    exists a, y. split; [now right | exact Hb].
  - cbn [bind] in H. injection H as ->. exists acc, x. split; [now left | exact E].
Qed.

Lemma for_each_length {A B} (body : list B -> A -> result (list B))
    (xs : list A) (acc r : list B) :
  (forall acc x acc', body acc x = Ok acc' -> length acc' = S (length acc)) ->
  for_each body xs acc = Ok r -> length r = (length acc + length xs)%nat.
Proof.
  intros Hbody. revert acc. induction xs as [|x xs IH]; intros acc H.
  - injection H as <-. cbn [length]. lia.
  - cbn [for_each] in H. destruct (body acc x) as [acc'|e] eqn:E; [|discriminate].
    cbn [bind] in H. apply IH in H. rewrite H, (Hbody _ _ _ E). cbn [length]. lia.
Qed.

(** What the encoder does before it builds the picture. *)
Lemma wrap_encodable (text : string) :
  encodable text = true -> wrap_payload_with_checksum text = Ok (envelope_text text).
Proof. intros Ht. unfold wrap_payload_with_checksum. now rewrite (encode_utf8_ok _ Ht). Qed.

Lemma wrap_raises (text : string) :
  encodable text = false -> wrap_payload_with_checksum text = Raise (UnicodeEncodeError text).
Proof. intros Ht. unfold wrap_payload_with_checksum. now rewrite (encode_utf8_raises _ Ht). Qed.

Lemma envelope_text_encodable (text : string) :
  encodable text = true -> encodable (envelope_text text) = true.
Proof.
  intros Ht. apply json_dumps_encodable; [apply hexlify_encodable | exact Ht].
Qed.

Lemma get_fernet_encodable (p : string) :
  encodable p = true -> _get_fernet p = Ok (fernet_key p).
Proof. intros Hp. unfold _get_fernet. now rewrite (encode_utf8_ok _ Hp). Qed.

Lemma maybe_encrypt_payload (rnd : entropy) (text : string) (passphrase : option string) :
  encodable text = true -> passphrase_encodable passphrase = true ->
  maybe_encrypt rnd (envelope_text text) passphrase = Ok (payload_of rnd text passphrase).
Proof.
  intros Ht Hp. unfold maybe_encrypt, payload_of, py_truthy.
  destruct passphrase as [p|]; [|reflexivity].
  destruct (String.eqb p ""); cbn [negb]; [reflexivity|].
  rewrite (get_fernet_encodable _ Hp). cbn [bind].
  now rewrite (encode_utf8_ok _ (envelope_text_encodable _ Ht)).
Qed.

Lemma maybe_encrypt_raises (rnd : entropy) (text p : string) :
  encodable p = false -> maybe_encrypt rnd text (Some p) = Raise (UnicodeEncodeError p).
Proof.
  intros Hp. unfold maybe_encrypt, py_truthy.
  destruct (String.eqb_spec p "") as [->|_]; [discriminate|]. cbn [negb].
  unfold _get_fernet. now rewrite (encode_utf8_raises _ Hp).
Qed.

Lemma payload_encodable (rnd : entropy) (text : string) (passphrase : option string) :
  encodable text = true -> encodable (payload_of rnd text passphrase) = true.
Proof.
  intros Ht. pose proof (envelope_text_encodable _ Ht) as He. unfold payload_of.
  destruct passphrase as [p|]; [|exact He].
  destruct (String.eqb p ""); [exact He|]. now apply fernet_token_encodable.
Qed.

Lemma encode_file_payload (rnd : entropy) (text : string) (chunk_size : Z)
    (passphrase : option string) :
  encodable text = true -> passphrase_encodable passphrase = true ->
  encode_text_to_big_qr_file rnd text chunk_size passphrase =
  (do big_img <- _build_big_qr_image (payload_of rnd text passphrase) chunk_size true (uuid4 rnd);
   Ok (png_save big_img)).
Proof.
  intros Ht Hp. unfold encode_text_to_big_qr_file.
  rewrite (wrap_encodable _ Ht). cbn [bind].
  now rewrite (maybe_encrypt_payload _ _ _ Ht Hp).
Qed.

Lemma encode_file_raises_text (rnd : entropy) (text : string) (chunk_size : Z)
    (passphrase : option string) :
  encodable text = false ->
  encode_text_to_big_qr_file rnd text chunk_size passphrase = Raise (UnicodeEncodeError text).
Proof.
  intros Ht. unfold encode_text_to_big_qr_file. now rewrite (wrap_raises _ Ht).
Qed.

Lemma encode_file_raises_passphrase (rnd : entropy) (text p : string) (chunk_size : Z) :
  encodable text = true -> encodable p = false ->
  encode_text_to_big_qr_file rnd text chunk_size (Some p) = Raise (UnicodeEncodeError p).
Proof.
  intros Ht Hp. unfold encode_text_to_big_qr_file.
  rewrite (wrap_encodable _ Ht). cbn [bind]. now rewrite (maybe_encrypt_raises _ _ _ Hp).
Qed.

Lemma build_raises (payload : string) (chunk_size : Z) (add_labels : bool) (uuid : N) (e : exn) :
  0 < chunk_size -> encodable payload = true ->
  _build_big_qr_image payload chunk_size add_labels uuid = Raise e ->
  e = QRCodeError \/ (e = ValueError "No images to tile" /\ payload = "").
Proof.
  intros Hsize Hp Hb. unfold _build_big_qr_image in Hb.
  destruct (chunk_text payload chunk_size) as [chunks|e1] eqn:Hc.
  2:{ rewrite chunk_text_slices in Hc by assumption. discriminate. }
  change (bind (Ok chunks) ?k) with (k chunks) in Hb. cbv beta zeta in Hb.
  destruct (for_each _ (enumerate chunks) []) as [images|e2] eqn:Hloop.
  + cbn [bind] in Hb. destruct images as [|i images]; [|discriminate].
    injection Hb as <-. right. split; [reflexivity|].
    destruct (string_dec payload "") as [->|Hne]; [reflexivity|]. exfalso.
    pose proof (chunk_text_nonempty _ _ _ Hne Hc) as Hchunks.
    apply for_each_length in Hloop.
    * rewrite enumerate_length in Hloop. destruct chunks; [congruence | discriminate].
    * intros acc [idx chunk] acc'. destruct (make_qr_image _); [|discriminate].
      cbn [bind]. intros [= <-]. rewrite length_app. cbn [length]. lia.
  + cbn [bind] in Hb. injection Hb as ->.
    apply for_each_raises in Hloop as (acc & [idx chunk] & Hic & Hbody).
    rewrite make_qr_image_encodable in Hbody.
    * destruct (qr_best_fit _); [discriminate|]. injection Hbody as <-. now left.
    * rewrite frame_string_encodable. exact (chunks_encodable _ _ _ _ _ Hp Hc Hic).
Qed.

(** C4 (amended).  With a chunk size of zero or less encoding always
    fails and returns no file: with [ValueError("chunk_size must be
    positive")] when UTF-8 encodes the text and the passphrase, and
    otherwise with the [UnicodeEncodeError] of the text, or else of the
    passphrase, which is raised before the chunk size is looked at,
    whatever the chunk size is.  The text is not examined otherwise: with
    a positive chunk size, a text and a passphrase that encode, the only
    failures are a frame that fits no QR symbol and a payload that is the
    empty string, so an empty text is wrapped and encoded like any
    other. *)
Theorem encode_rejects_bad_chunk_size
    (rnd : entropy) (text : string) (chunk_size : Z) (passphrase : option string) :
  (chunk_size <= 0 ->
   exists e, encode_text_to_big_qr_file rnd text chunk_size passphrase = Raise e) /\
  (encodable text = false ->
   encode_text_to_big_qr_file rnd text chunk_size passphrase = Raise (UnicodeEncodeError text)) /\
  (encodable text = true -> forall p, passphrase = Some p -> encodable p = false ->
   encode_text_to_big_qr_file rnd text chunk_size passphrase = Raise (UnicodeEncodeError p)) /\
  (encodable text = true -> passphrase_encodable passphrase = true ->
   (chunk_size <= 0 ->
      encode_text_to_big_qr_file rnd text chunk_size passphrase
      = Raise (ValueError "chunk_size must be positive")) /\
   (0 < chunk_size -> forall e,
      encode_text_to_big_qr_file rnd text chunk_size passphrase = Raise e ->
      e = QRCodeError \/
      (e = ValueError "No images to tile" /\ payload_of rnd text passphrase = ""))).
Proof.
  assert (encodable text = true -> passphrase_encodable passphrase = true ->
          chunk_size <= 0 ->
          encode_text_to_big_qr_file rnd text chunk_size passphrase
          = Raise (ValueError "chunk_size must be positive")) as Hsmall.
  { intros Ht Hp Hsize. rewrite (encode_file_payload _ _ _ _ Ht Hp).
    unfold _build_big_qr_image. now rewrite chunk_text_nonpositive. }
  split; [|split; [|split; [|split]]].
  - intros Hsize. destruct (encodable text) eqn:Ht.
    + destruct (passphrase_encodable passphrase) eqn:Hp; [eauto|].
      destruct passphrase as [p|]; [|discriminate]. rewrite encode_file_raises_passphrase; eauto.
    + rewrite encode_file_raises_text; eauto.
  - apply encode_file_raises_text.
  - intros Ht p -> Hp. now apply encode_file_raises_passphrase.
  - now apply Hsmall.
  - intros Hsize e. rewrite (encode_file_payload _ _ _ _ H H0).
    destruct (_build_big_qr_image _ chunk_size true (uuid4 rnd)) as [img|e'] eqn:Hb;
      [discriminate|].
    cbn [bind]. intros [= ->]. eapply build_raises; eauto using payload_encodable.
Qed.

(** ** Checksum envelope *)


(** C7.  A payload that is not JSON, or is JSON but not an object, or is
    an object in which [hash] and [text] are not both strings, comes back
    unchanged, with no hash and no error. *)
Theorem unwrap_legacy_plain_text (payload : string) :
  json_loads payload = None \/
  (exists v, json_loads payload = Some v /\ forall obj, v <> JObject obj) \/
  (exists obj, json_loads payload = Some (JObject obj) /\
     ~ exists sha_stored text,
         json_get "hash" obj = Some (JString sha_stored) /\
         json_get "text" obj = Some (JString text)) ->
  unwrap_and_verify_payload payload = Ok (Some payload, None, None).
Proof.
  unfold unwrap_and_verify_payload.
  intros [-> | [(v & -> & Hv) | (obj & -> & Hobj)]]; [reflexivity | |].
  - destruct v; try reflexivity. now destruct (Hv members).
  - destruct (json_get "hash" obj) as [[| | |h| |]|]; try reflexivity.
    destruct (json_get "text" obj) as [[| | |t| |]|]; try reflexivity.
    exfalso. apply Hobj. eauto.
Qed.

(** ** Scan errors *)

(** C8.  An image in which the scanner finds no symbol at all is refused
    with "No QR codes found."; an image with symbols of which none parses
    as a frame is refused with "Invalid QR format.".  Both come out of the
    decoder with no text and no hash. *)
Theorem scan_errors_distinct
    (file_stream : file) (passphrase : option string) (img : image) :
  image_open file_stream = inr img ->
  (decode_qr img = [] ->
     _decode_big_image img = (None, Some "No QR codes found.") /\
     decode_big_qr_to_text file_stream passphrase
     = Ok (None, None, Some "No QR codes found.")) /\
  (decode_qr img <> [] ->
     (forall symbol, symbol ∈ decode_qr img -> parse_frame symbol = None) ->
     _decode_big_image img = (None, Some "Invalid QR format.") /\
     decode_big_qr_to_text file_stream passphrase
     = Ok (None, None, Some "Invalid QR format.")).
Proof.
  intros Hopen. unfold decode_big_qr_to_text. rewrite Hopen. split.
  - intros Hnone. unfold _decode_big_image. rewrite Hnone. split; reflexivity.
  - intros Hsome Hbad.
    assert (_decode_big_image img = (None, Some "Invalid QR format.")) as Hres.
    { unfold _decode_big_image, reassemble.
      destruct (decode_qr img) as [|s decoded] eqn:E; [congruence|].
      rewrite scan_fold_parse.
      assert (omap parse_frame (s :: decoded) = []) as ->; [|reflexivity].
      clear -Hbad. induction (s :: decoded) as [|x xs IH]; [reflexivity|].
      change (omap parse_frame (x :: xs))
        with (match parse_frame x with
              | Some f => f :: omap parse_frame xs
              | None => omap parse_frame xs
              end).
      rewrite (Hbad x) by now left. apply IH. intros y Hy. apply Hbad. now right. }
    rewrite Hres. split; reflexivity.
Qed.

(** ** Reassembly *)

(** C2.  When at least one scanned string parses as a frame, the message
    id of the first such frame is selected: it is the first key of the
    decoder's dictionary, and dropping every scanned string that is not a
    frame of that id does not change the answer.  With [total] the total
    of that first frame, the answer is the error naming the indices of
    [0 .. total-1] that no frame of the message carries, in ascending
    order, when there is such an index; otherwise it is the texts of the
    message's frames joined in ascending index order (for an index
    scanned more than once, the text scanned last). *)
Theorem reassemble_first_message
    (decoded : list (option string)) (f0 : frame) (rest : list frame) :
  omap parse_frame decoded = f0 :: rest ->
  let sel := frames_of (frame_id f0) (f0 :: rest) in
  let missing := missing_indices (frame_total f0) sel in
  (exists data others, fold_left scan_symbol decoded [] = (frame_id f0, data) :: others) /\
  reassemble (filter (carries (frame_id f0)) decoded) = reassemble decoded /\
  (missing <> [] ->
     reassemble decoded = (None, Some ("Missing QR chunks: " +:+ py_repr_list missing))) /\
  (missing = [] ->
     reassemble decoded =
     (Some (String.concat ""
              (map (fun i => default "" (text_at i sel)) (py_range (frame_total f0)))),
      None)) /\
  StronglySorted Z.lt missing /\
  (forall i, i ∈ missing <->
             0 <= i < frame_total f0 /\ forall f, f ∈ sel -> frame_index f <> i) /\
  (forall i, 0 <= i < frame_total f0 -> i ∉ missing ->
             exists f, f ∈ sel /\ frame_index f = i /\ text_at i sel = Some (frame_text f)).
Proof.
  intros Hparse sel missing.
  split. { destruct (scan_fold_first _ _ _ Hparse) as [others ->]. eauto. }
  split.
  { rewrite (reassemble_first _ _ _ Hparse).
    erewrite reassemble_first
      by (rewrite frames_of_omap, Hparse, frames_of_first; reflexivity).
    now rewrite <- frames_of_first, frames_of_idem. }
  rewrite (reassemble_first _ _ _ Hparse). unfold assemble. fold sel. fold missing.
  split; [destruct missing; [congruence | reflexivity]|].
  split; [now intros ->|].
  split; [apply missing_indices_sorted|].
  split; [apply missing_indices_elem|].
  intros i Hi Hnot. destruct (text_at i sel) as [t|] eqn:Ht.
  - apply text_at_Some in Ht as (f & Hf & Hfi & <-). eauto.
  - exfalso. apply Hnot. apply missing_indices_elem. split; [exact Hi|].
    now apply text_at_None.
Qed.

(** ** Frame format *)

Lemma omap_skip (before after : list (option string)) (bad : option string) :
  parse_frame bad = None ->
  omap parse_frame (before ++ bad :: after) = omap parse_frame (before ++ after).
Proof.
  intros Hbad. rewrite !omap_app.
  change (omap parse_frame (bad :: after))
    with (match parse_frame bad with
          | Some f => f :: omap parse_frame after
          | None => omap parse_frame after
          end).
  now rewrite Hbad.
Qed.

(** C3 (amended).  A scanned string is cut at the first three separators
    only, so the fields joined by the separator are the string again and
    the fourth field is everything after the third separator, separators
    included.  The string is a frame exactly when that gives four fields
    of which the second and the third read as integers for Python's
    [int]: every integer of at most 4300 digits qualifies as [str]
    writes it, a negative one too, and a field of more than 4300 digits
    never does.  A frame is stored under its message id with its text as
    it stands; any other string leaves the dictionary as it was, and the
    decoding of the other symbols goes on as if it had not been
    scanned. *)
Theorem frame_parsing
    (messages : list (string * message)) (content : string) :
  ((length (py_split "|" 3 content) <= 4)%nat /\
   String.concat "|" (py_split "|" 3 content) = content) /\
  (forall m i t c,
     py_split "|" 3 content = [m; i; t; c] <->
     content = m +:+ "|" +:+ i +:+ "|" +:+ t +:+ "|" +:+ c /\
     no_sep m = true /\ no_sep i = true /\ no_sep t = true) /\
  (forall n : Z, - 10 ^ 4300 < n < 10 ^ 4300 -> py_int (py_str n) = Some n) /\
  (forall field : string, (4300 < count_digits field)%nat -> py_int field = None) /\
  (forall m i t c idx total,
     py_split "|" 3 content = [m; i; t; c] ->
     py_int i = Some idx -> py_int t = Some total ->
     scan_symbol messages (Some content)
     = store_frame messages {| frame_id := m; frame_index := idx;
                               frame_total := total; frame_text := c |}) /\
  ((length (py_split "|" 3 content) <> 4)%nat \/
   (exists m i t c, py_split "|" 3 content = [m; i; t; c] /\
                    (py_int i = None \/ py_int t = None)) ->
   scan_symbol messages (Some content) = messages /\
   forall before after,
     (before ++ after)%list <> [] ->
     reassemble (before ++ Some content :: after) = reassemble (before ++ after)).
Proof.
  split; [split; [apply py_split_length | apply py_split_join]|].
  split; [intros; apply py_split_four|].
  split.
  { intros n Hn. apply py_int_str. apply (py_str_digits n 4300); [lia | exact Hn]. }
  split; [apply py_int_limit|].
  split.
  { intros m i t c idx total Hsplit Hi Ht. rewrite scan_symbol_parse.
    unfold parse_frame. now rewrite Hsplit, Hi, Ht. }
  intros Hbad.
  assert (parse_frame (Some content) = None) as Hnone.
  { unfold parse_frame. destruct Hbad as [Hlen | (m & i & t & c & -> & [-> | Ht])].
    - destruct (py_split "|" 3 content) as [|m [|i [|t [|c [|x xs]]]]]; try reflexivity.
      now contradict Hlen.
    - reflexivity.
    - rewrite Ht. now destruct (py_int i). }
  split; [now rewrite scan_symbol_parse, Hnone|].
  intros before after Hne. unfold reassemble.
  destruct (before ++ Some content :: after)%list as [|s1 l1] eqn:E1.
  { now destruct before. }
  destruct (before ++ after)%list as [|s2 l2] eqn:E2; [congruence|].
  rewrite !scan_fold_parse, <- E1, <- E2. now rewrite omap_skip.
Qed.

(** ** The whole way *)

Lemma decode_after_scan (file_stream : file) (passphrase : option string)
    (img : image) (payload : string) :
  image_open file_stream = inr img ->
  _decode_big_image img = (Some payload, None) ->
  decode_big_qr_to_text file_stream passphrase =
  (do decrypted <- maybe_decrypt payload passphrase;
   let '(wrapped, dec_err) := decrypted in
   if py_truthy dec_err then Ok (None, None, dec_err)
   else
     do verified <- unwrap_and_verify_payload (default "" wrapped);
     let '(text, sha_hex, verify_err) := verified in
     if py_truthy verify_err then Ok (None, sha_hex, verify_err) else Ok (text, sha_hex, None)).
Proof.
  intros Hopen Hscan. unfold decode_big_qr_to_text. now rewrite Hopen, Hscan.
Qed.

Lemma unwrap_envelope (text : string) :
  encodable text = true ->
  json_loads (envelope_text text) = Some (envelope text) ->
  unwrap_and_verify_payload (envelope_text text)
  = Ok (Some text, Some (sha256_hexdigest text), None).
Proof.
  intros Ht Hjson. unfold unwrap_and_verify_payload. rewrite Hjson. unfold envelope.
  change (json_get "hash" _) with (Some (JString (sha256_hexdigest text))).
  change (json_get "text" _) with (Some (JString text)).
  cbv beta iota. rewrite (encode_utf8_ok _ Ht). cbn [bind]. now rewrite String.eqb_refl.
Qed.

Lemma truthy_nonempty (p : string) : p <> "" -> py_truthy (Some p) = true.
Proof. intros Hp%String.eqb_neq. unfold py_truthy. now rewrite Hp. Qed.

Lemma maybe_decrypt_key (token p : string) :
  p <> "" -> encodable p = true -> encodable token = true ->
  maybe_decrypt token (Some p) =
  match fernet_decrypt (fernet_key p) token with
  | Plain plain => Ok (Some plain, None)
  | NotUtf8 plain_bytes => Raise (UnicodeDecodeError plain_bytes)
  | InvalidToken => Ok (None, Some "Decryption failed. Wrong passphrase or corrupted data.")
  end.
Proof.
  intros Hp Hpe Hte. unfold maybe_decrypt. rewrite (truthy_nonempty _ Hp). cbn [negb].
  rewrite (get_fernet_encodable _ Hpe). cbn [bind]. now rewrite (encode_utf8_ok _ Hte).
Qed.

Lemma maybe_decrypt_invalid (token p : string) :
  p <> "" -> encodable p = true -> encodable token = true ->
  fernet_decrypt (fernet_key p) token = InvalidToken ->
  maybe_decrypt token (Some p)
  = Ok (None, Some "Decryption failed. Wrong passphrase or corrupted data.").
Proof.
  intros Hp Hpe Hte Hbad. now rewrite (maybe_decrypt_key _ _ Hp Hpe Hte), Hbad.
Qed.

(** The scanner returns decoded text, so what is reassembled from a
    picture holds no surrogate. *)
Lemma scanned_encodable (img : image) (payload : string) :
  _decode_big_image img = (Some payload, None) -> encodable payload = true.
Proof.
  intros Hscan. apply (reassemble_encodable _ _ Hscan).
  intros data Hd. exact (decode_qr_encodable _ _ Hd).
Qed.

Lemma decrypt_same (rnd : entropy) (text : string) (passphrase : option string) :
  encodable text = true -> passphrase_encodable passphrase = true ->
  (forall p, passphrase = Some p -> p <> "" ->
     fernet_decrypt (fernet_key p)
       (fernet_encrypt (fernet_key p) (fernet_nonce rnd) (envelope_text text))
     = Plain (envelope_text text)) ->
  maybe_decrypt (payload_of rnd text passphrase) passphrase
  = Ok (Some (envelope_text text), None).
Proof.
  intros Ht Hpe Hfernet. pose proof (payload_encodable rnd text passphrase Ht) as Hpay.
  destruct passphrase as [p|]; [|reflexivity].
  destruct (String.eqb_spec p "") as [->|Hp]; [reflexivity|].
  rewrite (maybe_decrypt_key _ _ Hp Hpe Hpay). unfold payload_of.
  apply String.eqb_neq in Hp as Hp'. rewrite Hp'. now rewrite (Hfernet p eq_refl Hp).
Qed.

(** C1 (amended).  For every text and every passphrase (or none) that
    UTF-8 encodes, and every positive chunk size, given that the JSON
    library reads back the envelope it wrote and that the cipher gives
    back under a key what it encrypted under that key:
    - if the picture carries the payload intact (every frame fits a QR
      symbol, the file reads back as the image saved, the scanner finds
      the frames drawn, as [carried_intact] says), encoding succeeds and
      decoding its file with the same passphrase returns the text, the
      SHA-256 hex digest of the text, and no error;
    - if a frame fits no QR symbol, the QR library raises and there is
      no file to decode.
    A text that holds a surrogate is not encoded at all: encoding raises
    [UnicodeEncodeError], and so it does for such a passphrase.  That
    the text is not empty is not needed. *)
Theorem round_trip
    (rnd : entropy) (text : string) (chunk_size : Z) (passphrase : option string) :
  0 < chunk_size ->
  (encodable text = true -> passphrase_encodable passphrase = true ->
   json_loads (envelope_text text) = Some (envelope text) ->
   (forall p, passphrase = Some p -> p <> "" ->
      fernet_decrypt (fernet_key p)
        (fernet_encrypt (fernet_key p) (fernet_nonce rnd) (envelope_text text))
      = Plain (envelope_text text)) ->
   carried_intact (uuid4 rnd) (payload_of rnd text passphrase) chunk_size ->
   exists file_stream,
     encode_text_to_big_qr_file rnd text chunk_size passphrase = Ok file_stream /\
     decode_big_qr_to_text file_stream passphrase
     = Ok (Some text, Some (sha256_hexdigest text), None)) /\
  (encodable text = true -> passphrase_encodable passphrase = true ->
   (exists data,
      data ∈ frames_drawn (uuid4 rnd) (payload_of rnd text passphrase) chunk_size /\
      qr_best_fit data = None) ->
   encode_text_to_big_qr_file rnd text chunk_size passphrase = Raise QRCodeError) /\
  (encodable text = false ->
   encode_text_to_big_qr_file rnd text chunk_size passphrase
   = Raise (UnicodeEncodeError text)) /\
  (encodable text = true -> forall p, passphrase = Some p -> encodable p = false ->
   encode_text_to_big_qr_file rnd text chunk_size passphrase = Raise (UnicodeEncodeError p)).
Proof.
  intros Hsize. split; [|split; [|split]].
  - intros Ht Hp Hjson Hfernet Hchan.
    pose proof (payload_encodable rnd text passphrase Ht) as Hpay.
    destruct (picture_round_trip _ _ _ Hsize Hpay Hchan) as (img & Hbuild & Hopen & Hscan).
    exists (png_save img). split.
    { rewrite (encode_file_payload _ _ _ _ Ht Hp). now rewrite Hbuild. }
    rewrite (decode_after_scan _ _ _ _ Hopen Hscan).
    rewrite (decrypt_same _ _ _ Ht Hp Hfernet). cbn [bind py_truthy from_option id].
    now rewrite (unwrap_envelope _ Ht Hjson).
  - intros Ht Hp Hover. rewrite (encode_file_payload _ _ _ _ Ht Hp).
    now rewrite (build_overflows _ _ _ _ (payload_encodable _ _ _ Ht) Hover).
  - apply encode_file_raises_text.
  - intros Ht p -> Hp. now apply encode_file_raises_passphrase.
Qed.

(** C5 (amended).  A text encoded with a passphrase P1, or with none,
    and decoded with a non-empty passphrase P2 that UTF-8 encodes, under
    whose key the cipher rejects the payload (Fernet rejects every token
    signed under another signing key, and an envelope, which is no
    token): the decoder answers the decryption error, no text and no
    hash, given that the picture carries the payload intact.  Every
    token the cipher rejects under the key of such a passphrase, for
    whatever reason, yields that same error, from [maybe_decrypt] and
    from the decoder. *)
Theorem wrong_passphrase_is_decryption_error
    (rnd : entropy) (text : string) (chunk_size : Z) (p1 : option string) (p2 : string) :
  p2 <> "" -> encodable p2 = true ->
  encodable text = true -> passphrase_encodable p1 = true ->
  0 < chunk_size ->
  fernet_decrypt (fernet_key p2) (payload_of rnd text p1) = InvalidToken ->
  carried_intact (uuid4 rnd) (payload_of rnd text p1) chunk_size ->
  (exists file_stream,
     encode_text_to_big_qr_file rnd text chunk_size p1 = Ok file_stream /\
     decode_big_qr_to_text file_stream (Some p2)
     = Ok (None, None, Some "Decryption failed. Wrong passphrase or corrupted data.")) /\
  (forall token p,
     p <> "" -> encodable p = true ->
     fernet_decrypt (fernet_key p) token = InvalidToken ->
     (encodable token = true ->
      maybe_decrypt token (Some p)
      = Ok (None, Some "Decryption failed. Wrong passphrase or corrupted data.")) /\
     forall file_stream img,
       image_open file_stream = inr img ->
       _decode_big_image img = (Some token, None) ->
       decode_big_qr_to_text file_stream (Some p)
       = Ok (None, None, Some "Decryption failed. Wrong passphrase or corrupted data.")).
Proof.
  intros Hp2 Hp2e Ht Hp1 Hsize Hreject Hchan.
  assert (forall token p,
     p <> "" -> encodable p = true ->
     fernet_decrypt (fernet_key p) token = InvalidToken ->
     forall file_stream img,
       image_open file_stream = inr img ->
       _decode_big_image img = (Some token, None) ->
       decode_big_qr_to_text file_stream (Some p)
       = Ok (None, None, Some "Decryption failed. Wrong passphrase or corrupted data."))
    as Hany.
  { intros token p Hp Hpe Hbad file_stream img Hopen Hscan.
    rewrite (decode_after_scan _ _ _ _ Hopen Hscan).
    now rewrite (maybe_decrypt_invalid _ _ Hp Hpe (scanned_encodable _ _ Hscan) Hbad). }
  split.
  - pose proof (payload_encodable rnd text p1 Ht) as Hpay.
    destruct (picture_round_trip _ _ _ Hsize Hpay Hchan) as (img & Hbuild & Hopen & Hscan).
    exists (png_save img). split.
    { rewrite (encode_file_payload _ _ _ _ Ht Hp1). now rewrite Hbuild. }
    exact (Hany _ p2 Hp2 Hp2e Hreject _ img Hopen Hscan).
  - intros token p Hp Hpe Hbad. split; [intros Hte; now apply maybe_decrypt_invalid|].
    intros file_stream img. now apply Hany.
Qed.

End Claims.

(* ================================================================== *)
(** * The reference libraries meet the contracts *)
(* ================================================================== *)

Section Reference.

Lemma strip_prefix_app (p s : string) : Ref.strip_prefix p (p +:+ s) = Some s.
Proof.
  induction p as [|c p IH]; [reflexivity|].
  rewrite app_cons. cbn [Ref.strip_prefix]. now rewrite Ascii.eqb_refl.
Qed.

Lemma drop_app_length (a b : string) : str_drop (String.length a) (a +:+ b) = b.
Proof. induction a as [|c a IH]; [reflexivity | exact IH]. Qed.

Lemma hex_digit_inj (a b : N) :
  (a < 16)%N -> (b < 16)%N -> hex_digit a = hex_digit b -> a = b.
Proof.
  intros Ha Hb H.
  assert (forall d, (d < 16)%N -> Ref.hex_val (hex_digit d) = Some d) as Hval.
  { intros d Hd. by_nibble d. }
  pose proof (Hval a Ha) as H1. rewrite H, (Hval b Hb) in H1. congruence.
Qed.

Lemma hex_digit_not_dot (d : N) : (d < 16)%N -> Ascii.eqb "." (hex_digit d) = false.
Proof.
  intros Hd. by_nibble d.
Qed.

Lemma byte_nibbles (c : ascii) : (N_of_ascii c / 16 < 16)%N /\ (N_of_ascii c mod 16 < 16)%N.
Proof.
  pose proof (N_ascii_bounded c). split.
  - apply N.Div0.div_lt_upper_bound. lia.
  - apply N.mod_lt. discriminate.
Qed.

(** No key's spelling begins another key's spelling. *)
Lemma spell_key_prefix_free (k1 k2 rest tail : string) :
  Ref.strip_prefix (Ref.spell_key k2) (Ref.spell_key k1 +:+ rest) = Some tail -> k1 = k2.
Proof.
  revert k1. induction k2 as [|c2 k2 IH]; intros [|c1 k1] H; try reflexivity.
  - exfalso. cbn [Ref.spell_key Ref.strip_prefix] in H. rewrite !app_cons in H.
    cbn [Ref.strip_prefix] in H.
    rewrite hex_digit_not_dot in H by apply byte_nibbles. discriminate.
  - exfalso. cbn [Ref.spell_key Ref.strip_prefix] in H.
    change ("." +:+ rest) with (String "." rest) in H. cbn [Ref.strip_prefix] in H.
    rewrite Ascii.eqb_sym, hex_digit_not_dot in H by apply byte_nibbles. discriminate.
  - cbn [Ref.spell_key] in H. rewrite !app_cons in H. cbn [Ref.strip_prefix] in H.
    destruct (Ascii.eqb_spec (hex_digit (N_of_ascii c2 / 16)) (hex_digit (N_of_ascii c1 / 16)))
      as [Hhi|]; [|discriminate].
    destruct (Ascii.eqb_spec (hex_digit (N_of_ascii c2 mod 16))
                             (hex_digit (N_of_ascii c1 mod 16)))
      as [Hlo|]; [|discriminate].
    apply hex_digit_inj in Hhi, Hlo; try apply byte_nibbles.
    f_equal; [|now apply IH].
    rewrite <- (ascii_N_embedding c1), <- (ascii_N_embedding c2). f_equal.
    rewrite (N.div_mod (N_of_ascii c1) 16), (N.div_mod (N_of_ascii c2) 16) by discriminate.
    now rewrite Hhi, Hlo.
Qed.

Lemma hex_fixed_length (width : nat) (n : N) (acc : string) :
  String.length (hex_fixed width n acc) = (width + String.length acc)%nat.
Proof.
  revert n acc. induction width as [|w IH]; intros n acc; [reflexivity|].
  cbn [hex_fixed]. rewrite IH. cbn [String.length]. lia.
Qed.

Lemma hex_or_dot (s : string) :
  str_forall (fun c => is_hex_digit c || Ascii.eqb c ".") s = true ->
  str_forall is_ascii s = true.
Proof.
  apply str_forall_impl. intros [[] [] [] [] [] [] [] []]; try discriminate; reflexivity.
Qed.

(** The stand-in cipher gives back what it encrypted, and rejects a
    token made under another key. *)
Lemma ref_fernet_round_trip (key : string) (nonce : N) (text : string) :
  Ref.fernet_decrypt key (Ref.fernet_encrypt key nonce text) = Plain text.
Proof.
  unfold Ref.fernet_decrypt, Ref.fernet_encrypt. rewrite strip_prefix_app.
  pose proof (hex_fixed_length 8 nonce "") as Hlen. cbn [String.length] in Hlen.
  rewrite Nat.add_0_r in Hlen. rewrite <- Hlen at 1. rewrite drop_app_length.
  now rewrite strip_prefix_app.
Qed.

Lemma ref_fernet_rejects (k1 k2 : string) (nonce : N) (text : string) :
  k1 <> k2 -> Ref.fernet_decrypt k2 (Ref.fernet_encrypt k1 nonce text) = InvalidToken.
Proof.
  intros Hne. unfold Ref.fernet_decrypt, Ref.fernet_encrypt.
  rewrite strip_prefix_app.
  pose proof (hex_fixed_length 8 nonce "") as Hlen. cbn [String.length] in Hlen.
  rewrite Nat.add_0_r in Hlen. rewrite <- Hlen at 1. rewrite drop_app_length.
  destruct (Ref.strip_prefix _ _) as [tail|] eqn:E; [|reflexivity].
  apply spell_key_prefix_free in E. congruence.
Qed.

(** ** The laws *)

Lemma ref_ascii_encodable (s : string) :
  str_forall is_ascii s = true -> @encodable Ref.alphabet s = true.
Proof.
  induction s as [|c s IH]; [reflexivity|]. cbn [str_forall encodable].
  intros [Hc Hs]%andb_true_iff. rewrite (IH Hs), andb_true_r.
  revert Hc. destruct c as [[] [] [] [] [] [] [] []]; try discriminate; reflexivity.
Qed.

Lemma ref_escape_encodable (s : string) :
  @encodable Ref.alphabet s = true -> @encodable Ref.alphabet (Ref.escape s) = true.
Proof.
  induction s as [|c s IH]; [reflexivity|]. cbn [encodable Ref.escape].
  intros [Hc Hs]%andb_true_iff. rewrite encodable_app, (IH Hs), andb_true_r.
  revert Hc. destruct c as [[] [] [] [] [] [] [] []]; vm_compute; congruence.
Qed.

Lemma ref_quoted_encodable (s : string) :
  @encodable Ref.alphabet s = true -> @encodable Ref.alphabet (Ref.quoted s) = true.
Proof.
  intros Hs. unfold Ref.quoted. cbn [encodable]. rewrite encodable_app.
  now rewrite (ref_escape_encodable _ Hs).
Qed.

Lemma ref_spell_key_encodable (key : string) :
  @encodable Ref.alphabet (Ref.spell_key key) = true.
Proof.
  apply ref_ascii_encodable, hex_or_dot. induction key as [|c key IH]; [reflexivity|].
  cbn [Ref.spell_key str_forall].
  destruct (byte_nibbles c) as [Hhi Hlo].
  now rewrite IH, (hex_digit_is_hex _ Hhi), (hex_digit_is_hex _ Hlo).
Qed.

Lemma first_fit_bound (need version : Z) (caps : list Z) (found bound : Z) :
  Forall (fun cap => cap <= bound) caps ->
  Ref.first_fit need version caps = Some found -> need <= bound.
Proof.
  intros Hcaps. revert version. induction Hcaps as [|cap caps Hcap _ IH]; intros version;
    [discriminate|].
  cbn [Ref.first_fit]. destruct (Z.leb_spec need cap); [lia | apply IH].
Qed.

Lemma utf8_encode_length (text : string) :
  (String.length text <= length (Ref.utf8_encode text))%nat.
Proof.
  induction text as [|c text IH]; [reflexivity|]. cbn [Ref.utf8_encode String.length].
  destruct (_ <? 128); cbn [length]; lia.
Qed.

Lemma ref_lawful : @Lawful Ref.alphabet Ref.libs.
Proof.
  split.
  - intros c Hc. cbn in Hc. apply orb_true_iff in Hc.
    unfold nat_of_ascii. destruct Hc as [Hc%N.eqb_eq | Hc%N.eqb_eq]; rewrite Hc; cbn; lia.
  - intros sha text Hs Ht. cbn [json_dumps Ref.libs Ref.json_dumps map fst snd String.concat].
    rewrite !encodable_app, (ref_quoted_encodable _ Hs), (ref_quoted_encodable _ Ht).
    reflexivity.
  - intros key nonce data Hd. cbn [fernet_encrypt Ref.libs]. unfold Ref.fernet_encrypt.
    rewrite !encodable_app, ref_spell_key_encodable, Hd, !andb_true_r.
    apply ref_ascii_encodable, hex_is_ascii, hex_fixed_is_hex. reflexivity.
  - intros data version Hfit. cbn [qr_best_fit Ref.libs] in Hfit. unfold Ref.qr_best_fit in Hfit.
    apply (first_fit_bound _ _ _ _ 1663) in Hfit.
    + pose proof (utf8_encode_length data). lia.
    + unfold Ref.capacity_Q. repeat (constructor; [lia|]). constructor.
  - intros img data Hd. cbn [decode_qr Ref.libs] in Hd. unfold Ref.decode_qr in Hd.
    apply list_elem_of_fmap in Hd as (d & Hd & _).
    destruct (encodable d) eqn:E; [|discriminate]. now injection Hd as ->.
Qed.

Lemma ref_symbols_rendered (total : Z) (msg_id : string) (p : Z * string) :
  Ref.symbols_in (@rendered Ref.alphabet Ref.libs true total msg_id p)
  = [frame_string msg_id (fst p) total (snd p)].
Proof.
  destruct p as [idx chunk]. unfold rendered, add_index_label.
  destruct (img_size _). reflexivity.
Qed.

Lemma symbols_pasted (place : Z -> Z * Z) (xs : list (Z * image)) (canvas : image) :
  Ref.symbols_in
    (fold_left (fun canvas '(i, img) => Paste canvas (fst (place i)) (snd (place i)) img)
               xs canvas)
  = Ref.symbols_in canvas ++ flat_map (fun p => Ref.symbols_in (snd p)) xs.
Proof.
  revert canvas. induction xs as [|[i img] xs IH]; intros canvas.
  - cbn [fold_left flat_map]. now rewrite app_nil_r.
  - cbn [fold_left flat_map]. rewrite IH. cbn [Ref.symbols_in snd]. now rewrite <- app_assoc.
Qed.

Lemma flat_map_enumerate {A B} (f : A -> list B) (xs : list A) :
  flat_map (fun p => f (snd p)) (enumerate xs) = flat_map f xs.
Proof.
  unfold enumerate, py_range. rewrite Nat2Z.id. generalize 0%nat as start.
  induction xs as [|x xs IH]; intros start; [reflexivity|].
  cbn [length seq map combine flat_map snd]. now rewrite IH.
Qed.

Lemma ref_symbols_tiled (images : list image) (img : image) :
  tile_images images = Ok img -> Ref.symbols_in img = flat_map Ref.symbols_in images.
Proof.
  unfold tile_images. destruct images as [|i0 images]; [discriminate|].
  intros [= <-]. generalize (i0 :: images) as l. intros l.
  rewrite <- (flat_map_enumerate Ref.symbols_in l).
  apply (symbols_pasted (fun i => (i mod _ * _, i / _ * _))).
Qed.

Lemma ref_symbols_built (uuid : N) (payload : string) (chunk_size : Z) (img : image) :
  @encodable Ref.alphabet payload = true ->
  (forall data, data ∈ frames_drawn uuid payload chunk_size ->
                Ref.qr_best_fit data <> None) ->
  @_build_big_qr_image Ref.alphabet Ref.libs payload chunk_size true uuid = Ok img ->
  Ref.symbols_in img = frames_drawn uuid payload chunk_size.
Proof.
  intros Hpay Hfit.
  pose proof (fun data => @frames_encodable _ _ ref_lawful uuid payload chunk_size data Hpay)
    as Henc.
  unfold _build_big_qr_image, frames_drawn in *.
  destruct (chunk_text payload chunk_size) as [chunks|e]; [|discriminate].
  change (bind (Ok chunks) ?k) with (k chunks). cbv beta zeta.
  pose proof (@render_loop Ref.alphabet Ref.libs true (Z.of_nat (length chunks))
                (str_take 8 (uuid_hex uuid)) (enumerate chunks) []) as Hloop.
  cbv beta iota in Hloop. rewrite Hloop.
  - cbn [bind app]. intros Htile%ref_symbols_tiled. rewrite Htile.
    clear. induction (enumerate chunks) as [|[idx chunk] xs IH]; [reflexivity|].
    cbn [map flat_map]. rewrite IH, ref_symbols_rendered. reflexivity.
  - intros idx chunk Hic.
    assert (frame_string (str_take 8 (uuid_hex uuid)) idx (Z.of_nat (length chunks)) chunk
            ∈ map (fun '(idx, chunk) =>
                     frame_string (str_take 8 (uuid_hex uuid)) idx
                                  (Z.of_nat (length chunks)) chunk) (enumerate chunks)) as Hin.
    { apply list_elem_of_fmap. exists (idx, chunk). split; [reflexivity | exact Hic]. }
    split; [now apply Henc | now apply Hfit].
Qed.

Lemma ref_frames_fit (frames : list string) :
  forallb (fun data => bool_decide (Ref.qr_best_fit data <> None)) frames = true ->
  forall data, data ∈ frames -> Ref.qr_best_fit data <> None.
Proof.
  intros Hfit data Hd%list_elem_of_In. rewrite forallb_forall in Hfit.
  apply Hfit in Hd. now apply bool_decide_eq_true in Hd.
Qed.

(** The reference renderer, file format and scanner carry a payload
    intact whenever it is not empty, holds no surrogate, and every frame
    fits a symbol; the three conditions can be checked by computation. *)
Lemma ref_carried_intact (uuid : N) (payload : string) (chunk_size : Z) :
  String.eqb payload "" = false ->
  @encodable Ref.alphabet payload = true ->
  forallb (fun data => bool_decide (Ref.qr_best_fit data <> None))
          (frames_drawn uuid payload chunk_size) = true ->
  @carried_intact Ref.alphabet Ref.libs uuid payload chunk_size.
Proof.
  intros Hne%String.eqb_neq Hpay Hfit.
  pose proof (ref_frames_fit _ Hfit) as Hfit'.
  split; [exact Hne | exact Hfit' | reflexivity |].
  intros img Hbuild symbol. cbn [decode_qr Ref.libs]. unfold Ref.decode_qr.
  rewrite (ref_symbols_built _ _ _ _ Hpay Hfit' Hbuild), list_elem_of_fmap.
  split.
  - intros (data & -> & Hd).
    rewrite (@frames_encodable _ _ ref_lawful _ _ _ _ Hpay Hd). eauto.
  - intros (data & -> & Hd). exists data.
    now rewrite (@frames_encodable _ _ ref_lawful _ _ _ _ Hpay Hd).
Qed.

End Reference.

(* ================================================================== *)
(** * The claims on concrete inputs *)
(* ================================================================== *)

(** The round trip of ["hello world"] in chunks of 40 characters, with a
    passphrase and without one, on the reference libraries. *)
Lemma round_trip_witness :
  (exists file_stream,
     @encode_text_to_big_qr_file _ Ref.libs Ref.sample_entropy "hello world" 40 (Some "pw")
     = Ok file_stream /\
     @decode_big_qr_to_text _ Ref.libs file_stream (Some "pw")
     = Ok (Some "hello world",
           Some "b94d27b9934d3e08a52e52d7da7dabfac484efe37a5380ee9088f7ace2efcde9", None)) /\
  (exists file_stream,
     @encode_text_to_big_qr_file _ Ref.libs Ref.sample_entropy "hello world" 40 None
     = Ok file_stream /\
     @decode_big_qr_to_text _ Ref.libs file_stream None
     = Ok (Some "hello world",
           Some "b94d27b9934d3e08a52e52d7da7dabfac484efe37a5380ee9088f7ace2efcde9", None)).
Proof.
  split.
  - apply (proj1 (@round_trip _ _ ref_lawful Ref.sample_entropy "hello world" 40 (Some "pw")
                    ltac:(lia))).
    + reflexivity.
    + reflexivity.
    + vm_compute. reflexivity.
    + intros p [= <-] _. vm_compute. reflexivity.
    + apply ref_carried_intact; vm_compute; reflexivity.
  - apply (proj1 (@round_trip _ _ ref_lawful Ref.sample_entropy "hello world" 40 None
                    ltac:(lia))).
    + reflexivity.
    + reflexivity.
    + vm_compute. reflexivity.
    + intros p [=].
    + apply ref_carried_intact; vm_compute; reflexivity.
Defined.

(** Two thousand characters in one chunk: the frame is longer than the
    1663 bytes a version-40 symbol holds at level Q, encoding raises and
    there is nothing to decode.  In chunks of 500 the same text makes the
    round trip.  A text of one lone surrogate is not encoded either:
    [text.encode] raises [UnicodeEncodeError], and so does
    [passphrase.encode] for such a passphrase. *)
Lemma oversized_chunk_is_not_encoded :
  @encode_text_to_big_qr_file _ Ref.libs Ref.sample_entropy Ref.long_text 5000 None
  = Raise QRCodeError /\
  (exists file_stream,
     @encode_text_to_big_qr_file _ Ref.libs Ref.sample_entropy Ref.long_text 500 None
     = Ok file_stream /\
     @decode_big_qr_to_text _ Ref.libs file_stream None
     = Ok (Some Ref.long_text, Some (@sha256_hexdigest _ Ref.libs Ref.long_text), None)) /\
  @encode_text_to_big_qr_file _ Ref.libs Ref.sample_entropy Ref.surrogate_text 40 None
  = Raise (UnicodeEncodeError Ref.surrogate_text) /\
  @encode_text_to_big_qr_file _ Ref.libs Ref.sample_entropy "hello world" 40
    (Some Ref.surrogate_text)
  = Raise (UnicodeEncodeError Ref.surrogate_text).
Proof.
  split; [vm_compute; reflexivity|].
  split; [|split; vm_compute; reflexivity].
  eexists. split; [vm_compute; reflexivity | vm_compute; reflexivity].
Qed.

(** The first frame that parses in [sample_scan] belongs to message
    [aaaa0001]; its two frames are joined in index order, the frame of
    message [bbbb0002] is ignored.  Without the frame of index 0 the
    answer names the missing index. *)
Lemma reassemble_first_message_witness :
  omap parse_frame Ref.sample_scan = Ref.sample_frames /\
  reassemble Ref.sample_scan = (Some "hello wor|ld", None) /\
  reassemble (filter (carries "aaaa0001") Ref.sample_scan) = reassemble Ref.sample_scan /\
  reassemble Ref.sample_scan_incomplete = (None, Some "Missing QR chunks: [0]").
Proof.
  split; [vm_compute; reflexivity|].
  pose proof (reassemble_first_message Ref.sample_scan
                {| frame_id := "aaaa0001"; frame_index := 1; frame_total := 2;
                   frame_text := "wor|ld" |}
                (tl Ref.sample_frames) ltac:(vm_compute; reflexivity))
    as (_ & Hsame & _ & Hjoin & _).
  pose proof (reassemble_first_message Ref.sample_scan_incomplete
                {| frame_id := "aaaa0001"; frame_index := 1; frame_total := 2;
                   frame_text := "wor|ld" |}
                [{| frame_id := "bbbb0002"; frame_index := 0; frame_total := 1;
                    frame_text := "zzz" |}]
                ltac:(vm_compute; reflexivity))
    as (_ & _ & Hmissing & _).
  split; [|split].
  - rewrite Hjoin; vm_compute; reflexivity.
  - exact Hsame.
  - rewrite Hmissing; vm_compute; [reflexivity | discriminate].
Defined.

(** A frame whose index and total are negative is taken as a frame: the
    scan is not "Invalid QR format.", and with a total below zero nothing
    is missing and the payload is the empty string. *)
Lemma negative_index_and_total_accepted :
  parse_frame (Some "ab12cd34|-1|-2|x")
  = Some {| frame_id := "ab12cd34"; frame_index := -1; frame_total := -2;
            frame_text := "x" |} /\
  reassemble [Some "ab12cd34|-1|-2|x"] = (Some "", None).
Proof. split; vm_compute; reflexivity. Qed.

(** The empty text with chunk size 500 is encoded, and the file decodes
    to the empty text with the SHA-256 of the empty string. *)
Lemma empty_text_is_encoded :
  exists file_stream,
    @encode_text_to_big_qr_file _ Ref.libs Ref.sample_entropy "" 500 None = Ok file_stream /\
    @decode_big_qr_to_text _ Ref.libs file_stream None
    = Ok (Some "", Some "e3b0c44298fc1c149afbf4c8996fb92427ae41e4649b934ca495991b7852b855",
          None).
Proof. eexists. split; [vm_compute; reflexivity | vm_compute; reflexivity]. Qed.

(** Chunk size zero: ["hello world"] is refused for the chunk size, a
    lone surrogate for itself, and a surrogate passphrase for itself. *)
Lemma encode_rejects_bad_chunk_size_witness :
  @encode_text_to_big_qr_file _ Ref.libs Ref.sample_entropy "hello world" 0 None
  = Raise (ValueError "chunk_size must be positive") /\
  @encode_text_to_big_qr_file _ Ref.libs Ref.sample_entropy Ref.surrogate_text 0 None
  = Raise (UnicodeEncodeError Ref.surrogate_text) /\
  @encode_text_to_big_qr_file _ Ref.libs Ref.sample_entropy "hello world" 0
    (Some Ref.surrogate_text)
  = Raise (UnicodeEncodeError Ref.surrogate_text).
Proof.
  split; [|split].
  - destruct (@encode_rejects_bad_chunk_size _ _ ref_lawful Ref.sample_entropy
                "hello world" 0 None) as (_ & _ & _ & H).
    apply (H eq_refl eq_refl). lia.
  - destruct (@encode_rejects_bad_chunk_size _ _ ref_lawful Ref.sample_entropy
                Ref.surrogate_text 0 None) as (_ & H & _).
    apply H. reflexivity.
  - destruct (@encode_rejects_bad_chunk_size _ _ ref_lawful Ref.sample_entropy
                "hello world" 0 (Some Ref.surrogate_text)) as (_ & _ & H & _).
    apply (H eq_refl _ eq_refl). reflexivity.
Defined.

(** A file encoded with the passphrase ["pw"] and decoded with ["pW"],
    and a file encoded with the empty passphrase and decoded with
    ["pw"]. *)
Lemma wrong_passphrase_witness :
  (exists file_stream,
     @encode_text_to_big_qr_file _ Ref.libs Ref.sample_entropy "hello world" 40 (Some "pw")
     = Ok file_stream /\
     @decode_big_qr_to_text _ Ref.libs file_stream (Some "pW")
     = Ok (None, None, Some "Decryption failed. Wrong passphrase or corrupted data.")) /\
  (exists file_stream,
     @encode_text_to_big_qr_file _ Ref.libs Ref.sample_entropy "hello world" 40 (Some "")
     = Ok file_stream /\
     @decode_big_qr_to_text _ Ref.libs file_stream (Some "pw")
     = Ok (None, None, Some "Decryption failed. Wrong passphrase or corrupted data.")).
Proof.
  split.
  - apply (@wrong_passphrase_is_decryption_error _ _ ref_lawful Ref.sample_entropy
             "hello world" 40 (Some "pw") "pW").
    + discriminate.
    + reflexivity.
    + reflexivity.
    + reflexivity.
    + lia.
    + vm_compute. reflexivity.
    + apply ref_carried_intact; vm_compute; reflexivity.
  - apply (@wrong_passphrase_is_decryption_error _ _ ref_lawful Ref.sample_entropy
             "hello world" 40 (Some "") "pw").
    + discriminate.
    + reflexivity.
    + reflexivity.
    + reflexivity.
    + lia.
    + vm_compute. reflexivity.
    + apply ref_carried_intact; vm_compute; reflexivity.
Defined.

(** A file encoded with the passphrase ["pw"] and decoded with the empty
    passphrase: no error, and the token itself comes back as the text.
    Decoded with a passphrase that is a lone surrogate, the same file
    makes [passphrase.encode] raise [UnicodeEncodeError]. *)
Lemma empty_passphrase_returns_token :
  exists file_stream token,
    @encode_text_to_big_qr_file _ Ref.libs Ref.sample_entropy "hello world" 40 (Some "pw")
    = Ok file_stream /\
    (do wrapped <- @wrap_payload_with_checksum _ Ref.libs "hello world";
     @maybe_encrypt _ Ref.libs Ref.sample_entropy wrapped (Some "pw")) = Ok token /\
    @maybe_decrypt _ Ref.libs token (Some "") = Ok (Some token, None) /\
    @decode_big_qr_to_text _ Ref.libs file_stream (Some "") = Ok (Some token, None, None) /\
    @decode_big_qr_to_text _ Ref.libs file_stream (Some Ref.surrogate_text)
    = Raise (UnicodeEncodeError Ref.surrogate_text).
Proof.
  do 2 eexists.
  split; [vm_compute; reflexivity|].
  split; [vm_compute; reflexivity|].
  split; [vm_compute; reflexivity|].
  split; [vm_compute; reflexivity | vm_compute; reflexivity].
Qed.



(** A bare string, a JSON array, and an object whose hash is a number. *)
Lemma unwrap_legacy_plain_text_witness :
  @unwrap_and_verify_payload _ Ref.libs "hello" = Ok (Some "hello", None, None) /\
  @unwrap_and_verify_payload _ Ref.libs "[1, 2]" = Ok (Some "[1, 2]", None, None) /\
  @unwrap_and_verify_payload _ Ref.libs
    (Ref.json_dumps (JObject [("hash", JNumber "7"); ("text", JString "hi")]))
  = Ok (Some (Ref.json_dumps (JObject [("hash", JNumber "7"); ("text", JString "hi")])),
        None, None).
Proof.
  split; [|split].
  - refine (@unwrap_legacy_plain_text _ Ref.libs "hello" _).
    left. vm_compute. reflexivity.
  - refine (@unwrap_legacy_plain_text _ Ref.libs "[1, 2]" _).
    right. left. exists (JArray [JNumber "1"; JNumber "2"]).
    split; [vm_compute; reflexivity | discriminate].
  - refine (@unwrap_legacy_plain_text _ Ref.libs
              (Ref.json_dumps (JObject [("hash", JNumber "7"); ("text", JString "hi")])) _).
    right. right. exists [("hash", JNumber "7"); ("text", JString "hi")].
    split; [vm_compute; reflexivity|].
    intros (h & t & Hh & _). vm_compute in Hh. discriminate Hh.
Defined.

(** A blank picture, and a picture with one symbol that is no frame. *)
Lemma scan_errors_distinct_witness :
  @decode_big_qr_to_text _ Ref.libs (Ref.PngOf (Blank 100 100)) None
  = Ok (None, None, Some "No QR codes found.") /\
  @decode_big_qr_to_text _ Ref.libs (Ref.PngOf (QRCode "https://example.org/a|b" 290)) None
  = Ok (None, None, Some "Invalid QR format.").
Proof.
  split.
  - pose proof (@scan_errors_distinct _ Ref.libs (Ref.PngOf (Blank 100 100)) None
                  (Blank 100 100) eq_refl) as (Hnone & _).
    exact (proj2 (Hnone eq_refl)).
  - pose proof (@scan_errors_distinct _ Ref.libs
                  (Ref.PngOf (QRCode "https://example.org/a|b" 290)) None
                  (QRCode "https://example.org/a|b" 290) eq_refl) as (_ & Hbad).
    refine (proj2 (Hbad _ _)); [discriminate|].
    intros symbol Hs. apply list_elem_of_singleton in Hs as ->.
    vm_compute. reflexivity.
Defined.

(** Seven characters in chunks of three. *)
Lemma chunk_text_slices_payload_witness :
  exists chunks,
    chunk_text "abcdefg" 3 = Ok chunks /\
    String.concat "" chunks = "abcdefg" /\
    Z.of_nat (length chunks) = chunk_count 7 3.
Proof.
  destruct (@chunk_text_slices_payload _ Ref.libs "abcdefg" 3 ltac:(lia))
    as (chunks & H1 & H2 & H3 & _).
  exists chunks. auto.
Defined.

Example chunk_text_seven_by_three : chunk_text "abcdefg" 3 = Ok ["abc"; "def"; "g"].
Proof. reflexivity. Qed.

(** The empty payload has no fragment at all, though every positive chunk
    size is at least its length, and no picture can be built from it. *)
Lemma empty_payload_has_no_fragment :
  chunk_text "" 5 = Ok [] /\
  @_build_big_qr_image _ Ref.libs "" 5 true 0 = Raise (ValueError "No images to tile").
Proof. split; reflexivity. Qed.

(* ================================================================== *)
(** * Further properties of the service *)
(* ================================================================== *)

Section Layout.

Lemma ceil_sqrt_bounds (n : Z) :
  0 < n ->
  0 < ceil_sqrt n /\ (ceil_sqrt n - 1) * (ceil_sqrt n - 1) < n <= ceil_sqrt n * ceil_sqrt n.
Proof.
  intros Hn. unfold ceil_sqrt.
  pose proof (Z.sqrt_spec n ltac:(lia)) as [H1 H2].
  pose proof (Z.sqrt_nonneg n) as H0.
  destruct (Z.eqb_spec (Z.sqrt n * Z.sqrt n) n); nia.
Qed.

Lemma py_max_ge (l : list Z) (x : Z) : x ∈ l -> x <= py_max l.
Proof.
  destruct l as [|x0 l]; [intros H; inversion H|].
  cbn [py_max]. revert x0. induction l as [|y l IH]; intros x0 Hx.
  - apply list_elem_of_singleton in Hx as ->. cbn [fold_left]. lia.
  - cbn [fold_left].
    assert (forall a b, a <= b -> fold_left Z.max l a <= fold_left Z.max l b) as Hmono.
    { clear. induction l as [|z l IH]; intros a b Hab; cbn [fold_left]; [exact Hab|].
      apply IH. lia. }
    apply elem_of_cons in Hx as [-> | Hx].
    + etransitivity; [apply (IH x0); now left|]. apply Hmono. lia.
    + apply elem_of_cons in Hx as [-> | Hx].
      * etransitivity; [apply (IH y); now left|]. apply Hmono. lia.
      * etransitivity; [apply (IH x0); now right|]. apply Hmono. lia.
Qed.

Lemma pastes_fold (place : Z -> Z * Z) (xs : list (Z * image)) (canvas : image) :
  pastes (fold_left (fun canvas '(i, img) => Paste canvas (fst (place i)) (snd (place i)) img)
                    xs canvas)
  = pastes canvas ++ map (fun '(i, img) => (fst (place i), snd (place i), img)) xs.
Proof.
  revert canvas. induction xs as [|[i img] xs IH]; intros canvas.
  - cbn [fold_left map]. now rewrite app_nil_r.
  - cbn [fold_left map]. rewrite IH. cbn [pastes]. now rewrite <- app_assoc.
Qed.

Lemma img_size_fold (place : Z -> Z * Z) (xs : list (Z * image)) (canvas : image) :
  img_size (fold_left (fun canvas '(i, img) => Paste canvas (fst (place i)) (snd (place i)) img)
                      xs canvas)
  = img_size canvas.
Proof.
  revert canvas. induction xs as [|[i img] xs IH]; intros canvas; [reflexivity|].
  cbn [fold_left]. now rewrite IH.
Qed.

(** X1.  Tiling a non-empty list of [n] images never fails.  The canvas
    is a grid of [cols] columns and [rows] rows of cells as wide as the
    widest image and as high as the highest, with [cols] the ceiling of
    the square root of [n] and [rows] the ceiling of [n / cols]; the grid
    has a cell for every image, no empty row and never more rows than
    columns.  Image [i] is pasted at the top left corner of the cell of
    column [i mod cols] and row [i div cols], in the order of the list;
    it is no larger than its cell, the cell lies on the canvas, and two
    different images never share a cell: when no size is negative, every
    image lies on the canvas and no two images overlap.  (The grid is
    computed in floating point, which is exact for any number of images
    a picture can hold.) *)
Theorem tile_images_grid (img0 : image) (others : list image) :
  let images := img0 :: others in
  let n := Z.of_nat (length images) in
  let cols := ceil_sqrt n in
  let rows := ceil_div n cols in
  let max_w := py_max (map (fun img => fst (img_size img)) images) in
  let max_h := py_max (map (fun img => snd (img_size img)) images) in
  exists canvas,
    tile_images images = Ok canvas /\
    img_size canvas = (cols * max_w, rows * max_h) /\
    (cols - 1) * (cols - 1) < n <= cols * cols /\
    (rows - 1) * cols < n <= rows * cols /\
    rows <= cols /\
    pastes canvas
    = map (fun '(i, img) => (i mod cols * max_w, i / cols * max_h, img)) (enumerate images) /\
    (forall i img, (i, img) ∈ enumerate images ->
       0 <= i mod cols < cols /\ 0 <= i / cols < rows /\
       fst (img_size img) <= max_w /\ snd (img_size img) <= max_h) /\
    (forall i j, i mod cols = j mod cols -> i / cols = j / cols -> i = j) /\
    (0 <= max_w -> 0 <= max_h ->
     forall i j img_i img_j,
       (i, img_i) ∈ enumerate images -> (j, img_j) ∈ enumerate images -> i <> j ->
       (i mod cols * max_w + fst (img_size img_i) <= cols * max_w /\
        i / cols * max_h + snd (img_size img_i) <= rows * max_h) /\
       (i mod cols * max_w + fst (img_size img_i) <= j mod cols * max_w \/
        j mod cols * max_w + fst (img_size img_j) <= i mod cols * max_w \/
        i / cols * max_h + snd (img_size img_i) <= j / cols * max_h \/
        j / cols * max_h + snd (img_size img_j) <= i / cols * max_h)).
Proof.
  intros images n cols rows max_w max_h.
  assert (0 < n) as Hn by (unfold n, images; cbn [length]; lia).
  destruct (ceil_sqrt_bounds n Hn) as (Hcols & Hsq). fold cols in Hcols, Hsq.
  pose proof (chunk_count_bounds n cols ltac:(lia) Hcols) as (Hrows0 & Hrows).
  change (chunk_count n cols) with rows in Hrows0, Hrows.
  eexists. split; [reflexivity|].
  split.
  { apply (img_size_fold (fun i => (i mod cols * max_w, i / cols * max_h))). }
  split; [exact Hsq|]. split; [exact Hrows|].
  split; [nia|].
  split.
  { apply (pastes_fold (fun i => (i mod cols * max_w, i / cols * max_h))). }
  assert (forall i img, (i, img) ∈ enumerate images ->
            0 <= i mod cols < cols /\ 0 <= i / cols < rows /\
            fst (img_size img) <= max_w /\ snd (img_size img) <= max_h) as Hcell.
  { intros i img Hi. apply enumerate_elem in Hi as (Hi0 & Hlook).
    assert (i < n) as Hin.
    { apply lookup_lt_Some in Hlook. unfold n. lia. }
    split; [apply Z.mod_pos_bound; lia|].
    split.
    { split; [apply Z.div_pos; lia|].
      apply Z.div_lt_upper_bound; [lia|]. nia. }
    apply list_elem_of_lookup_2 in Hlook.
    split; apply py_max_ge; apply list_elem_of_fmap; exists img; (split; [reflexivity | exact Hlook]). }
  assert (forall i j, i mod cols = j mod cols -> i / cols = j / cols -> i = j) as Hinj.
  { intros i j Hmod Hdiv.
    rewrite (Z.div_mod i cols), (Z.div_mod j cols) by lia. now rewrite Hmod, Hdiv. }
  split; [exact Hcell|]. split; [exact Hinj|].
  intros Hw Hh i j img_i img_j Hi Hj Hij.
  destruct (Hcell i img_i Hi) as (Hci & Hri & Hwi & Hhi).
  destruct (Hcell j img_j Hj) as (Hcj & Hrj & Hwj & Hhj).
  split; [split; nia|].
  destruct (Z.lt_trichotomy (i mod cols) (j mod cols)) as [Hlt | [Heq | Hgt]].
  - left. nia.
  - destruct (Z.lt_trichotomy (i / cols) (j / cols)) as [Hlt | [Heq' | Hgt]].
    + right. right. left. nia.
    + now destruct (Hij (Hinj i j Heq Heq')).
    + right. right. right. nia.
  - right. left. nia.
Qed.

End Layout.

Section Frames.
Context `{W : Lawful}.

(** X2.  A frame parses back to the message id, index, total and chunk
    it was formatted from exactly when the message id holds no
    separator, for every index and total of at most 4300 decimal digits
    (the longest [int] reads, and [str] writes).  They may be negative,
    and the chunk is any string, with separators or empty. *)
Theorem frame_string_parses_back (msg_id : string) (idx total : Z) (chunk : string) :
  - 10 ^ 4300 < idx < 10 ^ 4300 -> - 10 ^ 4300 < total < 10 ^ 4300 ->
  (parse_frame (Some (frame_string msg_id idx total chunk))
   = Some {| frame_id := msg_id; frame_index := idx; frame_total := total;
             frame_text := chunk |}
   <-> no_sep msg_id = true).
Proof.
  intros Hidx Htotal. unfold parse_frame. split.
  - destruct (py_split "|" 3 (frame_string msg_id idx total chunk))
      as [|m [|i [|t [|c [|x xs]]]]] eqn:E; try discriminate.
    apply py_split_four in E as (_ & Hm & _).
    destruct (py_int i), (py_int t); try discriminate.
    now intros [= <- _ _ _].
  - intros Hm.
    assert (py_split "|" 3 (frame_string msg_id idx total chunk)
            = [msg_id; py_str idx; py_str total; chunk]) as ->.
    { apply py_split_four. split; [reflexivity|].
      split; [exact Hm|]. split; apply py_str_no_sep. }
    rewrite !py_int_str; [reflexivity | |].
    + apply (py_str_digits total 4300); [lia | exact Htotal].
    + apply (py_str_digits idx 4300); [lia | exact Hidx].
Qed.

Lemma render_loop_ok (add_labels : bool) (total : Z) (msg_id : string)
    (xs : list (Z * string)) (acc images : list image) :
  for_each
    (fun images '(idx, chunk) =>
       do img <- make_qr_image (frame_string msg_id idx total chunk);
       Ok (images ++ [if add_labels then add_index_label img idx total else img])%list)
    xs acc
  = Ok images ->
  images = (acc ++ map (rendered add_labels total msg_id) xs)%list /\
  forall idx chunk, (idx, chunk) ∈ xs -> qr_best_fit (frame_string msg_id idx total chunk) <> None.
Proof.
  revert acc. induction xs as [|[idx chunk] xs IH]; intros acc H.
  - injection H as <-. cbn [map]. rewrite app_nil_r. split; [reflexivity|].
    intros idx chunk Hin. inversion Hin.
  - cbn [for_each] in H.
    destruct (make_qr_image (frame_string msg_id idx total chunk)) as [img|e] eqn:Hm;
      [|discriminate].
    apply make_qr_image_ok in Hm as (_ & v & Hv & ->).
    cbn [bind] in H. apply IH in H as (-> & Hfit). split.
    + cbn [map]. rewrite <- app_assoc. cbn [app]. unfold rendered at 2. now rewrite Hv.
    + intros i c [[= -> ->] | Hin]%elem_of_cons; [congruence | now apply Hfit].
Qed.

Lemma symbols_rendered (add_labels : bool) (total : Z) (msg_id : string) (p : Z * string) :
  Ref.symbols_in (rendered add_labels total msg_id p)
  = [frame_string msg_id (fst p) total (snd p)].
Proof.
  destruct p as [idx chunk]. unfold rendered. destruct add_labels; [|reflexivity].
  unfold add_index_label. destruct (img_size _). reflexivity.
Qed.

Lemma chunk_text_empty (size : Z) : 0 < size -> chunk_text "" size = Ok [].
Proof.
  intros Hsize. unfold chunk_text. destruct (Z.leb_spec size 0) as [H|_]; [lia|].
  unfold py_range3, py_len. cbn [String.length].
  replace ((Z.of_nat 0 - 0 + size - 1) / size) with 0; [reflexivity|].
  symmetry. apply Z.div_small. lia.
Qed.

Lemma build_inv (payload : string) (chunk_size : Z) (add_labels : bool) (uuid : N)
    (img : image) :
  _build_big_qr_image payload chunk_size add_labels uuid = Ok img ->
  0 < chunk_size /\ payload <> "" /\
  exists chunks,
    chunk_text payload chunk_size = Ok chunks /\
    (forall idx chunk, (idx, chunk) ∈ enumerate chunks ->
       qr_best_fit (frame_string (str_take 8 (uuid_hex uuid)) idx (Z.of_nat (length chunks)) chunk)
       <> None) /\
    tile_images (map (rendered add_labels (Z.of_nat (length chunks)) (str_take 8 (uuid_hex uuid)))
                     (enumerate chunks)) = Ok img.
Proof.
  intros Hb. unfold _build_big_qr_image in Hb.
  assert (0 < chunk_size) as Hsize.
  { destruct (Z.ltb_spec 0 chunk_size) as [H|H]; [exact H|].
    rewrite chunk_text_nonpositive in Hb by lia. discriminate. }
  split; [exact Hsize|].
  destruct (chunk_text payload chunk_size) as [chunks|e] eqn:Hc; [|discriminate].
  change (bind (Ok chunks) ?k) with (k chunks) in Hb. cbv beta zeta in Hb.
  destruct (for_each _ (enumerate chunks) []) as [images|e] eqn:Hloop; [|discriminate].
  cbn [bind] in Hb.
  apply render_loop_ok in Hloop as (-> & Hfit). cbn [app] in Hb.
  split.
  { intros ->. rewrite chunk_text_empty in Hc by exact Hsize.
    injection Hc as <-. discriminate. }
  exists chunks. split; [reflexivity|]. split; [exact Hfit | exact Hb].
Qed.

Lemma build_symbols (payload : string) (chunk_size : Z) (add_labels : bool) (uuid : N)
    (img : image) :
  _build_big_qr_image payload chunk_size add_labels uuid = Ok img ->
  Ref.symbols_in img = frames_drawn uuid payload chunk_size /\
  forall data, data ∈ frames_drawn uuid payload chunk_size -> qr_best_fit data <> None.
Proof.
  intros (_ & _ & chunks & Hc & Hfit & Htile)%build_inv.
  unfold frames_drawn. rewrite Hc. split.
  - apply ref_symbols_tiled in Htile. rewrite Htile. clear.
    induction (enumerate chunks) as [|[idx chunk] xs IH]; [reflexivity|].
    cbn [map flat_map]. rewrite IH, symbols_rendered. reflexivity.
  - intros data (p & -> & Hp)%list_elem_of_fmap. destruct p as [idx chunk].
    now apply Hfit.
Qed.

Lemma pastes_fold_length (f : image -> Z * image -> image) (xs : list (Z * image))
    (canvas : image) :
  (forall canvas p, exists x y, f canvas p = Paste canvas x y (snd p)) ->
  length (pastes (fold_left f xs canvas)) = (length (pastes canvas) + length xs)%nat.
Proof.
  intros Hf. revert canvas. induction xs as [|p xs IH]; intros canvas.
  - cbn [fold_left length]. lia.
  - cbn [fold_left length]. rewrite IH. destruct (Hf canvas p) as (x & y & ->).
    cbn [pastes]. rewrite length_app. cbn [length]. lia.
Qed.

Lemma tile_pastes_length (images : list image) (img : image) :
  tile_images images = Ok img -> length (pastes img) = length images.
Proof.
  unfold tile_images. destruct images as [|i0 images]; [discriminate|].
  intros [= <-]. rewrite pastes_fold_length.
  - cbn [pastes length]. now rewrite enumerate_length.
  - intros canvas [i x]. eauto.
Qed.

(** X3.  When the picture of a payload is built, the payload is not
    empty and the chunk size is positive; the message id is eight
    hexadecimal digits; the canvas holds one tile per chunk, in index
    order; tile [k] is the QR symbol of the frame
    [msg_id|k|total|payload[k*size : k*size+size]] with [total] the number
    of chunks, the ceiling of [len(payload) / chunk_size], and that frame
    fits a symbol; and the frames read off the picture in that order
    reassemble to the payload (a symbol holds fewer than 4000
    characters, so index and total stay far below the digit limit of
    [int]).  Labels change none of this. *)
Theorem build_draws_frames
    (payload : string) (chunk_size : Z) (add_labels : bool) (uuid : N) (img : image) :
  _build_big_qr_image payload chunk_size add_labels uuid = Ok img ->
  let msg_id := str_take 8 (uuid_hex uuid) in
  let total := chunk_count (py_len payload) chunk_size in
  (0 < chunk_size /\ payload <> "") /\
  (String.length msg_id = 8%nat /\ str_forall is_hex_digit msg_id = true) /\
  (length (pastes img) = length (Ref.symbols_in img) /\
   Z.of_nat (length (Ref.symbols_in img)) = total) /\
  (forall (k : nat) (data : string),
     Ref.symbols_in img !! k = Some data ->
     data = frame_string msg_id (Z.of_nat k) total
              (py_slice payload (Z.of_nat k * chunk_size) (Z.of_nat k * chunk_size + chunk_size)) /\
     qr_best_fit data <> None) /\
  reassemble (map Some (Ref.symbols_in img)) = (Some payload, None).
Proof.
  intros Hb msg_id total.
  pose proof (build_symbols _ _ _ _ _ Hb) as (Hsym & Hfit).
  pose proof (build_inv _ _ _ _ _ Hb) as (Hsize & Hne & chunks & Hc & _ & Htile).
  pose proof (chunk_text_length _ _ _ Hc) as Hlen. fold total in Hlen.
  assert (Ref.symbols_in img
          = map (fun '(idx, chunk) => frame_string msg_id idx total chunk) (enumerate chunks))
    as Hsym'.
  { rewrite Hsym. unfold frames_drawn. now rewrite Hc, Hlen. }
  split; [now split|].
  split.
  { split.
    - unfold msg_id. rewrite take_length. unfold uuid_hex. now rewrite hex_fixed_length.
    - apply str_forall_take. now apply hex_fixed_is_hex. }
  split.
  { rewrite (tile_pastes_length _ _ Htile), Hsym', !length_map, enumerate_length.
    split; [reflexivity | exact Hlen]. }
  split.
  { intros k data Hk. split.
    - rewrite Hsym', list_lookup_fmap, enumerate_lookup in Hk.
      destruct (chunks !! k) as [c|] eqn:Hck; [|discriminate]. injection Hk as <-.
      now destruct (chunk_text_lookup _ _ _ _ _ Hc Hck) as (-> & _).
    - apply Hfit. rewrite <- Hsym. now apply list_elem_of_lookup_2 in Hk. }
  apply (reassemble_frames_drawn uuid payload chunk_size);
    [exact Hsize | exact Hne | exact Hfit |].
  intros symbol. rewrite Hsym, list_elem_of_fmap. split; intros (data & H1 & H2); eauto.
Qed.

Lemma maybe_encrypt_inv (rnd : entropy) (text : string) (passphrase : option string)
    (payload : string) :
  maybe_encrypt rnd text passphrase = Ok payload -> passphrase_encodable passphrase = true.
Proof.
  unfold maybe_encrypt, py_truthy. destruct passphrase as [p|]; [|reflexivity].
  destruct (String.eqb_spec p "") as [->|_]; [reflexivity|]. cbn [negb].
  unfold _get_fernet. destruct (encode_utf8 p) as [b|e] eqn:Hp; [|discriminate].
  intros _. now apply encode_utf8_inv in Hp as (Hp & _).
Qed.

Lemma encode_file_inv (rnd : entropy) (text : string) (chunk_size : Z)
    (passphrase : option string) (file_stream : file) :
  encode_text_to_big_qr_file rnd text chunk_size passphrase = Ok file_stream ->
  encodable text = true /\ passphrase_encodable passphrase = true /\
  exists img,
    _build_big_qr_image (payload_of rnd text passphrase) chunk_size true (uuid4 rnd) = Ok img /\
    file_stream = png_save img.
Proof.
  intros H.
  assert (encodable text = true) as Ht.
  { destruct (encodable text) eqn:Ht; [reflexivity|].
    rewrite encode_file_raises_text in H by exact Ht. discriminate. }
  assert (passphrase_encodable passphrase = true) as Hp.
  { unfold encode_text_to_big_qr_file in H. rewrite (wrap_encodable _ Ht) in H.
    cbn [bind] in H.
    destruct (maybe_encrypt rnd (envelope_text text) passphrase) as [payload|e] eqn:Hm;
      [|discriminate].
    exact (maybe_encrypt_inv _ _ _ _ Hm). }
  split; [exact Ht|]. split; [exact Hp|].
  rewrite (encode_file_payload _ _ _ _ Ht Hp) in H.
  destruct (_build_big_qr_image _ chunk_size true (uuid4 rnd)) as [img|e]; [|discriminate].
  injection H as <-. eauto.
Qed.

(** X4.  Encoding returns a file exactly when UTF-8 encodes the text and
    the passphrase, the chunk size is positive, the payload (the
    envelope, encrypted when a passphrase is given) is not the empty
    string and every frame of the payload fits a QR symbol.  The file is
    then the PNG of the picture built for that payload under the message
    id drawn for the call. *)
Theorem encode_succeeds_iff
    (rnd : entropy) (text : string) (chunk_size : Z) (passphrase : option string) :
  let payload := payload_of rnd text passphrase in
  ((exists file_stream,
      encode_text_to_big_qr_file rnd text chunk_size passphrase = Ok file_stream) <->
   encodable text = true /\ passphrase_encodable passphrase = true /\
   0 < chunk_size /\ payload <> "" /\
   forall data, data ∈ frames_drawn (uuid4 rnd) payload chunk_size -> qr_best_fit data <> None) /\
  (forall file_stream,
     encode_text_to_big_qr_file rnd text chunk_size passphrase = Ok file_stream ->
     exists img, _build_big_qr_image payload chunk_size true (uuid4 rnd) = Ok img /\
                 file_stream = png_save img).
Proof.
  intros payload. split; [split|].
  - intros (file_stream & H).
    apply encode_file_inv in H as (Ht & Hp & img & Hb & _). fold payload in Hb.
    pose proof (build_inv _ _ _ _ _ Hb) as (Hsize & Hne & _).
    pose proof (build_symbols _ _ _ _ _ Hb) as (_ & Hfit). auto.
  - intros (Ht & Hp & Hsize & Hne & Hfit).
    rewrite (encode_file_payload _ _ _ _ Ht Hp). fold payload.
    destruct (build_succeeds _ _ _ Hsize Hne (payload_encodable _ _ _ Ht) Hfit) as (img & ->).
    cbn [bind]. eauto.
  - intros file_stream H. now apply encode_file_inv in H as (_ & _ & H).
Qed.

End Frames.

Section Tiles.
Context `{L : Libs}.

Lemma pastes_fold_tiles (f : image -> Z * image -> image) (xs : list (Z * image))
    (canvas : image) :
  (forall canvas p, exists x y, f canvas p = Paste canvas x y (snd p)) ->
  map snd (pastes (fold_left f xs canvas)) = (map snd (pastes canvas) ++ map snd xs)%list.
Proof.
  intros Hf. revert canvas. induction xs as [|p xs IH]; intros canvas.
  - cbn [fold_left map]. now rewrite app_nil_r.
  - cbn [fold_left map]. rewrite IH. destruct (Hf canvas p) as (x & y & ->).
    cbn [pastes]. rewrite map_app. cbn [map snd]. now rewrite <- app_assoc.
Qed.

Lemma enumerate_snd {A} (xs : list A) : map snd (enumerate xs) = xs.
Proof.
  unfold enumerate, py_range. rewrite Nat2Z.id. generalize 0%nat as start.
  induction xs as [|x xs IH]; intros start; [reflexivity|].
  cbn [length seq map combine snd]. now rewrite IH.
Qed.

Lemma tile_pastes_lookup (images : list image) (img : image) (k : nat) (x y : Z)
    (tile : image) :
  tile_images images = Ok img -> pastes img !! k = Some (x, y, tile) -> images !! k = Some tile.
Proof.
  intros Htile Hk.
  assert (map snd (pastes img) = images) as <-.
  { unfold tile_images in Htile. destruct images as [|i0 images]; [discriminate|].
    injection Htile as <-. rewrite pastes_fold_tiles.
    - cbn [pastes map app]. apply enumerate_snd.
    - intros canvas [i t]. eauto. }
  rewrite list_lookup_fmap, Hk. reflexivity.
Qed.

(** X5.  The tiles of a picture.  Tile [k] of the canvas is the QR
    symbol of frame [k], a square of [(4 * version + 17 + 8) * 10] pixels
    for the version the QR library chose (ten pixels a module, a border
    of four modules).  With labels the symbol is pasted at the origin of
    a blank image of the same width and higher by a band of 24 pixels or
    a sixth of the side, whichever is more, and on it the text
    [k+1/total] is drawn: labels count from one while frames count from
    zero. *)
Theorem build_tiles
    (payload : string) (chunk_size : Z) (add_labels : bool) (uuid : N) (img : image) :
  _build_big_qr_image payload chunk_size add_labels uuid = Ok img ->
  let total := chunk_count (py_len payload) chunk_size in
  forall (k : nat) (x y : Z) (tile : image),
    pastes img !! k = Some (x, y, tile) ->
    exists data version,
      Ref.symbols_in img !! k = Some data /\
      qr_best_fit data = Some version /\
      let side := (4 * version + 17 + 2 * 4) * 10 in
      tile = if add_labels
             then DrawText (Paste (Blank side (side + Z.max 24 (side / 6))) 0 0
                                  (QRCode data side))
                           (py_str (Z.of_nat k + 1) +:+ "/" +:+ py_str total)
             else QRCode data side.
Proof.
  intros Hb total k x y tile Hk.
  pose proof (build_symbols _ _ _ _ _ Hb) as (Hsym & _).
  pose proof (build_inv _ _ _ _ _ Hb) as (_ & _ & chunks & Hc & Hfit & Htile).
  pose proof (chunk_text_length _ _ _ Hc) as Hlen. fold total in Hlen.
  rewrite Hlen in Htile, Hfit.
  apply (tile_pastes_lookup _ _ _ _ _ _ Htile) in Hk.
  rewrite list_lookup_fmap, enumerate_lookup in Hk.
  destruct (chunks !! k) as [chunk|] eqn:Hck; [|discriminate].
  assert (rendered add_labels total (str_take 8 (uuid_hex uuid)) (Z.of_nat k, chunk) = tile)
    as <-.
  { change (Some (rendered add_labels total (str_take 8 (uuid_hex uuid)) (Z.of_nat k, chunk))
            = Some tile) in Hk. congruence. }
  clear Hk.
  set (data := frame_string (str_take 8 (uuid_hex uuid)) (Z.of_nat k) total chunk).
  assert ((Z.of_nat k, chunk) ∈ enumerate chunks) as Hin.
  { apply enumerate_elem. split; [lia|]. now rewrite Nat2Z.id. }
  destruct (qr_best_fit data) as [version|] eqn:Hv; [|now destruct (Hfit _ _ Hin)].
  exists data, version. split.
  { rewrite Hsym. unfold frames_drawn. rewrite Hc, Hlen, list_lookup_fmap, enumerate_lookup, Hck.
    reflexivity. }
  split; [exact Hv|].
  unfold rendered. cbv zeta. fold data. rewrite Hv. cbn [default from_option id].
  destruct add_labels; [|reflexivity].
  unfold add_index_label. cbn [img_size]. reflexivity.
Qed.

End Tiles.

Section FrameLength.

Lemma dec_digits_grows (fuel : nat) (n : Z) (acc : string) :
  (String.length acc <= String.length (dec_digits fuel n acc))%nat.
Proof.
  revert n acc. induction fuel as [|fuel IH]; intros n acc; [reflexivity|].
  cbn [dec_digits]. cbv zeta. destruct (n <? 10).
  - cbn [String.length]. lia.
  - etransitivity; [|apply IH]. cbn [String.length]. lia.
Qed.

Lemma dec_digits_length_mono (fuel fuel' : nat) (k t : Z) (acc acc' : string) :
  (fuel <= fuel')%nat -> 0 <= k <= t ->
  (String.length acc <= String.length acc')%nat ->
  (String.length (dec_digits fuel k acc) <= String.length (dec_digits fuel' t acc'))%nat.
Proof.
  revert fuel' k t acc acc'. induction fuel as [|fuel IH]; intros fuel' k t acc acc' Hf Hk Hacc.
  - cbn [dec_digits]. etransitivity; [exact Hacc | apply dec_digits_grows].
  - destruct fuel' as [|fuel']; [lia|]. cbn [dec_digits]. cbv zeta.
    destruct (Z.ltb_spec k 10) as [Hk10|Hk10]; destruct (Z.ltb_spec t 10) as [Ht10|Ht10].
    + cbn [String.length]. lia.
    + etransitivity; [|apply dec_digits_grows]. cbn [String.length]. lia.
    + lia.
    + apply IH; [lia | | cbn [String.length]; lia].
      split; [apply Z.div_pos; lia | apply Z.div_le_mono; lia].
Qed.

Lemma py_str_length_mono (k t : Z) :
  0 <= k <= t -> (String.length (py_str k) <= String.length (py_str t))%nat.
Proof.
  intros Hk. unfold py_str.
  destruct (Z.ltb_spec k 0) as [?|_]; [lia|]. destruct (Z.ltb_spec t 0) as [?|_]; [lia|].
  unfold py_str_nonneg. apply dec_digits_length_mono; [|exact Hk | reflexivity].
  apply le_n_S, Z2Nat.inj_le; [apply Z.log2_nonneg | apply Z.log2_nonneg |].
  apply Z.log2_le_mono. lia.
Qed.

(** X6.  The length of a frame.  Frame [k] of a payload is longer than
    its chunk by the eight characters of the message id, three
    separators and the decimal digits of [k] and of the total; so no
    frame is longer than [chunk_size + 11] plus twice the number of
    digits of the total, and every frame but the last has exactly
    [chunk_size] characters of payload. *)
Theorem frame_length_bound
    (uuid : N) (payload : string) (chunk_size : Z) (k : nat) (data : string) :
  frames_drawn uuid payload chunk_size !! k = Some data ->
  let total := chunk_count (py_len payload) chunk_size in
  let chunk := py_slice payload (Z.of_nat k * chunk_size) (Z.of_nat k * chunk_size + chunk_size) in
  py_len data = 11 + py_len (py_str (Z.of_nat k)) + py_len (py_str total) + py_len chunk /\
  0 < py_len chunk <= chunk_size /\
  (Z.of_nat k + 1 < total -> py_len chunk = chunk_size) /\
  py_len data <= chunk_size + 11 + 2 * py_len (py_str total).
Proof.
  intros Hk total chunk. unfold frames_drawn in Hk.
  destruct (chunk_text payload chunk_size) as [chunks|e] eqn:Hc; [|discriminate].
  pose proof (chunk_text_length _ _ _ Hc) as Hlen. fold total in Hlen.
  rewrite list_lookup_fmap, enumerate_lookup in Hk.
  destruct (chunks !! k) as [c|] eqn:Hck; [|discriminate].
  assert (data = frame_string (str_take 8 (uuid_hex uuid)) (Z.of_nat k) total c) as ->.
  { rewrite <- Hlen.
    change (Some (frame_string (str_take 8 (uuid_hex uuid)) (Z.of_nat k)
                    (Z.of_nat (length chunks)) c) = Some data) in Hk. congruence. }
  clear Hk.
  destruct (chunk_text_lookup _ _ _ _ _ Hc Hck) as (Hslice & Hbounds & Hfull).
  fold chunk in Hslice. subst c.
  assert (py_len (frame_string (str_take 8 (uuid_hex uuid)) (Z.of_nat k) total chunk)
          = 11 + py_len (py_str (Z.of_nat k)) + py_len (py_str total) + py_len chunk) as Hdata.
  { unfold py_len. rewrite frame_string_length, take_length. unfold uuid_hex.
    rewrite hex_fixed_length. cbn [String.length Nat.add Nat.min]. lia. }
  split; [exact Hdata|]. split; [exact Hbounds|]. split.
  { intros Hlast. apply Hfull. lia. }
  rewrite Hdata.
  assert (Z.of_nat k < total) as Hkt.
  { apply lookup_lt_Some in Hck. lia. }
  pose proof (py_str_length_mono (Z.of_nat k) total ltac:(lia)) as Hdigits.
  unfold py_len in *. lia.
Qed.

End FrameLength.

Section MessageId.

Lemma hex_fixed_acc (width : nat) (n : N) (acc : string) :
  hex_fixed width n acc = hex_fixed width n "" +:+ acc.
Proof.
  revert n acc. induction width as [|w IH]; intros n acc; [reflexivity|].
  cbn [hex_fixed]. rewrite (IH _ (String _ acc)), (IH _ (String _ "")).
  now rewrite app_assoc'.
Qed.

Lemma hex_fixed_split (a b : nat) (n : N) :
  hex_fixed (a + b) n "" = hex_fixed a (n / 16 ^ N.of_nat b) "" +:+ hex_fixed b n "".
Proof.
  revert n. induction b as [|b IH]; intros n.
  - rewrite Nat.add_0_r. cbn [hex_fixed N.of_nat]. rewrite N.pow_0_r, N.div_1_r.
    now rewrite app_empty_r.
  - rewrite Nat.add_succ_r. cbn [hex_fixed].
    rewrite (hex_fixed_acc (a + b)), (hex_fixed_acc b), IH, app_assoc'.
    rewrite Nat2N.inj_succ, N.pow_succ_r', N.Div0.div_div. reflexivity.
Qed.

Lemma take_app_length (a b : string) : str_take (String.length a) (a +:+ b) = a.
Proof. induction a as [|c a IH]; [now destruct b|]. rewrite app_cons. cbn. now rewrite IH. Qed.

Lemma app_inj_length (a a' b b' : string) :
  String.length a = String.length a' -> a +:+ b = a' +:+ b' -> a = a' /\ b = b'.
Proof.
  revert a'. induction a as [|c a IH]; intros [|c' a'] Hlen Heq; try discriminate.
  - split; [reflexivity | exact Heq].
  - rewrite !app_cons in Heq. injection Heq as -> Heq. injection Hlen as Hlen.
    destruct (IH _ Hlen Heq) as (-> & ->). now split.
Qed.

Lemma hex_fixed_inj (width : nat) (n m : N) :
  hex_fixed width n "" = hex_fixed width m "" <->
  (n mod 16 ^ N.of_nat width = m mod 16 ^ N.of_nat width)%N.
Proof.
  revert n m. induction width as [|w IH]; intros n m.
  - cbn [hex_fixed N.of_nat]. rewrite N.pow_0_r, !N.mod_1_r. tauto.
  - cbn [hex_fixed]. rewrite (hex_fixed_acc w (n / 16)), (hex_fixed_acc w (m / 16)).
    rewrite Nat2N.inj_succ, N.pow_succ_r', !N.Div0.mod_mul_r.
    pose proof (N.mod_upper_bound n 16 ltac:(discriminate)) as Hn.
    pose proof (N.mod_upper_bound m 16 ltac:(discriminate)) as Hm.
    pose proof (N.mod_upper_bound (n / 16) (16 ^ N.of_nat w)
                  ltac:(apply N.pow_nonzero; discriminate)) as Hn'.
    pose proof (N.mod_upper_bound (m / 16) (16 ^ N.of_nat w)
                  ltac:(apply N.pow_nonzero; discriminate)) as Hm'.
    split.
    + intros Heq. apply app_inj_length in Heq as (Hhigh & Hlow);
        [|now rewrite !hex_fixed_length].
      apply IH in Hhigh. injection Hlow as Hlow. apply hex_digit_inj in Hlow; [|assumption..].
      now rewrite Hhigh, Hlow.
    + intros Heq.
      assert (n mod 16 = m mod 16 /\
              (n / 16) mod 16 ^ N.of_nat w = (m / 16) mod 16 ^ N.of_nat w)%N as (Hlow & Hhigh).
      { revert Heq Hn Hm. generalize (n mod 16)%N (m mod 16)%N.
        generalize ((n / 16) mod 16 ^ N.of_nat w)%N ((m / 16) mod 16 ^ N.of_nat w)%N.
        intros x y a b. lia. }
      apply IH in Hhigh. now rewrite Hhigh, Hlow.
Qed.

(** X7.  The message id is the top 32 bits of the 128-bit identifier
    drawn for the call, written as eight hexadecimal digits: two calls
    give their pictures the same message id exactly when their
    identifiers agree on those 32 bits, whatever the other 96 are. *)
Theorem msg_id_is_top_32_bits (u1 u2 : N) :
  str_take 8 (uuid_hex u1) = hex_fixed 8 (u1 / 2 ^ 96) "" /\
  ((u1 < 2 ^ 128)%N -> (u2 < 2 ^ 128)%N ->
   (str_take 8 (uuid_hex u1) = str_take 8 (uuid_hex u2) <-> (u1 / 2 ^ 96 = u2 / 2 ^ 96)%N)).
Proof.
  assert (forall u, str_take 8 (uuid_hex u) = hex_fixed 8 (u / 2 ^ 96) "") as Htake.
  { intros u. unfold uuid_hex. change 32%nat with (8 + 24)%nat. rewrite hex_fixed_split.
    change (16 ^ N.of_nat 24)%N with (2 ^ 96)%N.
    pose proof (hex_fixed_length 8 (u / 2 ^ 96) "") as Hlen.
    cbn [String.length] in Hlen. rewrite Nat.add_0_r in Hlen.
    rewrite <- Hlen at 1. apply take_app_length. }
  split; [apply Htake|].
  intros H1 H2. rewrite !Htake, hex_fixed_inj.
  change (16 ^ N.of_nat 8)%N with (2 ^ 32)%N.
  assert (forall u, (u < 2 ^ 128)%N -> (u / 2 ^ 96) mod 2 ^ 32 = u / 2 ^ 96)%N as Hsmall.
  { intros u Hu. apply N.mod_small. apply N.Div0.div_lt_upper_bound.
    change (2 ^ 96 * 2 ^ 32)%N with (2 ^ 128)%N. exact Hu. }
  now rewrite !Hsmall.
Qed.

End MessageId.

Section Decoder.
Context `{W : Lawful}.

(** X8.  Decrypting with the passphrase that encrypted gives the text
    back with no error, for a text and a passphrase that UTF-8 encodes
    and given that the cipher decrypts under the key of the passphrase
    what it encrypted under that key.  Encrypting with no passphrase or
    the empty one changes nothing, and neither does decrypting. *)
Theorem maybe_decrypt_inverts_maybe_encrypt
    (rnd : entropy) (text : string) (passphrase : option string) :
  (encodable text = true -> passphrase_encodable passphrase = true ->
   (forall p, passphrase = Some p -> p <> "" ->
      fernet_decrypt (fernet_key p) (fernet_encrypt (fernet_key p) (fernet_nonce rnd) text)
      = Plain text) ->
   exists token,
     maybe_encrypt rnd text passphrase = Ok token /\
     maybe_decrypt token passphrase = Ok (Some text, None)) /\
  (py_truthy passphrase = false ->
   maybe_encrypt rnd text passphrase = Ok text /\
   maybe_decrypt text passphrase = Ok (Some text, None)).
Proof.
  split.
  - intros Ht Hpe Hfernet. unfold maybe_encrypt.
    destruct (py_truthy passphrase) eqn:Htruthy; cbn [negb].
    2:{ exists text. split; [reflexivity|]. unfold maybe_decrypt. now rewrite Htruthy. }
    destruct passphrase as [p|]; [|discriminate].
    assert (p <> "") as Hp by (intros ->; discriminate).
    rewrite (get_fernet_encodable _ Hpe). cbn [bind]. rewrite (encode_utf8_ok _ Ht).
    eexists. split; [reflexivity|].
    rewrite (maybe_decrypt_key _ _ Hp Hpe (fernet_token_encodable _ _ _ Ht)).
    now rewrite (Hfernet p eq_refl Hp).
  - intros Hfalse. unfold maybe_encrypt, maybe_decrypt. now rewrite Hfalse.
Qed.

Lemma unwrap_cases (payload : string) :
  unwrap_and_verify_payload payload = Ok (Some payload, None, None) \/
  (exists text,
     unwrap_and_verify_payload payload = Ok (Some text, Some (sha256_hexdigest text), None)) \/
  (exists sha_stored,
     unwrap_and_verify_payload payload
     = Ok (None, Some sha_stored, Some "Integrity check failed (SHA-256 mismatch)")) \/
  (exists text,
     encodable text = false /\
     unwrap_and_verify_payload payload = Raise (UnicodeEncodeError text)).
Proof.
  unfold unwrap_and_verify_payload.
  destruct (json_loads payload) as [[| | | | |obj]|]; try (now left).
  destruct (json_get "hash" obj) as [[| | |h| |]|]; try (now left).
  destruct (json_get "text" obj) as [[| | |t| |]|]; try (now left).
  destruct (encodable t) eqn:Ht.
  - rewrite (encode_utf8_ok _ Ht). cbn [bind]. cbv zeta.
    destruct (String.eqb_spec (sha256_hexdigest t) h) as [<-|Hne]; cbn [negb].
    + right. left. eauto.
    + right. right. left. eauto.
  - rewrite (encode_utf8_raises _ Ht). do 3 right. eauto.
Qed.

(** What [maybe_decrypt] does with a payload read off a picture. *)
Lemma maybe_decrypt_cases (payload : string) (passphrase : option string) :
  encodable payload = true ->
  (exists wrapped, maybe_decrypt payload passphrase = Ok (Some wrapped, None)) \/
  (py_truthy passphrase = true /\
   maybe_decrypt payload passphrase
   = Ok (None, Some "Decryption failed. Wrong passphrase or corrupted data.")) \/
  (exists p, passphrase = Some p /\ encodable p = false /\
             maybe_decrypt payload passphrase = Raise (UnicodeEncodeError p)) \/
  (exists plain_bytes,
     py_truthy passphrase = true /\
     maybe_decrypt payload passphrase = Raise (UnicodeDecodeError plain_bytes)).
Proof.
  intros Hpay. destruct (py_truthy passphrase) eqn:Ht.
  2:{ left. exists payload. unfold maybe_decrypt. now rewrite Ht. }
  destruct passphrase as [p|]; [|discriminate].
  assert (p <> "") as Hp by (intros ->; discriminate).
  destruct (encodable p) eqn:Hpe.
  - rewrite (maybe_decrypt_key _ _ Hp Hpe Hpay).
    destruct (fernet_decrypt (fernet_key p) payload) as [plain| |plain_bytes].
    + left. eauto.
    + right. left. now split.
    + do 3 right. eauto.
  - right. right. left. exists p. split; [reflexivity|]. split; [exact Hpe|].
    unfold maybe_decrypt. rewrite Ht. cbn [negb]. unfold _get_fernet.
    now rewrite (encode_utf8_raises _ Hpe).
Qed.

Lemma reassemble_cases (decoded : list (option string)) :
  (exists payload, reassemble decoded = (Some payload, None)) \/
  reassemble decoded = (None, Some "No QR codes found.") \/
  reassemble decoded = (None, Some "Invalid QR format.") \/
  (exists missing, missing <> [] /\
     reassemble decoded = (None, Some ("Missing QR chunks: " +:+ py_repr_list missing))).
Proof.
  unfold reassemble. destruct decoded as [|s decoded]; [now right; left|].
  destruct (fold_left scan_symbol (s :: decoded) []) as [|[msg_id data] others];
    [now right; right; left|].
  cbv zeta. destruct (filter _ _) as [|i missing].
  - left. eauto.
  - right. right. right. exists (i :: missing). split; [discriminate | reflexivity].
Qed.

Lemma decode_text_or_error (file_stream : file) (passphrase : option string) :
  (exists text sha_hex,
     decode_big_qr_to_text file_stream passphrase = Ok (Some text, sha_hex, None)) \/
  (exists sha_hex err,
     decode_big_qr_to_text file_stream passphrase = Ok (None, sha_hex, Some err) /\
     py_truthy (Some err) = true) \/
  (exists e, decode_big_qr_to_text file_stream passphrase = Raise e).
Proof.
  unfold decode_big_qr_to_text.
  destruct (image_open file_stream) as [e|img]; [right; left; eauto|].
  destruct (_decode_big_image img) as [payload err] eqn:Hscan. unfold _decode_big_image in Hscan.
  destruct (reassemble_cases (decode_qr img))
    as [(payload' & Hr) | [Hr | [Hr | (missing & _ & Hr)]]];
    rewrite Hr in Hscan; injection Hscan as <- <-; try (right; left; eauto; fail).
  cbn [py_truthy from_option id].
  destruct (maybe_decrypt payload' passphrase) as [[wrapped [dec_err|]]|e];
    cbn [bind]; [| |right; right; eauto].
  { destruct (py_truthy (Some dec_err)) eqn:Hd; [right; left; eauto|].
    destruct (unwrap_cases (default "" wrapped))
      as [-> | [(text & ->) | [(sha_stored & ->) | (text & _ & ->)]]];
      cbn [bind py_truthy]; eauto 10. }
  cbn [py_truthy from_option id].
  destruct (unwrap_cases (default "" wrapped))
    as [-> | [(text & ->) | [(sha_stored & ->) | (text & _ & ->)]]];
    cbn [bind py_truthy]; eauto 10.
Qed.

(** X9.  Whatever the file and the passphrase, the decoder either
    returns a text or an error, never both and never neither, or raises
    one of three exceptions.  A hash that comes with a text is the
    SHA-256 of that text; a text without a hash is a legacy payload.  A
    hash comes with an error only for the integrity error.  Every other
    error is the invalid-image error, one of the three scan errors (no
    symbol, no frame, missing indices, which are then named), or the
    decryption error, which needs a non-empty passphrase.  The
    exceptions: [UnicodeEncodeError] for a passphrase that holds a
    surrogate, [UnicodeDecodeError] when the cipher accepts a token whose
    plaintext is not UTF-8, and [UnicodeEncodeError] for an envelope
    whose text holds a surrogate; each comes only once the picture has
    been scanned and reassembled. *)
Theorem decode_outcomes (file_stream : file) (passphrase : option string) :
  let r := decode_big_qr_to_text file_stream passphrase in
  (exists text, r = Ok (Some text, None, None)) \/
  (exists text, r = Ok (Some text, Some (sha256_hexdigest text), None)) \/
  (exists sha_stored,
     r = Ok (None, Some sha_stored, Some "Integrity check failed (SHA-256 mismatch)")) \/
  (exists err,
     r = Ok (None, None, Some err) /\
     ((exists e, image_open file_stream = inl e /\ err = "Invalid image: " +:+ e) \/
      err = "No QR codes found." \/
      err = "Invalid QR format." \/
      (exists missing, missing <> [] /\ err = "Missing QR chunks: " +:+ py_repr_list missing) \/
      (py_truthy passphrase = true /\
       err = "Decryption failed. Wrong passphrase or corrupted data."))) \/
  (exists img payload,
     image_open file_stream = inr img /\ _decode_big_image img = (Some payload, None) /\
     ((exists p, passphrase = Some p /\ p <> "" /\ encodable p = false /\
                 r = Raise (UnicodeEncodeError p)) \/
      (exists plain_bytes,
         py_truthy passphrase = true /\ r = Raise (UnicodeDecodeError plain_bytes)) \/
      (exists text, encodable text = false /\ r = Raise (UnicodeEncodeError text)))).
Proof.
  cbv zeta. unfold decode_big_qr_to_text.
  destruct (image_open file_stream) as [e|img] eqn:Hopen.
  { do 3 right. left. eexists. split; [reflexivity|]. left. eauto. }
  destruct (_decode_big_image img) as [scanned err] eqn:Hscan.
  pose proof Hscan as Hscan'. unfold _decode_big_image in Hscan'.
  destruct (reassemble_cases (decode_qr img))
    as [(payload & Hr) | [Hr | [Hr | (missing & Hne & Hr)]]];
    rewrite Hr in Hscan'; injection Hscan' as <- <-.
  2:{ do 3 right. left. eexists. split; [reflexivity|]. right. now left. }
  2:{ do 3 right. left. eexists. split; [reflexivity|]. right. right. now left. }
  2:{ do 3 right. left. eexists. split; [reflexivity|]. right. right. right. left. eauto. }
  cbn [py_truthy from_option id].
  assert (forall wrapped,
    (let r := do verified <- unwrap_and_verify_payload wrapped;
              let '(text, sha_hex, verify_err) := verified in
              if py_truthy verify_err then Ok (None, sha_hex, verify_err)
              else Ok (text, sha_hex, None) in
     (exists text, r = Ok (Some text, None, None)) \/
     (exists text, r = Ok (Some text, Some (sha256_hexdigest text), None)) \/
     (exists sha_stored,
        r = Ok (None, Some sha_stored, Some "Integrity check failed (SHA-256 mismatch)")) \/
     (exists text, encodable text = false /\ r = Raise (UnicodeEncodeError text)))) as Hunwrap.
  { intros wrapped. cbv zeta.
    destruct (unwrap_cases wrapped)
      as [-> | [(text & ->) | [(sha_stored & ->) | (text & Ht & ->)]]]; cbn [bind py_truthy];
      eauto 6. }
  destruct (maybe_decrypt_cases payload passphrase (scanned_encodable _ _ Hscan))
    as [(wrapped & ->) | [(Htruthy & ->) | [(p & -> & Hp & ->) | (plain_bytes & Htruthy & ->)]]].
  - cbn [bind py_truthy from_option id].
    destruct (Hunwrap wrapped) as [H | [H | [H | H]]]; eauto 10.
    do 4 right. exists img, payload. eauto 10.
  - cbn [bind py_truthy from_option id].
    do 3 right. left. eexists. split; [reflexivity|]. do 4 right. now split.
  - do 4 right. exists img, payload. split; [reflexivity|]. split; [exact Hscan|].
    left. exists p. split; [reflexivity|]. split; [|now split].
    intros ->. discriminate.
  - do 4 right. exists img, payload. split; [reflexivity|]. split; [exact Hscan|].
    right. left. eauto.
Qed.

End Decoder.

Section Scan.
Context `{W : Lawful}.

Lemma filter_ext_in {A} (P Q : A -> Prop) `{forall x, Decision (P x)} `{forall x, Decision (Q x)}
    (l : list A) :
  (forall x, x ∈ l -> P x <-> Q x) -> filter P l = filter Q l.
Proof.
  induction l as [|x l IH]; intros Hext; [reflexivity|].
  rewrite !filter_cons. rewrite IH by (intros y Hy; apply Hext; now right).
  pose proof (Hext x ltac:(now left)) as Hx.
  destruct (decide (P x)), (decide (Q x)); tauto.
Qed.

Lemma assemble_ext (total : Z) (sel sel' : list frame) :
  (forall i, 0 <= i < total -> text_at i sel = text_at i sel') ->
  assemble total sel = assemble total sel'.
Proof.
  intros Hext. unfold assemble, missing_indices.
  rewrite (filter_ext_in (fun i => text_at i sel = None) (fun i => text_at i sel' = None)).
  2:{ intros i Hi%py_range_elem. now rewrite Hext. }
  destruct (filter _ _); [|reflexivity].
  do 3 f_equal. apply map_ext_in. intros i Hi%list_elem_of_In%py_range_elem.
  now rewrite Hext.
Qed.

Lemma text_at_app (i : Z) (l1 l2 : list frame) :
  text_at i (l1 ++ l2) =
  match text_at i l2 with
  | Some t => Some t
  | None => text_at i l1
  end.
Proof.
  unfold text_at. rewrite fold_left_app. apply pick_fold_default.
Qed.

Lemma text_at_skip (i : Z) (l1 l2 : list frame) (g : frame) :
  frame_index g <> i -> text_at i (l1 ++ g :: l2) = text_at i (l1 ++ l2).
Proof.
  intros Hg. rewrite !text_at_app.
  change (g :: l2) with ([g] ++ l2). rewrite text_at_app.
  destruct (text_at i l2); [reflexivity|].
  unfold text_at at 1. cbn [fold_left]. unfold pick_text.
  destruct (Z.eqb_spec (frame_index g) i); [contradiction | reflexivity].
Qed.

Lemma reassemble_no_frame (decoded : list (option string)) :
  decoded <> [] -> omap parse_frame decoded = [] ->
  reassemble decoded = (None, Some "Invalid QR format.").
Proof.
  intros Hne Hnone. unfold reassemble. destruct decoded as [|s decoded]; [congruence|].
  now rewrite scan_fold_parse, Hnone.
Qed.

Lemma text_at_determined (sel : list frame) (i : Z) (f : frame) :
  (forall f g, f ∈ sel -> g ∈ sel -> frame_index f = frame_index g ->
               frame_text f = frame_text g) ->
  f ∈ sel -> frame_index f = i -> text_at i sel = Some (frame_text f).
Proof.
  intros Hcons Hf Hi. destruct (text_at i sel) as [t|] eqn:Ht.
  - apply text_at_Some in Ht as (g & Hg & Hgi & <-). f_equal. apply Hcons; congruence.
  - exfalso. rewrite text_at_None in Ht. now apply (Ht f).
Qed.

Lemma text_at_same_frames (sel sel' : list frame) (i : Z) :
  (forall f, f ∈ sel <-> f ∈ sel') ->
  (forall f g, f ∈ sel -> g ∈ sel -> frame_index f = frame_index g ->
               frame_text f = frame_text g) ->
  text_at i sel = text_at i sel'.
Proof.
  intros Hsame Hcons. destruct (text_at i sel) as [t|] eqn:Ht.
  - apply text_at_Some in Ht as (f & Hf & Hfi & <-). symmetry.
    apply text_at_determined; [|now apply Hsame | exact Hfi].
    intros f1 f2 H1 H2. apply Hcons; now apply Hsame.
  - symmetry. apply text_at_None. intros f Hf%Hsame. rewrite text_at_None in Ht. now apply Ht.
Qed.

(** X10.  When every scanned string that parses as a frame carries the
    same message id and the same total, and frames of equal index carry
    equal text, the answer depends only on which strings were scanned:
    not on their order and not on how many times each was scanned. *)
Theorem reassemble_order_independent
    (decoded decoded' : list (option string)) (msg_id : string) (total : Z) :
  (forall symbol, symbol ∈ decoded <-> symbol ∈ decoded') ->
  (forall symbol f, symbol ∈ decoded -> parse_frame symbol = Some f ->
     frame_id f = msg_id /\ frame_total f = total) ->
  (forall s1 s2 f1 f2, s1 ∈ decoded -> s2 ∈ decoded ->
     parse_frame s1 = Some f1 -> parse_frame s2 = Some f2 ->
     frame_index f1 = frame_index f2 -> frame_text f1 = frame_text f2) ->
  reassemble decoded = reassemble decoded'.
Proof.
  intros Hsame Hhead Hcons.
  assert (forall f, f ∈ omap parse_frame decoded <-> f ∈ omap parse_frame decoded') as Hframes.
  { intros f. rewrite !list_elem_of_omap. split; intros (s & Hs & Hp); exists s;
      (split; [now apply Hsame | exact Hp]). }
  assert (forall f, f ∈ omap parse_frame decoded -> frame_id f = msg_id /\ frame_total f = total)
    as Hall.
  { intros f (s & Hs & Hp)%list_elem_of_omap. eauto. }
  assert (forall f g, f ∈ omap parse_frame decoded -> g ∈ omap parse_frame decoded ->
                      frame_index f = frame_index g -> frame_text f = frame_text g) as Hcons'.
  { intros f g (s1 & Hs1 & Hp1)%list_elem_of_omap (s2 & Hs2 & Hp2)%list_elem_of_omap.
    now apply (Hcons s1 s2). }
  destruct (omap parse_frame decoded) as [|f0 rest] eqn:E;
    destruct (omap parse_frame decoded') as [|f0' rest'] eqn:E'.
  - destruct decoded as [|s l], decoded' as [|s' l']; [reflexivity | | |].
    + exfalso. pose proof (proj2 (Hsame s') ltac:(now left)) as H. inversion H.
    + exfalso. pose proof (proj1 (Hsame s) ltac:(now left)) as H. inversion H.
    + now rewrite !reassemble_no_frame.
  - exfalso. pose proof (proj2 (Hframes f0') ltac:(now left)) as H. inversion H.
  - exfalso. pose proof (proj1 (Hframes f0) ltac:(now left)) as H. inversion H.
  - rewrite (reassemble_first _ _ _ E), (reassemble_first _ _ _ E').
    destruct (Hall f0 ltac:(now left)) as (Hid & Htot).
    destruct (Hall f0' ltac:(apply Hframes; now left)) as (Hid' & Htot').
    rewrite Hid, Hid', Htot, Htot'.
    unfold frames_of. rewrite !filter_all.
    2:{ intros f Hf%Hframes. now apply Hall. }
    2:{ intros f Hf. now apply Hall. }
    apply assemble_ext. intros i _. now apply text_at_same_frames.
Qed.

(** X11.  After the first frame that parses, a frame of another message
    id, or of the selected message with an index below zero or not below
    the total of that first frame, changes nothing: the answer is the
    same as if it had not been scanned.  Its own total is never looked
    at. *)
Theorem reassemble_ignores_stray_frames
    (before after : list (option string)) (symbol : option string)
    (f0 : frame) (rest : list frame) (g : frame) :
  omap parse_frame before = f0 :: rest ->
  parse_frame symbol = Some g ->
  frame_id g <> frame_id f0 \/ frame_index g < 0 \/ frame_total f0 <= frame_index g ->
  reassemble (before ++ symbol :: after) = reassemble (before ++ after).
Proof.
  intros Hbefore Hg Hstray.
  rewrite (reassemble_first (before ++ symbol :: after) f0
             (rest ++ g :: omap parse_frame after)).
  2:{ rewrite omap_app, Hbefore.
      change (omap parse_frame (symbol :: after))
        with (match parse_frame symbol with
              | Some f => f :: omap parse_frame after
              | None => omap parse_frame after
              end).
      now rewrite Hg. }
  rewrite (reassemble_first (before ++ after) f0 (rest ++ omap parse_frame after)).
  2:{ now rewrite omap_app, Hbefore. }
  change (f0 :: rest ++ g :: omap parse_frame after)
    with ((f0 :: rest) ++ g :: omap parse_frame after).
  change (f0 :: rest ++ omap parse_frame after) with ((f0 :: rest) ++ omap parse_frame after).
  unfold frames_of. rewrite !filter_app, (filter_cons _ g).
  destruct (decide (frame_id g = frame_id f0)) as [Hid|Hid]; [|reflexivity].
  apply assemble_ext. intros i Hi. apply text_at_skip.
  destruct Hstray as [H | H]; [contradiction | lia].
Qed.

(** X12.  When the first frame that parses announces a total of zero or
    less, reassembly asks for no index at all and answers the empty
    payload with no error.  Decoded without a passphrase, the empty
    payload is not JSON and comes back as an empty legacy text: no text
    was recovered and no error is reported. *)
Theorem nonpositive_total_is_empty_payload
    (decoded : list (option string)) (f0 : frame) (rest : list frame) :
  omap parse_frame decoded = f0 :: rest ->
  frame_total f0 <= 0 ->
  reassemble decoded = (Some "", None) /\
  (json_loads "" = None ->
   forall file_stream img passphrase,
     image_open file_stream = inr img -> decode_qr img = decoded ->
     py_truthy passphrase = false ->
     decode_big_qr_to_text file_stream passphrase = Ok (Some "", None, None)).
Proof.
  intros Hparse Htotal.
  assert (reassemble decoded = (Some "", None)) as Hres.
  { rewrite (reassemble_first _ _ _ Hparse). unfold assemble, missing_indices, py_range.
    now replace (Z.to_nat (frame_total f0)) with 0%nat by lia. }
  split; [exact Hres|].
  intros Hjson file_stream img passphrase Hopen Hscan Hpass.
  unfold decode_big_qr_to_text, _decode_big_image. rewrite Hopen, Hscan, Hres.
  cbn [py_truthy from_option id]. unfold maybe_decrypt. rewrite Hpass. cbn [negb].
  cbn [bind py_truthy from_option id]. unfold unwrap_and_verify_payload. now rewrite Hjson.
Qed.

(** X13.  A passphrase on one side only, for a text and a passphrase
    that UTF-8 encodes.  A picture encrypted under a non-empty
    passphrase and decoded with no passphrase (or the empty one) is not
    refused: when the token is not JSON, as a Fernet token never is, the
    token itself comes back as the text, with no hash and no error.  A
    picture encoded with no passphrase and decoded with a non-empty one
    is refused with the decryption error when the cipher rejects the
    envelope, which is no token. *)
Theorem passphrase_on_one_side_only
    (rnd : entropy) (text : string) (chunk_size : Z) (p : string) :
  p <> "" -> encodable p = true -> encodable text = true -> 0 < chunk_size ->
  let token := fernet_encrypt (fernet_key p) (fernet_nonce rnd) (envelope_text text) in
  (carried_intact (uuid4 rnd) token chunk_size ->
   json_loads token = None ->
   exists file_stream,
     encode_text_to_big_qr_file rnd text chunk_size (Some p) = Ok file_stream /\
     decode_big_qr_to_text file_stream None = Ok (Some token, None, None) /\
     decode_big_qr_to_text file_stream (Some "") = Ok (Some token, None, None)) /\
  (carried_intact (uuid4 rnd) (envelope_text text) chunk_size ->
   fernet_decrypt (fernet_key p) (envelope_text text) = InvalidToken ->
   exists file_stream,
     encode_text_to_big_qr_file rnd text chunk_size None = Ok file_stream /\
     decode_big_qr_to_text file_stream (Some p)
     = Ok (None, None, Some "Decryption failed. Wrong passphrase or corrupted data.")).
Proof.
  intros Hp Hpe Ht Hsize token. split.
  - intros Hchan Hjson.
    assert (payload_of rnd text (Some p) = token) as Hpay.
    { unfold payload_of. apply String.eqb_neq in Hp. now rewrite Hp. }
    pose proof (payload_encodable rnd text (Some p) Ht) as Henc. rewrite Hpay in Henc.
    destruct (picture_round_trip _ _ _ Hsize Henc Hchan) as (img & Hbuild & Hopen & Hscan).
    exists (png_save img).
    split.
    { rewrite (encode_file_payload _ _ _ (Some p) Ht Hpe). now rewrite Hpay, Hbuild. }
    assert (decode_big_qr_to_text (png_save img) None = Ok (Some token, None, None)) as Hnone.
    { rewrite (decode_after_scan _ _ _ _ Hopen Hscan). cbn [maybe_decrypt py_truthy negb].
      cbn [bind py_truthy from_option id]. unfold unwrap_and_verify_payload.
      now rewrite Hjson. }
    split; [exact Hnone|]. exact Hnone.
  - intros Hchan Hreject.
    pose proof (payload_encodable rnd text None Ht) as Henc.
    change (payload_of rnd text None) with (envelope_text text) in Henc.
    destruct (picture_round_trip _ _ _ Hsize Henc Hchan) as (img & Hbuild & Hopen & Hscan).
    exists (png_save img). split.
    { rewrite (encode_file_payload _ _ _ None Ht eq_refl).
      change (payload_of rnd text None) with (envelope_text text). now rewrite Hbuild. }
    rewrite (decode_after_scan _ _ _ _ Hopen Hscan).
    now rewrite (maybe_decrypt_invalid _ _ Hp Hpe Henc Hreject).
Qed.

End Scan.


(* ================================================================== *)
(** * Properties of the HTTP layer *)
(* ================================================================== *)

Section Base64.

Lemma b64_digit_table :
  forallb (fun n => forallb (fun m => implb (Ascii.eqb (b64_digit (N.of_nat n)) (b64_digit (N.of_nat m)))
                                            (Nat.eqb n m))
                            (seq 0 64)
                    && is_b64_char (b64_digit (N.of_nat n))
                    && negb (Ascii.eqb (b64_digit (N.of_nat n)) "="))
          (seq 0 64) = true.
Proof. vm_compute. reflexivity. Qed.

Lemma b64_digit_facts (n : N) :
  (n < 64)%N ->
  is_b64_char (b64_digit n) = true /\ b64_digit n <> "="%char /\
  forall m, (m < 64)%N -> b64_digit n = b64_digit m -> n = m.
Proof.
  intros Hn. pose proof b64_digit_table as Htable. rewrite forallb_forall in Htable.
  specialize (Htable (N.to_nat n) ltac:(apply in_seq; lia)). rewrite N2Nat.id in Htable.
  apply andb_prop in Htable as [Htable Hpad]. apply andb_prop in Htable as [Hinj Hchar].
  split; [exact Hchar|]. split.
  { intros Heq. rewrite Heq in Hpad. discriminate. }
  intros m Hm Heq. rewrite forallb_forall in Hinj.
  specialize (Hinj (N.to_nat m) ltac:(apply in_seq; lia)).
  rewrite N2Nat.id, Heq, Ascii.eqb_refl in Hinj.
  cbn [implb] in Hinj. apply Nat.eqb_eq in Hinj. lia.
Qed.

Lemma N_of_ascii_inj (a b : ascii) : N_of_ascii a = N_of_ascii b -> a = b.
Proof. intros Heq. rewrite <- (ascii_N_embedding a), <- (ascii_N_embedding b). now rewrite Heq. Qed.

(** The six-bit groups of one, two or three bytes. *)
Lemma sextet_bounds (a b c : ascii) :
  let a := N_of_ascii a in
  let b := N_of_ascii b in
  let c := N_of_ascii c in
  (a / 4 < 64 /\ a mod 4 * 16 < 64 /\ a mod 4 * 16 + b / 16 < 64 /\
   b mod 16 * 4 < 64 /\ b mod 16 * 4 + c / 64 < 64 /\ c mod 64 < 64)%N.
Proof.
  intros x y z.
  pose proof (N_ascii_bounded a) as Ha. pose proof (N_ascii_bounded b) as Hb.
  pose proof (N_ascii_bounded c) as Hc. fold x in Ha. fold y in Hb. fold z in Hc.
  assert (x / 4 < 64)%N by (apply N.Div0.div_lt_upper_bound; exact Ha).
  assert (y / 16 < 16)%N by (apply N.Div0.div_lt_upper_bound; exact Hb).
  assert (z / 64 < 4)%N by (apply N.Div0.div_lt_upper_bound; exact Hc).
  pose proof (N.mod_upper_bound x 4 ltac:(discriminate)).
  pose proof (N.mod_upper_bound y 16 ltac:(discriminate)).
  pose proof (N.mod_upper_bound z 64 ltac:(discriminate)).
  lia.
Qed.

Lemma split_sum (k x y x' y' : N) :
  (y < k -> y' < k -> x * k + y = x' * k + y' -> x = x' /\ y = y')%N.
Proof.
  intros Hy Hy' Heq. assert (k <> 0)%N as Hk by lia.
  assert (x = x')%N as ->.
  { apply (f_equal (fun n => n / k)%N) in Heq.
    rewrite !N.div_add_l, !N.div_small in Heq by assumption. lia. }
  split; [reflexivity | lia].
Qed.

Lemma join_divmod (k : N) (a a' : ascii) :
  (k <> 0 -> N_of_ascii a / k = N_of_ascii a' / k ->
   N_of_ascii a mod k = N_of_ascii a' mod k -> a = a')%N.
Proof.
  intros Hk Hd Hm. apply N_of_ascii_inj.
  rewrite (N.div_mod (N_of_ascii a) k), (N.div_mod (N_of_ascii a') k) by exact Hk.
  now rewrite Hd, Hm.
Qed.

Lemma string_triples (P : string -> Prop) :
  P "" ->
  (forall a, P (String a "")) ->
  (forall a b, P (String a (String b ""))) ->
  (forall a b c rest, P rest -> P (String a (String b (String c rest)))) ->
  forall s, P s.
Proof.
  intros H0 H1 H2 H3 s.
  assert (P s /\ (forall a, P (String a s)) /\ (forall a b, P (String a (String b s))))
    as (Hs & _).
  { induction s as [|c s (IHs & IH1 & IH2)]; [now auto|]. auto. }
  exact Hs.
Qed.

Lemma b64encode_length (data : string) :
  String.length (b64encode data) = (4 * ((String.length data + 2) / 3))%nat.
Proof.
  induction data as [| a | a b | a b c rest IH] using string_triples; try reflexivity.
  cbn [b64encode String.length]. rewrite IH.
  replace (S (S (S (String.length rest))) + 2)%nat with (1 * 3 + (String.length rest + 2))%nat by lia.
  rewrite Nat.div_add_l by lia. lia.
Qed.

Lemma b64encode_chars (data : string) : str_forall is_b64_char (b64encode data) = true.
Proof.
  induction data as [| a | a b | a b c rest IH] using string_triples; [reflexivity | | |].
  - destruct (sextet_bounds a a a) as (B1 & B2 & _).
    cbn [b64encode str_forall]. cbv zeta.
    rewrite (proj1 (b64_digit_facts _ B1)), (proj1 (b64_digit_facts _ B2)). reflexivity.
  - destruct (sextet_bounds a b b) as (B1 & _ & B3 & B4 & _).
    cbn [b64encode str_forall]. cbv zeta.
    rewrite (proj1 (b64_digit_facts _ B1)), (proj1 (b64_digit_facts _ B3)),
      (proj1 (b64_digit_facts _ B4)). reflexivity.
  - destruct (sextet_bounds a b c) as (B1 & _ & B3 & _ & B5 & B6).
    cbn [b64encode str_forall]. cbv zeta.
    rewrite (proj1 (b64_digit_facts _ B1)), (proj1 (b64_digit_facts _ B3)),
      (proj1 (b64_digit_facts _ B5)), (proj1 (b64_digit_facts _ B6)). exact IH.
Qed.

Lemma b64_pad_l (n : N) : (n < 64)%N -> "="%char = b64_digit n -> False.
Proof. intros Hn Heq. now apply (b64_digit_facts n Hn). Qed.

Lemma b64_pad_r (n : N) : (n < 64)%N -> b64_digit n = "="%char -> False.
Proof. intros Hn Heq. now apply (b64_digit_facts n Hn). Qed.

Lemma b64_digit_inj (n m : N) : (n < 64)%N -> (m < 64)%N -> b64_digit n = b64_digit m -> n = m.
Proof. intros Hn Hm. now apply b64_digit_facts. Qed.

Lemma b64encode_inj (data data' : string) : b64encode data = b64encode data' -> data = data'.
Proof.
  revert data'.
  induction data as [| a | a b | a b c rest IH] using string_triples;
    intros data'; destruct data' as [|a' [|b' [|c' rest']]];
    cbn [b64encode]; cbv zeta; intros Heq; try discriminate Heq; try reflexivity.
  all: pose proof (sextet_bounds a a a) as (A1 & A2 & _).
  all: pose proof (sextet_bounds a' a' a') as (A1' & A2' & _).
  - (* one byte, one byte *)
    injection Heq as H1 H2. apply b64_digit_inj in H1, H2; try assumption.
    f_equal. apply (join_divmod 4); [discriminate | exact H1 | lia].
  - injection Heq as _ _ H3. exfalso.
    destruct (sextet_bounds a' b' b') as (_ & _ & _ & B4 & _). exact (b64_pad_l _ B4 H3).
  - injection Heq as _ _ H3 _. exfalso.
    destruct (sextet_bounds a' b' c') as (_ & _ & _ & _ & B5 & _). exact (b64_pad_l _ B5 H3).
  - injection Heq as _ _ H3. exfalso.
    destruct (sextet_bounds a b b) as (_ & _ & _ & B4 & _). exact (b64_pad_r _ B4 H3).
  - (* two bytes, two bytes *)
    destruct (sextet_bounds a b b) as (_ & _ & B3 & B4 & _).
    destruct (sextet_bounds a' b' b') as (_ & _ & B3' & B4' & _).
    injection Heq as H1 H2 H3. apply b64_digit_inj in H1, H2, H3; try assumption.
    pose proof (N_ascii_bounded b) as Hb. pose proof (N_ascii_bounded b') as Hb'.
    destruct (split_sum 16 (N_of_ascii a mod 4) (N_of_ascii b / 16)
                (N_of_ascii a' mod 4) (N_of_ascii b' / 16)) as [H2a H2b];
      [apply N.Div0.div_lt_upper_bound; exact Hb
      | apply N.Div0.div_lt_upper_bound; exact Hb' | exact H2 |].
    f_equal; [apply (join_divmod 4); [discriminate | exact H1 | exact H2a]|].
    f_equal. apply (join_divmod 16); [discriminate | exact H2b | lia].
  - injection Heq as _ _ _ H4 _. exfalso.
    destruct (sextet_bounds a' b' c') as (_ & _ & _ & _ & _ & B6). exact (b64_pad_l _ B6 H4).
  - injection Heq as _ _ H3 _. exfalso.
    destruct (sextet_bounds a b c) as (_ & _ & _ & _ & B5 & _). exact (b64_pad_r _ B5 H3).
  - injection Heq as _ _ _ H4 _. exfalso.
    destruct (sextet_bounds a b c) as (_ & _ & _ & _ & _ & B6). exact (b64_pad_r _ B6 H4).
  - (* three bytes, three bytes *)
    destruct (sextet_bounds a b c) as (_ & _ & B3 & _ & B5 & B6).
    destruct (sextet_bounds a' b' c') as (_ & _ & B3' & _ & B5' & B6').
    injection Heq as H1 H2 H3 H4 Hrest.
    apply b64_digit_inj in H1, H2, H3, H4; try assumption.
    apply IH in Hrest as ->.
    pose proof (N_ascii_bounded b) as Hb. pose proof (N_ascii_bounded b') as Hb'.
    pose proof (N_ascii_bounded c) as Hc. pose proof (N_ascii_bounded c') as Hc'.
    destruct (split_sum 16 (N_of_ascii a mod 4) (N_of_ascii b / 16)
                (N_of_ascii a' mod 4) (N_of_ascii b' / 16)) as [H2a H2b];
      [apply N.Div0.div_lt_upper_bound; exact Hb
      | apply N.Div0.div_lt_upper_bound; exact Hb' | exact H2 |].
    destruct (split_sum 4 (N_of_ascii b mod 16) (N_of_ascii c / 64)
                (N_of_ascii b' mod 16) (N_of_ascii c' / 64)) as [H3a H3b];
      [apply N.Div0.div_lt_upper_bound; exact Hc
      | apply N.Div0.div_lt_upper_bound; exact Hc' | exact H3 |].
    f_equal; [apply (join_divmod 4); [discriminate | exact H1 | exact H2a]|].
    f_equal; [apply (join_divmod 16); [discriminate | exact H2b | exact H3a]|].
    f_equal. apply (join_divmod 64); [discriminate | exact H3b | exact H4].
Qed.

End Base64.

Section Strip.
Context `{Alpha : Alphabet}.

Lemma encodable_lstrip (s : string) : encodable s = true -> encodable (py_lstrip s) = true.
Proof.
  induction s as [|c s IH]; [reflexivity|]. cbn [py_lstrip].
  destruct (is_strip_space c); [|intros Hs; exact Hs].
  cbn [encodable]. intros [_ Hs]%andb_true_iff. now apply IH.
Qed.

Lemma encodable_rstrip (s : string) : encodable s = true -> encodable (py_rstrip s) = true.
Proof.
  induction s as [|c s IH]; [reflexivity|]. cbn [py_rstrip encodable].
  intros [Hc Hs]%andb_true_iff. specialize (IH Hs).
  destruct (py_rstrip s) as [|k kept].
  - destruct (is_strip_space c); [reflexivity|]. cbn [encodable]. now rewrite Hc.
  - change (encodable (String c (String k kept)))
      with (negb (is_surrogate c) && encodable (String k kept)). now rewrite Hc, IH.
Qed.

Lemma encodable_strip (s : string) : encodable s = true -> encodable (py_strip s) = true.
Proof. intros Hs. now apply encodable_rstrip, encodable_lstrip. Qed.

End Strip.

Section Api.
Context `{W : Lawful} {H : Host}.

Lemma encode_file_nonpositive (rnd : entropy) (text : string) (chunk_size : Z)
    (passphrase : option string) (buf : file) :
  chunk_size <= 0 -> encode_text_to_big_qr_file rnd text chunk_size passphrase <> Ok buf.
Proof.
  intros Hsize Henc. apply encode_file_inv in Henc as (_ & _ & img & Hb & _).
  apply build_inv in Hb as (Hpos & _). lia.
Qed.

Lemma body_dict (req : request) (members : list (string * pyval)) :
  get_json req = PyDict members ->
  (if val_truthy (get_json req) then get_json req else PyDict []) = PyDict members.
Proof. intros ->. now destruct members. Qed.

Lemma json_passphrase_cases (members : list (string * pyval)) :
  json_passphrase members = PyNone \/
  val_truthy (json_passphrase members) = true.
Proof.
  unfold json_passphrase. cbv zeta.
  destruct (val_truthy (default PyNone (od_get "passphrase" members))) eqn:Hv; auto.
Qed.

Lemma encode_call_str (rnd : entropy) (text : string) (chunk_size : Z) (v : pyval)
    (passphrase : option string) :
  v = PyNone /\ passphrase = None \/
  (exists p, v = PyStr p /\ p <> "" /\ passphrase = Some p) ->
  encode_call rnd (PyStr text) chunk_size v
  = match encode_text_to_big_qr_file rnd text chunk_size passphrase with
    | Ok buf => inr buf
    | Raise e => inl (Codec e)
    end.
Proof.
  intros [(-> & ->) | (p & -> & Hp & ->)]; [reflexivity|].
  unfold encode_call. cbn [val_truthy]. apply String.eqb_neq in Hp. now rewrite Hp.
Qed.

Lemma encode_call_file (rnd : entropy) (data : pyval) (chunk_size : Z) (v : pyval) (buf : file) :
  v = PyNone \/ val_truthy v = true ->
  encode_call rnd data chunk_size v = inr buf ->
  exists text passphrase,
    data = PyStr text /\
    (v = PyNone /\ passphrase = None \/
     exists p, v = PyStr p /\ p <> "" /\ passphrase = Some p) /\
    encode_text_to_big_qr_file rnd text chunk_size passphrase = Ok buf.
Proof.
  intros Hv Hcall. unfold encode_call in Hcall.
  destruct data as [| | | |text| |]; try discriminate. exists text.
  destruct Hv as [-> | Hv].
  - exists None. cbn [val_truthy negb] in Hcall. split; [reflexivity|]. split; [now left|].
    destruct (encode_text_to_big_qr_file rnd text chunk_size None); congruence.
  - rewrite Hv in Hcall. cbn [negb] in Hcall.
    destruct v as [| | | |p| |];
      try (destruct (wrap_payload_with_checksum text); discriminate).
    exists (Some p).
    split; [reflexivity|]. split.
    { right. exists p. split; [reflexivity|]. split; [|reflexivity]. intros ->. discriminate. }
    destruct (encode_text_to_big_qr_file rnd text chunk_size (Some p)); congruence.
Qed.

(** X14.  The API encoder sends a file exactly when the JSON body is an
    object whose [data] is a non-empty string, whose [chunk_size] (500
    when absent) converts with [int], whose [passphrase] is absent, false
    or a string, and the service encodes that text; the file is the one
    the service returned, sent as the attachment [multi_qr.png] of type
    [image/png]. *)
Theorem encode_api_sends_file_iff
    (rnd : entropy) (req : request) (buf : file)
    (mimetype : string) (as_attachment : bool) (download_name : string) :
  encode_api rnd req = Returns (send_file buf mimetype as_attachment download_name) <->
  (mimetype = "image/png" /\ as_attachment = true /\ download_name = "multi_qr.png") /\
  exists members text chunk_size passphrase,
    get_json req = PyDict members /\
    od_get "data" members = Some (PyStr text) /\ text <> "" /\
    json_chunk_size members = Returns chunk_size /\
    (json_passphrase members = PyNone /\ passphrase = None \/
     exists p, json_passphrase members = PyStr p /\ p <> "" /\ passphrase = Some p) /\
    encode_text_to_big_qr_file rnd text chunk_size passphrase = Ok buf.
Proof.
  split.
  - unfold encode_api.
    destruct (val_truthy (get_json req)) eqn:Hbody.
    2:{ cbn. discriminate. }
    destruct (get_json req) as [| | | | | |members] eqn:Hjson; try discriminate.
    destruct (json_chunk_size members) as [chunk_size|e] eqn:Hint; [|discriminate].
    cbn [view_bind].
    destruct (val_truthy (default PyNone (od_get "data" members))) eqn:Hdata; [|discriminate].
    cbn [negb].
    destruct (encode_call _ _ _ _) as [e|buf'] eqn:Hcall; [discriminate|].
    intros [= -> <- <- <-]. split; [auto|].
    apply encode_call_file in Hcall as (text & passphrase & Hd & Hpass & Henc);
      [|apply json_passphrase_cases].
    exists members, text, chunk_size, passphrase.
    split; [reflexivity|].
    assert (od_get "data" members = Some (PyStr text)) as Hget.
    { destruct (od_get "data" members); [cbn in Hd; congruence | discriminate]. }
    split; [exact Hget|]. split.
    { intros ->. rewrite Hget in Hdata. discriminate. }
    auto.
  - intros ((-> & -> & ->) & members & text & chunk_size & passphrase
            & Hjson & Hdata & Htext & Hint & Hpass & Henc).
    unfold encode_api. rewrite (body_dict _ _ Hjson), Hint. cbn [view_bind].
    rewrite Hdata. cbn [default from_option id val_truthy].
    apply String.eqb_neq in Htext. rewrite Htext. cbn [negb].
    now rewrite (encode_call_str rnd text chunk_size _ passphrase Hpass), Henc.
Qed.

(** X15.  The API encoder converts [chunk_size] before it looks at
    [data], and outside its [try]: when [int] refuses the value the
    exception leaves the handler, even when [data] is missing.  A body
    that is true and not an object is refused the same way, by the
    [AttributeError] of [.get].  A [data] that is true and not a string
    is answered, whatever the chunk size, with the message of the
    [AttributeError] that [.encode] raises on it, and a [data] that
    holds a surrogate, whatever the chunk size and the passphrase, with
    the message of its [UnicodeEncodeError].  When the chunk size
    converts to zero or less no file is ever sent; the answer is a 400
    with one [error]: the request for [data] when [data] is missing or
    false, and, when [data] is a non-empty string that UTF-8 encodes and
    the passphrase is absent, false or a string, [chunk_size must be
    positive], or the message of the [UnicodeEncodeError] of a
    passphrase that holds a surrogate. *)
Theorem encode_api_rejections (rnd : entropy) (req : request) :
  (val_truthy (get_json req) = true -> (forall members, get_json req <> PyDict members) ->
   encode_api rnd req = Raises (AttributeError (type_name (get_json req)) "get")) /\
  (forall members,
     get_json req = PyDict members \/ val_truthy (get_json req) = false /\ members = [] ->
     (forall e, json_chunk_size members = Raises e -> encode_api rnd req = Raises e) /\
     (forall chunk_size,
        json_chunk_size members = Returns chunk_size ->
        (val_truthy (default PyNone (od_get "data" members)) = false ->
         encode_api rnd req
         = Returns (jsonify [("error", JString "Provide 'data' in JSON body.")] 400)) /\
        (forall v, od_get "data" members = Some v -> val_truthy v = true ->
                   (forall text, v <> PyStr text) ->
         encode_api rnd req
         = Returns (jsonify [("error", JString ("'" +:+ type_name v
                                                +:+ "' object has no attribute 'encode'"))]
                            400)) /\
        (forall text, od_get "data" members = Some (PyStr text) -> encodable text = false ->
         encode_api rnd req
         = Returns (jsonify [("error", JString (encode_error_message text))] 400)) /\
        (chunk_size <= 0 ->
         (exists msg, encode_api rnd req = Returns (jsonify [("error", JString msg)] 400)) /\
         forall text,
           od_get "data" members = Some (PyStr text) -> text <> "" ->
           encodable text = true ->
           (json_passphrase members = PyNone ->
            encode_api rnd req
            = Returns (jsonify [("error", JString "chunk_size must be positive")] 400)) /\
           (forall p, json_passphrase members = PyStr p ->
            encode_api rnd req
            = Returns (jsonify [("error",
                                 JString (if encodable p then "chunk_size must be positive"
                                          else encode_error_message p))] 400))))).
Proof.
  split.
  { intros Hbody Hnot. unfold encode_api. rewrite Hbody.
    destruct (get_json req) as [| | | | | |members]; try reflexivity.
    now destruct (Hnot members). }
  intros members Hmembers.
  assert ((if val_truthy (get_json req) then get_json req else PyDict []) = PyDict members)
    as Hpayload.
  { destruct Hmembers as [Hjson | (-> & ->)]; [now apply body_dict | reflexivity]. }
  unfold encode_api. rewrite Hpayload. clear Hpayload Hmembers.
  split; [now intros e ->|].
  intros chunk_size ->. cbn [view_bind]. split; [now intros ->|].
  split.
  { intros v -> Hv Hnot. cbn [default from_option id]. rewrite Hv. cbn [negb].
    destruct v as [| | | |text| |]; try reflexivity. now destruct (Hnot text). }
  split.
  { intros text -> Hsur. cbn [default from_option id val_truthy].
    destruct (String.eqb_spec text "") as [->|_]; [discriminate|]. cbn [negb].
    unfold encode_call.
    destruct (negb (val_truthy (json_passphrase members)));
      [now rewrite encode_file_raises_text|].
    destruct (json_passphrase members);
      rewrite ?encode_file_raises_text, ?wrap_raises by exact Hsur; reflexivity. }
  intros Hsize.
  split.
  - destruct (val_truthy (default PyNone (od_get "data" members))); cbn [negb]; [|eauto].
    destruct (encode_call _ _ _ _) as [e|buf] eqn:Hcall; [eauto|].
    apply encode_call_file in Hcall as (text & passphrase & _ & _ & Henc);
      [|apply json_passphrase_cases].
    now apply encode_file_nonpositive in Henc.
  - intros text Hdata Htext Henc. rewrite Hdata. cbn [default from_option id val_truthy].
    apply String.eqb_neq in Htext. rewrite Htext. cbn [negb].
    assert (forall passphrase, passphrase_encodable passphrase = true ->
              encode_text_to_big_qr_file rnd text chunk_size passphrase
              = Raise (ValueError "chunk_size must be positive")) as Hraise.
    { intros passphrase Hpe. rewrite (encode_file_payload _ _ _ _ Henc Hpe).
      unfold _build_big_qr_image. now rewrite chunk_text_nonpositive. }
    split.
    + intros Hp.
      rewrite (encode_call_str rnd text chunk_size _ None), Hraise;
        [reflexivity | reflexivity | now left].
    + intros p Hp. destruct (String.eqb_spec p "") as [->|Hne].
      * destruct (json_passphrase_cases members) as [Hnone | Htrue]; [congruence|].
        rewrite Hp in Htrue. discriminate.
      * rewrite (encode_call_str rnd text chunk_size _ (Some p)) by (right; eauto).
        destruct (encodable p) eqn:Hpe.
        -- now rewrite Hraise.
        -- now rewrite (encode_file_raises_passphrase _ _ _ _ Henc Hpe).
Qed.

End Api.

Section Handlers.
Context `{W : Lawful} {H : Host}.

Lemma encode_text_to_big_qr_is_base64
    (rnd : entropy) (text : string) (chunk_size : Z) (passphrase : option string) :
  (forall e, encode_text_to_big_qr rnd text chunk_size passphrase = Raise e ->
             encode_text_to_big_qr_file rnd text chunk_size passphrase = Raise e) /\
  (forall b64,
     encode_text_to_big_qr rnd text chunk_size passphrase = Ok b64 ->
     exists buf, encode_text_to_big_qr_file rnd text chunk_size passphrase = Ok buf /\
                 b64 = b64encode (getvalue buf)).
Proof.
  unfold encode_text_to_big_qr, encode_text_to_big_qr_file.
  destruct (wrap_payload_with_checksum text) as [wrapped|e0]; cbn [bind];
    [|split; [intros e [= <-]; reflexivity | discriminate]].
  destruct (maybe_encrypt rnd wrapped passphrase) as [payload|e0]; cbn [bind];
    [|split; [intros e [= <-]; reflexivity | discriminate]].
  destruct (_build_big_qr_image _ chunk_size true (uuid4 rnd)) as [img|e0]; cbn [bind].
  - split; [discriminate|]. intros b64 [= <-]. eauto.
  - split; [intros e [= <-]; reflexivity | discriminate].
Qed.

(** X16.  The base64 encoder of the web page fails exactly when the
    file encoder fails, with the same exception, and otherwise returns
    the base64 text of the bytes of the file the file encoder returns:
    four characters for every three bytes, rounded up, all of them
    letters, digits, [+], [/] or the padding [=], and no other bytes
    have that text. *)
Theorem encode_text_to_big_qr_is_base64_of_file
    (rnd : entropy) (text : string) (chunk_size : Z) (passphrase : option string) :
  (forall e, encode_text_to_big_qr rnd text chunk_size passphrase = Raise e <->
             encode_text_to_big_qr_file rnd text chunk_size passphrase = Raise e) /\
  (forall b64,
     encode_text_to_big_qr rnd text chunk_size passphrase = Ok b64 <->
     exists buf, encode_text_to_big_qr_file rnd text chunk_size passphrase = Ok buf /\
                 b64 = b64encode (getvalue buf)) /\
  (forall buf,
     encode_text_to_big_qr_file rnd text chunk_size passphrase = Ok buf ->
     let b64 := b64encode (getvalue buf) in
     Z.of_nat (String.length b64) = 4 * ((py_len (getvalue buf) + 2) / 3) /\
     str_forall is_b64_char b64 = true /\
     forall data, b64encode data = b64 -> data = getvalue buf).
Proof.
  unfold encode_text_to_big_qr, encode_text_to_big_qr_file.
  assert (forall e0 : exn,
            (forall e, @Raise string e0 = Raise e <-> @Raise file e0 = Raise e) /\
            (forall b64 : string, Raise e0 = Ok b64 <->
               exists buf, @Raise file e0 = Ok buf /\ b64 = b64encode (getvalue buf)) /\
            (forall buf, @Raise file e0 = Ok buf ->
               let b64 := b64encode (getvalue buf) in
               Z.of_nat (String.length b64) = 4 * ((py_len (getvalue buf) + 2) / 3) /\
               str_forall is_b64_char b64 = true /\
               forall data, b64encode data = b64 -> data = getvalue buf)) as Hfails.
  { intros e0. split; [intros e; split; intros [= <-]; reflexivity|].
    split; [|discriminate].
    intros b64. split; [discriminate | intros (buf & Hbuf & _); discriminate]. }
  destruct (wrap_payload_with_checksum text) as [wrapped|e0]; cbn [bind]; [|apply Hfails].
  destruct (maybe_encrypt rnd wrapped passphrase) as [payload|e0]; cbn [bind];
    [|apply Hfails].
  destruct (_build_big_qr_image _ chunk_size true (uuid4 rnd)) as [img|e0]; cbn [bind].
  - split; [intros e; split; discriminate|].
    split.
    + intros b64. split.
      * intros [= <-]. eauto.
      * intros (buf & [= <-] & ->). reflexivity.
    + intros buf [= <-]. split; [|split].
      * rewrite b64encode_length. unfold py_len.
        rewrite Nat2Z.inj_mul, Nat2Z.inj_div, Nat2Z.inj_add. reflexivity.
      * apply b64encode_chars.
      * intros data. apply b64encode_inj.
  - apply Hfails.
Qed.

Lemma decode_error_shown (file_stream : file) (passphrase : option string)
    (text sha_hex err : option string) :
  decode_big_qr_to_text file_stream passphrase = Ok (text, sha_hex, err) ->
  (if py_truthy err then err else None) = err.
Proof.
  intros Hdec.
  destruct (decode_text_or_error file_stream passphrase)
    as [(t & h & Hr) | [(h & e & Hr & He) | (e & Hr)]];
    rewrite Hr in Hdec; [| |discriminate]; injection Hdec as <- <- <-; [reflexivity|].
  now rewrite He.
Qed.

Lemma py_strip_empty : py_strip "" = "".
Proof. reflexivity. Qed.

Lemma decode_normalised (file_stream : file) (q : option string) :
  decode_big_qr_to_text file_stream
    (if py_truthy (py_or q None) then py_strip <$> py_or q None else py_or q None)
  = decode_big_qr_to_text file_stream (py_or (Some (py_strip (default "" q))) None).
Proof.
  destruct q as [s|]; [|reflexivity].
  change (default "" (Some s)) with s.
  unfold py_or, py_truthy.
  destruct (String.eqb_spec s "") as [->|Hs]; cbn [negb]; [now rewrite py_strip_empty|].
  apply String.eqb_neq in Hs. rewrite Hs. cbn [negb].
  change (py_strip <$> Some s) with (Some (py_strip s)).
  destruct (String.eqb_spec (py_strip s) "") as [->|Hs']; cbn [negb]; reflexivity.
Qed.

(** X17.  The two decoding endpoints, sent the same named upload and
    form (and no passphrase in the query string), call the service
    decoder on the upload with the stripped passphrase of the form, or
    none when that is empty.  When the decoder returns they report the
    same outcome: the page shows its text, hash and error, and the API
    answers 400 with the error and the hash when there is an error, 200
    with the text and the hash otherwise.  When the decoder raises they
    part: the page catches the exception and shows its message after
    [Failed to decode: ], with no text and no hash, and out of the API
    handler, which catches nothing, the exception goes on. *)
Theorem decode_endpoints_agree (rnd : entropy) (req : request) (file : upload) :
  method req = "POST" ->
  od_get "mode" (form req) = Some "decode" ->
  od_get "file" (files req) = Some file ->
  py_truthy (filename file) = true ->
  od_get "passphrase" (args req) = None ->
  (exists text sha_hex err,
     decode_big_qr_to_text (stream file) (form_passphrase req) = Ok (text, sha_hex, err) /\
     app_view_page rnd req
     = Returns {| encoded_image := None; decoded_text := text; decoded_hash := sha_hex;
                  encode_error := None; decode_error := err |} /\
     decode_api req
     = Returns match err with
               | Some e => jsonify [("error", JString e); ("sha256", json_of sha_hex)] 400
               | None => jsonify [("data", json_of text); ("sha256", json_of sha_hex)] 200
               end) \/
  (exists e,
     decode_big_qr_to_text (stream file) (form_passphrase req) = Raise e /\
     app_view_page rnd req
     = Returns {| encoded_image := None; decoded_text := None; decoded_hash := None;
                  encode_error := None;
                  decode_error := Some ("Failed to decode: " +:+ str_of_exn e) |} /\
     decode_api req = Raises (ServiceError e)).
Proof.
  intros Hmethod Hmode Hfile Hname Hargs.
  assert (app_view_page rnd req =
          match decode_big_qr_to_text (stream file) (form_passphrase req) with
          | Ok (text, sha_hex, err) =>
              Returns {| encoded_image := None; decoded_text := text; decoded_hash := sha_hex;
                         encode_error := None;
                         decode_error := if py_truthy err then err else None |}
          | Raise e =>
              Returns {| encoded_image := None; decoded_text := None; decoded_hash := None;
                         encode_error := None;
                         decode_error := Some ("Failed to decode: " +:+ str_of_exn e) |}
          end) as Hpage.
  { unfold app_view_page. rewrite Hmethod, Hmode, Hfile, Hname.
    cbn [String.eqb Ascii.eqb Bool.eqb].
    rewrite bool_decide_eq_false_2 by discriminate.
    rewrite bool_decide_eq_true_2 by reflexivity. reflexivity. }
  assert (decode_api req =
          match decode_big_qr_to_text (stream file) (form_passphrase req) with
          | Ok (text, sha_hex, err) =>
              if py_truthy err then
                Returns (jsonify [("error", json_of err); ("sha256", json_of sha_hex)] 400)
              else
                Returns (jsonify [("data", json_of text); ("sha256", json_of sha_hex)] 200)
          | Raise e => Raises (ServiceError e)
          end) as Hapi.
  { unfold decode_api. rewrite Hfile, Hargs. cbv zeta.
    rewrite decode_normalised. reflexivity. }
  destruct (decode_big_qr_to_text (stream file) (form_passphrase req))
    as [[[text sha_hex] err]|e] eqn:Hdec.
  - left. exists text, sha_hex, err. split; [reflexivity|].
    pose proof (decode_error_shown _ _ _ _ _ Hdec) as Hshown.
    split; [now rewrite Hpage, Hshown|].
    rewrite Hapi. destruct err as [e|]; [|reflexivity].
    destruct (py_truthy (Some e)) eqn:He; [reflexivity | discriminate].
  - right. exists e. split; [reflexivity|]. now split.
Qed.

End Handlers.

Section RoundTrips.
Context `{W : Lawful} {H : Host}.

Lemma encoded_picture (rnd : entropy) (text : string) (chunk_size : Z)
    (passphrase : option string) :
  0 < chunk_size ->
  encodable text = true -> passphrase_encodable passphrase = true ->
  carried_intact (uuid4 rnd) (payload_of rnd text passphrase) chunk_size ->
  exists img,
    encode_text_to_big_qr_file rnd text chunk_size passphrase = Ok (png_save img) /\
    encode_text_to_big_qr rnd text chunk_size passphrase
    = Ok (b64encode (getvalue (png_save img))) /\
    forall passphrase',
      decode_big_qr_to_text (png_save img) passphrase' =
      (do decrypted <- maybe_decrypt (payload_of rnd text passphrase) passphrase';
       let '(wrapped, dec_err) := decrypted in
       if py_truthy dec_err then Ok (None, None, dec_err)
       else
         do verified <- unwrap_and_verify_payload (default "" wrapped);
         let '(text, sha_hex, verify_err) := verified in
         if py_truthy verify_err then Ok (None, sha_hex, verify_err)
         else Ok (text, sha_hex, None)).
Proof.
  intros Hsize Ht Hp Hchan.
  destruct (picture_round_trip _ _ _ Hsize (payload_encodable _ _ _ Ht) Hchan)
    as (img & Hbuild & Hopen & Hscan).
  exists img. split; [|split].
  - rewrite (encode_file_payload _ _ _ _ Ht Hp). now rewrite Hbuild.
  - unfold encode_text_to_big_qr. rewrite (wrap_encodable _ Ht). cbn [bind].
    rewrite (maybe_encrypt_payload _ _ _ Ht Hp). cbn [bind]. now rewrite Hbuild.
  - intros passphrase'. apply (decode_after_scan _ _ _ _ Hopen Hscan).
Qed.

Lemma py_or_strip (p : string) :
  (if py_truthy (py_or (Some p) None) then py_strip <$> py_or (Some p) None
   else py_or (Some p) None)
  = if String.eqb p "" then None else Some (py_strip p).
Proof.
  unfold py_or, py_truthy. destruct (String.eqb p "") eqn:Hp; cbn [negb]; [reflexivity|].
  now rewrite Hp.
Qed.

(** X18.  A picture made by the API encoder from a JSON body with a
    string passphrase [p] and uploaded to the API decoder with that same
    [p] in the form, for a text and a passphrase that UTF-8 encodes.
    The encoder encrypts under [p] as it stands; the decoder strips [p]
    first.  So the text and its SHA-256 come back when stripping leaves
    [p] unchanged; when it does not, the decoder derives another key and
    answers 400 with the decryption error; and when [p] is nothing but
    white space the decoder decrypts nothing and answers 200 with the
    token as the text and no hash.  (Given that the JSON library reads
    back the envelope, that the cipher decrypts under a key what it
    encrypted under it and refuses any other key, that a token is not
    JSON, and that the picture carries the payload intact.) *)
Theorem api_round_trip
    (rnd : entropy) (enc : request) (members : list (string * pyval))
    (text p : string) (chunk_size : Z) :
  get_json enc = PyDict members ->
  od_get "data" members = Some (PyStr text) -> text <> "" ->
  json_chunk_size members = Returns chunk_size -> 0 < chunk_size ->
  od_get "passphrase" members = Some (PyStr p) ->
  encodable text = true -> encodable p = true ->
  json_loads (envelope_text text) = Some (envelope text) ->
  carried_intact (uuid4 rnd) (payload_of rnd text (Some p)) chunk_size ->
  exists buf,
    encode_api rnd enc = Returns (send_file buf "image/png" true "multi_qr.png") /\
    forall (dec : request) (file : upload),
      od_get "file" (files dec) = Some file -> stream file = buf ->
      od_get "passphrase" (form dec) = Some p ->
      od_get "passphrase" (args dec) = None ->
      let token := fernet_encrypt (fernet_key p) (fernet_nonce rnd) (envelope_text text) in
      (py_strip p = p ->
       (p <> "" -> fernet_decrypt (fernet_key p) token = Plain (envelope_text text)) ->
       decode_api dec
       = Returns (jsonify [("data", JString text);
                           ("sha256", JString (sha256_hexdigest text))] 200)) /\
      (py_strip p <> p -> py_strip p <> "" ->
       fernet_decrypt (fernet_key (py_strip p)) token = InvalidToken ->
       decode_api dec
       = Returns (jsonify [("error",
                            JString "Decryption failed. Wrong passphrase or corrupted data.");
                           ("sha256", JNull)] 400)) /\
      (p <> "" -> py_strip p = "" -> json_loads token = None ->
       decode_api dec = Returns (jsonify [("data", JString token); ("sha256", JNull)] 200)).
Proof.
  intros Hjson Hdata Htext Hint Hsize Hpass Ht Hpe Hloads Hchan.
  destruct (encoded_picture _ _ _ (Some p) Hsize Ht Hpe Hchan) as (img & Henc & _ & Hdec).
  exists (png_save img). split.
  { unfold encode_api. rewrite (body_dict _ _ Hjson), Hint. cbn [view_bind].
    rewrite Hdata. cbn [default from_option id val_truthy].
    apply String.eqb_neq in Htext. rewrite Htext. cbn [negb].
    unfold json_passphrase. rewrite Hpass. cbn [default from_option id val_truthy].
    destruct (String.eqb_spec p "") as [->|Hp]; cbn [negb].
    - rewrite (encode_call_str rnd text chunk_size _ None) by now left.
      change (encode_text_to_big_qr_file rnd text chunk_size None)
        with (encode_text_to_big_qr_file rnd text chunk_size (Some "")).
      now rewrite Henc.
    - rewrite (encode_call_str rnd text chunk_size _ (Some p)), Henc; [reflexivity|].
      right. eauto. }
  intros dec file Hfile Hstream Hform Hargs token.
  assert (decode_api dec =
          match decode_big_qr_to_text (png_save img)
                  (if String.eqb p "" then None else Some (py_strip p)) with
          | Ok (text, sha_hex, err) =>
              if py_truthy err then
                Returns (jsonify [("error", json_of err); ("sha256", json_of sha_hex)] 400)
              else
                Returns (jsonify [("data", json_of text); ("sha256", json_of sha_hex)] 200)
          | Raise e => Raises (ServiceError e)
          end) as Happly.
  { unfold decode_api. rewrite Hfile, Hform, Hargs, Hstream. cbv zeta.
    now rewrite py_or_strip. }
  assert (p <> "" -> payload_of rnd text (Some p) = token) as Htoken.
  { intros Hp%String.eqb_neq. unfold payload_of. now rewrite Hp. }
  pose proof (payload_encodable rnd text (Some p) Ht) as Hpay.
  split; [|split].
  - intros Hstrip Hfernet.
    assert (decode_big_qr_to_text (png_save img) (Some p)
            = Ok (Some text, Some (sha256_hexdigest text), None)) as Hsame.
    { rewrite Hdec, decrypt_same; [|exact Ht | exact Hpe |].
      - cbn [bind py_truthy from_option id]. now rewrite (unwrap_envelope _ Ht Hloads).
      - intros p' [= <-] Hp. now apply Hfernet. }
    rewrite Happly, Hstrip.
    destruct (String.eqb_spec p "") as [->|_]; [|now rewrite Hsame].
    change (decode_big_qr_to_text (png_save img) None)
      with (decode_big_qr_to_text (png_save img) (Some "")).
    now rewrite Hsame.
  - intros Hne Hstrip Hreject.
    assert (p <> "") as Hp by (intros ->; now apply Hne).
    rewrite Happly. apply String.eqb_neq in Hp as Hp'. rewrite Hp'.
    rewrite Hdec. rewrite (Htoken Hp) in Hpay |- *.
    now rewrite (maybe_decrypt_invalid _ _ Hstrip (encodable_strip _ Hpe) Hpay Hreject).
  - intros Hp Hstrip Hnot.
    rewrite Happly. apply String.eqb_neq in Hp as Hp'. rewrite Hp', Hstrip.
    rewrite Hdec. rewrite (Htoken Hp). cbn [maybe_decrypt py_truthy String.eqb negb].
    cbn [bind py_truthy from_option id]. unfold unwrap_and_verify_payload. now rewrite Hnot.
Qed.

(** X19.  A picture made by the encode form of the web page and
    uploaded to its decode form comes back as the text that was entered,
    white space around it included, with its SHA-256 and no error,
    whenever the two passphrase fields are equal once stripped: the page
    strips the passphrase on both sides, and a passphrase of white space
    only is no passphrase.  The image on the page is the base64 text of
    the file that decodes.  (For a text and a passphrase that UTF-8
    encodes, as the values of a form are, and given that the JSON
    library reads back the envelope, that the cipher decrypts under a
    key what it encrypted under it, and that the picture carries the
    payload intact.) *)
Theorem web_round_trip
    (rnd rnd' : entropy) (enc : request) (text : string) (chunk_size : Z) :
  method enc = "POST" ->
  od_get "mode" (form enc) = Some "encode" ->
  od_get "data" (form enc) = Some text -> py_strip text <> "" ->
  form_chunk_size enc = Returns chunk_size -> 0 < chunk_size ->
  encodable text = true -> passphrase_encodable (form_passphrase enc) = true ->
  json_loads (envelope_text text) = Some (envelope text) ->
  (forall p, form_passphrase enc = Some p ->
     fernet_decrypt (fernet_key p)
       (fernet_encrypt (fernet_key p) (fernet_nonce rnd) (envelope_text text))
     = Plain (envelope_text text)) ->
  carried_intact (uuid4 rnd) (payload_of rnd text (form_passphrase enc)) chunk_size ->
  exists buf,
    app_view_page rnd enc
    = Returns {| encoded_image := Some (b64encode (getvalue buf)); decoded_text := None;
                 decoded_hash := None; encode_error := None; decode_error := None |} /\
    forall (dec : request) (file : upload),
      method dec = "POST" ->
      od_get "mode" (form dec) = Some "decode" ->
      od_get "file" (files dec) = Some file -> stream file = buf ->
      py_truthy (filename file) = true ->
      py_strip (default "" (od_get "passphrase" (form dec)))
      = py_strip (default "" (od_get "passphrase" (form enc))) ->
      app_view_page rnd' dec
      = Returns {| encoded_image := None; decoded_text := Some text;
                   decoded_hash := Some (sha256_hexdigest text);
                   encode_error := None; decode_error := None |}.
Proof.
  intros Hmethod Hmode Hdata Htext Hint Hsize Ht Hpe Hloads Hfernet Hchan.
  destruct (encoded_picture _ _ _ _ Hsize Ht Hpe Hchan) as (img & _ & Henc & Hdec).
  exists (png_save img). split.
  { unfold app_view_page. rewrite Hmethod, Hmode, Hdata, Hint.
    cbn [String.eqb Ascii.eqb Bool.eqb view_bind default from_option id].
    rewrite bool_decide_eq_true_2 by reflexivity.
    apply String.eqb_neq in Htext. rewrite Htext. now rewrite Henc. }
  intros dec file Hmethod' Hmode' Hfile Hstream Hname Hsame.
  assert (form_passphrase dec = form_passphrase enc) as Hpass.
  { unfold form_passphrase. now rewrite Hsame. }
  unfold app_view_page. rewrite Hmethod', Hmode', Hfile, Hname, Hstream, Hpass.
  cbn [String.eqb Ascii.eqb Bool.eqb].
  rewrite bool_decide_eq_false_2 by discriminate.
  rewrite bool_decide_eq_true_2 by reflexivity.
  rewrite Hdec, decrypt_same; [|exact Ht | exact Hpe | intros p Hp _; now apply Hfernet].
  cbn [bind py_truthy from_option id]. now rewrite (unwrap_envelope _ Ht Hloads).
Qed.

(** X20.  The encode form of the web page.  An absent or empty
    [chunk_size] field counts as 500.  The field is converted first: when
    [int] refuses it the exception leaves the handler, whatever the
    text.  Otherwise the page shows an image or an encode error, never
    both and never neither, and nothing of a decoding: a text that is
    empty once stripped is refused with its own message and is not
    encoded; an exception of the encoder is shown after
    [Failed to encode: ], so a chunk size of zero or less never shows an
    image, and shows [Failed to encode: chunk_size must be positive] for
    a text and a passphrase that UTF-8 encodes, as the values of a form
    are.  (A text that held a surrogate would show the message of its
    [UnicodeEncodeError], whatever the chunk size.) *)
Theorem app_view_encode_form (rnd : entropy) (req : request) :
  method req = "POST" ->
  od_get "mode" (form req) = Some "encode" ->
  let text := default "" (od_get "data" (form req)) in
  (od_get "chunk_size" (form req) = None \/ od_get "chunk_size" (form req) = Some "" ->
   form_chunk_size req = Returns 500) /\
  (forall e, form_chunk_size req = Raises e -> app_view rnd req = Raises e) /\
  (forall chunk_size,
     form_chunk_size req = Returns chunk_size ->
     exists p,
       app_view_page rnd req = Returns p /\
       app_view rnd req = Returns (render_page p) /\
       (decoded_text p = None /\ decoded_hash p = None /\ decode_error p = None) /\
       (encoded_image p = None <-> encode_error p <> None) /\
       (py_strip text = "" ->
        encoded_image p = None /\
        encode_error p = Some "Please provide some text to encode.") /\
       (py_strip text <> "" -> chunk_size <= 0 ->
        encoded_image p = None /\
        (encodable text = true -> passphrase_encodable (form_passphrase req) = true ->
         encode_error p = Some "Failed to encode: chunk_size must be positive")) /\
       (py_strip text <> "" -> encodable text = false ->
        encode_error p = Some ("Failed to encode: " +:+ encode_error_message text))).
Proof.
  intros Hmethod Hmode text.
  split.
  { unfold form_chunk_size. intros [-> | ->]; reflexivity. }
  unfold app_view, app_view_page. rewrite Hmethod, Hmode.
  cbn [String.eqb Ascii.eqb Bool.eqb]. rewrite bool_decide_eq_true_2 by reflexivity.
  split; [now intros e ->|].
  intros chunk_size ->. cbn [view_bind]. fold text.
  destruct (String.eqb_spec (py_strip text) "") as [Hblank|Hsome].
  - eexists. split; [reflexivity|]. split; [reflexivity|]. cbn.
    split; [auto|]. split; [split; [discriminate | reflexivity]|].
    split; [auto|]. split; contradiction.
  - destruct (encode_text_to_big_qr_is_base64 rnd text chunk_size (form_passphrase req))
      as (Hraise & Hok).
    destruct (encode_text_to_big_qr rnd text chunk_size (form_passphrase req)) as [b64|e] eqn:Henc.
    + destruct (Hok b64 eq_refl) as (buf & Hfile & _).
      eexists. split; [reflexivity|]. split; [reflexivity|]. cbn.
      split; [auto|]. split; [split; [discriminate | congruence]|].
      split; [contradiction|]. split.
      * intros _ Hsize. exfalso. now apply encode_file_nonpositive in Hfile.
      * intros _ Hsur. rewrite encode_file_raises_text in Hfile by exact Hsur. discriminate.
    + pose proof (Hraise e eq_refl) as Hfile.
      eexists. split; [reflexivity|]. split; [reflexivity|].
      cbn [decoded_text decoded_hash decode_error encoded_image encode_error str_of_error].
      split; [auto|]. split; [split; [discriminate | reflexivity]|].
      split; [contradiction|]. split.
      * intros _ Hsize. split; [reflexivity|]. intros Ht Hpe.
        rewrite (encode_file_payload _ _ _ _ Ht Hpe) in Hfile.
        unfold _build_big_qr_image in Hfile.
        rewrite chunk_text_nonpositive in Hfile by exact Hsize. now injection Hfile as <-.
      * intros _ Hsur. rewrite encode_file_raises_text in Hfile by exact Hsur.
        now injection Hfile as <-.
Qed.

End RoundTrips.


(* ================================================================== *)
(** * The further properties on concrete inputs *)
(* ================================================================== *)

(** The picture of ["hello world"] in chunks of four characters: three
    tiles, and the frames read off it give the payload back. *)
Lemma build_draws_frames_witness :
  exists img,
    @_build_big_qr_image _ Ref.libs "hello world" 4 true (uuid4 Ref.sample_entropy) = Ok img /\
    length (pastes img) = 3%nat /\
    Ref.symbols_in img !! 1%nat = Some "a8e2f417|1|3|o wo" /\
    reassemble (map Some (Ref.symbols_in img)) = (Some "hello world", None).
Proof.
  destruct (@_build_big_qr_image _ Ref.libs "hello world" 4 true (uuid4 Ref.sample_entropy))
    as [img|e] eqn:Hb; [|vm_compute in Hb; discriminate Hb].
  exists img. split; [reflexivity|].
  destruct (@build_draws_frames _ Ref.libs ref_lawful "hello world" 4 true
              (uuid4 Ref.sample_entropy) img Hb)
    as (_ & _ & (Hpastes & Hcount) & Hframes & Hback).
  split; [|split; [|exact Hback]].
  - rewrite Hpastes. apply Nat2Z.inj. rewrite Hcount. reflexivity.
  - destruct (Ref.symbols_in img !! 1%nat) as [data|] eqn:Hk.
    + destruct (Hframes 1%nat data Hk) as (-> & _). reflexivity.
    + exfalso. apply lookup_ge_None in Hk. apply Nat2Z.inj_le in Hk. rewrite Hcount in Hk.
      vm_compute in Hk. now apply Hk.
Defined.

(** A frame with a negative index and a chunk that holds separators. *)
Lemma frame_string_parses_back_witness :
  parse_frame (Some (frame_string "a8e2f417" (-1) 2 "a|b||c"))
  = Some {| frame_id := "a8e2f417"; frame_index := -1; frame_total := 2;
            frame_text := "a|b||c" |}.
Proof.
  apply (proj2 (frame_string_parses_back "a8e2f417" (-1) 2 "a|b||c"
                  ltac:(split; vm_compute; reflexivity)
                  ltac:(split; vm_compute; reflexivity))).
  reflexivity.
Defined.

(** ["hello world"] in chunks of 40 under ["pw"] is encoded; the two
    thousand characters of [long_text] in one chunk are not. *)
Lemma encode_succeeds_iff_witness :
  (exists file_stream,
     @encode_text_to_big_qr_file _ Ref.libs Ref.sample_entropy "hello world" 40 (Some "pw")
     = Ok file_stream) /\
  ~ (exists file_stream,
       @encode_text_to_big_qr_file _ Ref.libs Ref.sample_entropy Ref.long_text 5000 None
       = Ok file_stream).
Proof.
  split.
  - apply (proj2 (proj1 (@encode_succeeds_iff _ _ ref_lawful Ref.sample_entropy
                           "hello world" 40 (Some "pw")))).
    split; [reflexivity|]. split; [reflexivity|]. split; [lia|].
    split; [vm_compute; discriminate|].
    apply ref_frames_fit. vm_compute. reflexivity.
  - intros Hex.
    apply (proj1 (proj1 (@encode_succeeds_iff _ _ ref_lawful Ref.sample_entropy
                           Ref.long_text 5000 None))) in Hex
      as (_ & _ & _ & _ & Hfit).
    assert (frames_drawn (uuid4 Ref.sample_entropy)
              (@payload_of _ Ref.libs Ref.sample_entropy Ref.long_text None) 5000
            = [frame_string "a8e2f417" 0 1
                 (@payload_of _ Ref.libs Ref.sample_entropy Ref.long_text None)]) as Hframes
      by (vm_compute; reflexivity).
    apply (Hfit (frame_string "a8e2f417" 0 1
                   (@payload_of _ Ref.libs Ref.sample_entropy Ref.long_text None))).
    + rewrite Hframes. now left.
    + vm_compute. reflexivity.
Defined.

(** The passphrase ["pw"] on the reference cipher. *)
Lemma maybe_decrypt_inverts_maybe_encrypt_witness :
  exists token,
    @maybe_encrypt _ Ref.libs Ref.sample_entropy "hello world" (Some "pw") = Ok token /\
    @maybe_decrypt _ Ref.libs token (Some "pw") = Ok (Some "hello world", None).
Proof.
  apply (proj1 (@maybe_decrypt_inverts_maybe_encrypt _ _ ref_lawful Ref.sample_entropy
                  "hello world" (Some "pw"))).
  - reflexivity.
  - reflexivity.
  - intros p [= <-] _. vm_compute. reflexivity.
Defined.

(** A picture that carries a token of bytes that are not UTF-8, decoded
    with the passphrase of the token: the decoder raises. *)
Lemma decode_outcomes_witness :
  exists plain_bytes,
    @decode_big_qr_to_text _ Ref.libs RefHost.foreign_file (Some "pw")
    = Raise (UnicodeDecodeError plain_bytes).
Proof.
  pose proof (@decode_outcomes _ _ ref_lawful RefHost.foreign_file (Some "pw")) as H.
  cbv zeta in H.
  assert (@decode_big_qr_to_text _ Ref.libs RefHost.foreign_file (Some "pw")
          = Raise (UnicodeDecodeError (String (ascii_of_N 255) (String (ascii_of_N 254) ""))))
    as E by (vm_compute; reflexivity).
  rewrite E in H.
  destruct H as [(t & Hr) | [(t & Hr) | [(s & Hr) | [(err & Hr & _) |
    (img & payload & _ & _ & [(p & _ & _ & _ & Hr) | [(b & _ & Hr) | (t & _ & Hr)]])]]]];
    try discriminate Hr.
  exists b. now rewrite E, Hr.
Defined.

(** Two frames and a stray string, scanned in two orders, one of them
    with a frame scanned twice. *)
Lemma reassemble_order_independent_witness :
  reassemble [Some "aaaa0001|1|2|wor|ld"; Some "stray"; Some "aaaa0001|0|2|hello "]
  = reassemble [Some "aaaa0001|0|2|hello "; Some "aaaa0001|1|2|wor|ld"; Some "stray";
                Some "aaaa0001|0|2|hello "].
Proof.
  apply (reassemble_order_independent _ _ "aaaa0001" 2).
  - intros symbol. rewrite !elem_of_cons, !elem_of_nil. tauto.
  - intros symbol f Hin Hparse.
    rewrite !elem_of_cons, elem_of_nil in Hin.
    destruct Hin as [-> | [-> | [-> | []]]]; vm_compute in Hparse;
      try discriminate Hparse; injection Hparse as <-; split; reflexivity.
  - intros s1 s2 f1 f2 H1 H2 Hp1 Hp2.
    rewrite !elem_of_cons, elem_of_nil in H1. rewrite !elem_of_cons, elem_of_nil in H2.
    destruct H1 as [-> | [-> | [-> | []]]]; vm_compute in Hp1; try discriminate Hp1;
      injection Hp1 as <-;
      destruct H2 as [-> | [-> | [-> | []]]]; vm_compute in Hp2; try discriminate Hp2;
      injection Hp2 as <-; cbn [frame_index frame_text]; intros Hidx;
      first [reflexivity | discriminate Hidx].
Defined.

(** A frame of index 7 after the two frames of a message of two. *)
Lemma reassemble_ignores_stray_frames_witness :
  reassemble [Some "aaaa0001|0|2|hello "; Some "aaaa0001|1|2|world"; Some "aaaa0001|7|9|junk"]
  = reassemble [Some "aaaa0001|0|2|hello "; Some "aaaa0001|1|2|world"].
Proof.
  apply (reassemble_ignores_stray_frames
           [Some "aaaa0001|0|2|hello "; Some "aaaa0001|1|2|world"] []
           (Some "aaaa0001|7|9|junk")
           {| frame_id := "aaaa0001"; frame_index := 0; frame_total := 2;
              frame_text := "hello " |}
           [{| frame_id := "aaaa0001"; frame_index := 1; frame_total := 2;
               frame_text := "world" |}]
           {| frame_id := "aaaa0001"; frame_index := 7; frame_total := 9;
              frame_text := "junk" |}).
  - vm_compute. reflexivity.
  - vm_compute. reflexivity.
  - right. right. cbn [frame_total frame_index]. lia.
Defined.

(** A picture whose only frame announces a total of zero. *)
Lemma nonpositive_total_is_empty_payload_witness :
  reassemble [Some "ab12cd34|0|0|x"] = (Some "", None) /\
  @decode_big_qr_to_text _ Ref.libs RefHost.hollow_file None = Ok (Some "", None, None).
Proof.
  destruct (@nonpositive_total_is_empty_payload _ Ref.libs [Some "ab12cd34|0|0|x"]
              {| frame_id := "ab12cd34"; frame_index := 0; frame_total := 0;
                 frame_text := "x" |} []
              ltac:(vm_compute; reflexivity) ltac:(cbn [frame_total]; lia))
    as (Hre & Hdec).
  split; [exact Hre|].
  apply (Hdec ltac:(vm_compute; reflexivity) RefHost.hollow_file
           (QRCode "ab12cd34|0|0|x" 290) None); reflexivity.
Defined.

(** ["hello world"] encoded under ["pw"] and decoded with no passphrase,
    and encoded with no passphrase and decoded with ["pw"]. *)
Lemma passphrase_on_one_side_only_witness :
  (exists file_stream token,
     @encode_text_to_big_qr_file _ Ref.libs Ref.sample_entropy "hello world" 40 (Some "pw")
     = Ok file_stream /\
     @decode_big_qr_to_text _ Ref.libs file_stream None = Ok (Some token, None, None)) /\
  (exists file_stream,
     @encode_text_to_big_qr_file _ Ref.libs Ref.sample_entropy "hello world" 40 None
     = Ok file_stream /\
     @decode_big_qr_to_text _ Ref.libs file_stream (Some "pw")
     = Ok (None, None, Some "Decryption failed. Wrong passphrase or corrupted data.")).
Proof.
  destruct (@passphrase_on_one_side_only _ _ ref_lawful Ref.sample_entropy "hello world" 40 "pw"
              ltac:(discriminate) ltac:(reflexivity) ltac:(reflexivity) ltac:(lia))
    as (Hplain & Hcipher).
  split.
  - destruct Hplain as (file_stream & Henc & Hdec & _).
    + apply ref_carried_intact; vm_compute; reflexivity.
    + vm_compute. reflexivity.
    + eauto.
  - apply Hcipher.
    + apply ref_carried_intact; vm_compute; reflexivity.
    + vm_compute. reflexivity.
Defined.

(** The second tile of the picture of ["hello world"] in chunks of four
    characters: a version-2 symbol of 330 pixels with the label [2/3] in a
    band of 55 pixels. *)
Lemma build_tiles_witness :
  exists img,
    @_build_big_qr_image _ Ref.libs "hello world" 4 true (uuid4 Ref.sample_entropy) = Ok img /\
    exists x y,
      pastes img !! 1%nat
      = Some (x, y,
              DrawText (Paste (Blank 330 385) 0 0 (QRCode "a8e2f417|1|3|o wo" 330)) "2/3").
Proof.
  destruct (@_build_big_qr_image _ Ref.libs "hello world" 4 true (uuid4 Ref.sample_entropy))
    as [img|e] eqn:Hb; [|vm_compute in Hb; discriminate Hb].
  exists img. split; [reflexivity|].
  destruct (pastes img !! 1%nat) as [[[x y] tile]|] eqn:Hk.
  - exists x, y. f_equal. f_equal.
    destruct (@build_tiles _ Ref.libs "hello world" 4 true (uuid4 Ref.sample_entropy) img Hb
                1%nat x y tile Hk) as (data & version & Hdata & Hversion & ->).
    vm_compute in Hb. injection Hb as <-.
    vm_compute in Hdata. injection Hdata as <-.
    vm_compute in Hversion. injection Hversion as <-. reflexivity.
  - exfalso. vm_compute in Hb. injection Hb as <-. vm_compute in Hk. discriminate Hk.
Defined.

(** The frames of a payload of eleven characters in chunks of four. *)
Lemma frame_length_bound_witness :
  frames_drawn (uuid4 Ref.sample_entropy) "hello world" 4 !! 2%nat = Some "a8e2f417|2|3|rld" /\
  py_len "a8e2f417|2|3|rld" = 11 + 1 + 1 + 3 /\
  py_len "a8e2f417|2|3|rld" <= 4 + 11 + 2 * 1.
Proof.
  assert (frames_drawn (uuid4 Ref.sample_entropy) "hello world" 4 !! 2%nat
          = Some "a8e2f417|2|3|rld") as Hk by (vm_compute; reflexivity).
  destruct (frame_length_bound (uuid4 Ref.sample_entropy) "hello world" 4 2 _ Hk)
    as (Hlen & _ & _ & Hbound).
  split; [exact Hk|]. split; [exact Hlen | exact Hbound].
Defined.

(** A body whose [data] is a lone surrogate, with the chunk size 0, and
    ["hello world"] with the chunk size 0. *)
Lemma encode_api_rejections_witness :
  @encode_api _ _ RefHost.host Ref.sample_entropy
    (@Build_request _ Ref.libs "POST" (PyDict (RefHost.surrogate_body 0)) [] [] [])
  = Returns (jsonify [("error", JString (RefHost.encode_error_message Ref.surrogate_text))]
                     400) /\
  @encode_api _ _ RefHost.host Ref.sample_entropy
    (@Build_request _ Ref.libs "POST"
       (PyDict [("data", PyStr "hello world"); ("chunk_size", PyInt 0)]) [] [] [])
  = Returns (jsonify [("error", JString "chunk_size must be positive")] 400).
Proof.
  split.
  - destruct (@encode_api_rejections _ _ ref_lawful RefHost.host Ref.sample_entropy
                (@Build_request _ Ref.libs "POST" (PyDict (RefHost.surrogate_body 0)) [] [] []))
      as (_ & Hbody).
    destruct (Hbody (RefHost.surrogate_body 0) (or_introl eq_refl)) as (_ & Hsize).
    destruct (Hsize 0 eq_refl) as (_ & _ & Hsur & _).
    exact (Hsur Ref.surrogate_text eq_refl eq_refl).
  - destruct (@encode_api_rejections _ _ ref_lawful RefHost.host Ref.sample_entropy
                (@Build_request _ Ref.libs "POST"
                   (PyDict [("data", PyStr "hello world"); ("chunk_size", PyInt 0)]) [] [] []))
      as (_ & Hbody).
    destruct (Hbody [("data", PyStr "hello world"); ("chunk_size", PyInt 0)]
                (or_introl eq_refl)) as (_ & Hsize).
    destruct (Hsize 0 eq_refl) as (_ & _ & _ & Hsmall).
    destruct (Hsmall ltac:(lia)) as (_ & Htext).
    destruct (Htext "hello world" eq_refl ltac:(discriminate) eq_refl) as (Hnone & _).
    exact (Hnone eq_refl).
Defined.

(** A tampered picture sent to both decoders: each reports the
    integrity error together with the stored hash.  A picture whose
    token decrypts to bytes that are not UTF-8: the page shows the
    message of the exception, and out of the API handler it goes on. *)
Lemma decode_endpoints_agree_witness :
  (@app_view_page _ Ref.libs RefHost.host Ref.sample_entropy
     (RefHost.decode_upload "" RefHost.tampered_file)
   = Returns {| encoded_image := None; decoded_text := None; decoded_hash := Some "00";
                encode_error := None;
                decode_error := Some "Integrity check failed (SHA-256 mismatch)" |} /\
   @decode_api _ Ref.libs (RefHost.decode_upload "" RefHost.tampered_file)
   = Returns (jsonify [("error", JString "Integrity check failed (SHA-256 mismatch)");
                       ("sha256", JString "00")] 400)) /\
  (exists e,
     @app_view_page _ Ref.libs RefHost.host Ref.sample_entropy
       (RefHost.decode_upload "pw" RefHost.foreign_file)
     = Returns {| encoded_image := None; decoded_text := None; decoded_hash := None;
                  encode_error := None;
                  decode_error := Some ("Failed to decode: " +:+ @str_of_exn _ _ RefHost.host e) |}
     /\
     @decode_api _ Ref.libs (RefHost.decode_upload "pw" RefHost.foreign_file)
     = Raises (ServiceError e)).
Proof.
  split.
  - destruct (@decode_endpoints_agree _ Ref.libs RefHost.host Ref.sample_entropy
                (RefHost.decode_upload "" RefHost.tampered_file)
                (@Build_upload _ Ref.libs (Some "qr.png") RefHost.tampered_file)
                ltac:(reflexivity) ltac:(reflexivity) ltac:(reflexivity) ltac:(reflexivity)
                ltac:(reflexivity))
      as [(text & sha_hex & err & Hdec & Hweb & Hapi) | (e & Hdec & _)];
      vm_compute in Hdec; [|discriminate Hdec].
    injection Hdec as <- <- <-. split; [exact Hweb | exact Hapi].
  - destruct (@decode_endpoints_agree _ Ref.libs RefHost.host Ref.sample_entropy
                (RefHost.decode_upload "pw" RefHost.foreign_file)
                (@Build_upload _ Ref.libs (Some "qr.png") RefHost.foreign_file)
                ltac:(reflexivity) ltac:(reflexivity) ltac:(reflexivity) ltac:(reflexivity)
                ltac:(reflexivity))
      as [(text & sha_hex & err & Hdec & _) | (e & _ & Hweb & Hapi)].
    + vm_compute in Hdec. discriminate Hdec.
    + exists e. split; [exact Hweb | exact Hapi].
Defined.

(** ["hello world"] through the API with the passphrases ["pw"],
    [" pw"] and ["  "]. *)
Lemma api_round_trip_witness :
  (exists buf,
     @encode_api _ Ref.libs RefHost.host Ref.sample_entropy (RefHost.api_encode "pw")
     = Returns (send_file buf "image/png" true "multi_qr.png") /\
     @decode_api _ Ref.libs (RefHost.decode_upload "pw" buf)
     = Returns (jsonify [("data", JString "hello world");
                         ("sha256",
                          JString "b94d27b9934d3e08a52e52d7da7dabfac484efe37a5380ee9088f7ace2efcde9")]
                  200)) /\
  (exists buf,
     @encode_api _ Ref.libs RefHost.host Ref.sample_entropy (RefHost.api_encode " pw")
     = Returns (send_file buf "image/png" true "multi_qr.png") /\
     @decode_api _ Ref.libs (RefHost.decode_upload " pw" buf)
     = Returns (jsonify [("error",
                          JString "Decryption failed. Wrong passphrase or corrupted data.");
                         ("sha256", JNull)] 400)) /\
  (exists buf token,
     @encode_api _ Ref.libs RefHost.host Ref.sample_entropy (RefHost.api_encode "  ")
     = Returns (send_file buf "image/png" true "multi_qr.png") /\
     @decode_api _ Ref.libs (RefHost.decode_upload "  " buf)
     = Returns (jsonify [("data", JString token); ("sha256", JNull)] 200)).
Proof.
  split; [|split].
  - destruct (@api_round_trip _ _ ref_lawful RefHost.host Ref.sample_entropy
                (RefHost.api_encode "pw") (RefHost.encode_body "pw") "hello world" "pw" 40
                ltac:(reflexivity) ltac:(reflexivity) ltac:(discriminate) ltac:(reflexivity)
                ltac:(lia) ltac:(reflexivity) ltac:(reflexivity) ltac:(reflexivity)
                ltac:(vm_compute; reflexivity)
                ltac:(apply ref_carried_intact; vm_compute; reflexivity))
      as (buf & Henc & Hdec).
    exists buf. split; [exact Henc|].
    destruct (Hdec (RefHost.decode_upload "pw" buf) (@Build_upload _ Ref.libs (Some "qr.png") buf)
                ltac:(reflexivity) ltac:(reflexivity) ltac:(reflexivity) ltac:(reflexivity))
      as (Hsame & _).
    change (JString "b94d27b9934d3e08a52e52d7da7dabfac484efe37a5380ee9088f7ace2efcde9")
      with (JString (@sha256_hexdigest _ Ref.libs "hello world")).
    apply Hsame; [reflexivity|]. intros _. vm_compute. reflexivity.
  - destruct (@api_round_trip _ _ ref_lawful RefHost.host Ref.sample_entropy
                (RefHost.api_encode " pw") (RefHost.encode_body " pw") "hello world" " pw" 40
                ltac:(reflexivity) ltac:(reflexivity) ltac:(discriminate) ltac:(reflexivity)
                ltac:(lia) ltac:(reflexivity) ltac:(reflexivity) ltac:(reflexivity)
                ltac:(vm_compute; reflexivity)
                ltac:(apply ref_carried_intact; vm_compute; reflexivity))
      as (buf & Henc & Hdec).
    exists buf. split; [exact Henc|].
    destruct (Hdec (RefHost.decode_upload " pw" buf) (@Build_upload _ Ref.libs (Some "qr.png") buf)
                ltac:(reflexivity) ltac:(reflexivity) ltac:(reflexivity) ltac:(reflexivity))
      as (_ & Hother & _).
    apply Hother; [discriminate | discriminate | vm_compute; reflexivity].
  - destruct (@api_round_trip _ _ ref_lawful RefHost.host Ref.sample_entropy
                (RefHost.api_encode "  ") (RefHost.encode_body "  ") "hello world" "  " 40
                ltac:(reflexivity) ltac:(reflexivity) ltac:(discriminate) ltac:(reflexivity)
                ltac:(lia) ltac:(reflexivity) ltac:(reflexivity) ltac:(reflexivity)
                ltac:(vm_compute; reflexivity)
                ltac:(apply ref_carried_intact; vm_compute; reflexivity))
      as (buf & Henc & Hdec).
    exists buf. eexists. split; [exact Henc|].
    destruct (Hdec (RefHost.decode_upload "  " buf) (@Build_upload _ Ref.libs (Some "qr.png") buf)
                ltac:(reflexivity) ltac:(reflexivity) ltac:(reflexivity) ltac:(reflexivity))
      as (_ & _ & Hblank).
    apply Hblank; [discriminate | reflexivity | vm_compute; reflexivity].
Defined.

(** [" hello world "] through the web page, encrypted under [" pw "]
    and decoded with ["pw"]. *)
Lemma web_round_trip_witness :
  exists buf,
    @app_view_page _ Ref.libs RefHost.host Ref.sample_entropy
      (RefHost.web_encode " hello world " "" " pw ")
    = Returns {| encoded_image := Some (b64encode (RefHost.getvalue buf)); decoded_text := None;
                 decoded_hash := None; encode_error := None; decode_error := None |} /\
    @app_view_page _ Ref.libs RefHost.host Ref.sample_entropy (RefHost.decode_upload "pw" buf)
    = Returns {| encoded_image := None; decoded_text := Some " hello world ";
                 decoded_hash := Some (@sha256_hexdigest _ Ref.libs " hello world ");
                 encode_error := None; decode_error := None |}.
Proof.
  destruct (@web_round_trip _ _ ref_lawful RefHost.host Ref.sample_entropy Ref.sample_entropy
              (RefHost.web_encode " hello world " "" " pw ") " hello world " 500
              ltac:(reflexivity) ltac:(reflexivity) ltac:(reflexivity) ltac:(discriminate)
              ltac:(reflexivity) ltac:(lia) ltac:(reflexivity) ltac:(reflexivity)
              ltac:(vm_compute; reflexivity))
    as (buf & Henc & Hdec).
  - intros p Hp. vm_compute in Hp. injection Hp as <-. vm_compute. reflexivity.
  - apply ref_carried_intact; vm_compute; reflexivity.
  - exists buf. split; [exact Henc|].
    apply (Hdec (RefHost.decode_upload "pw" buf) (@Build_upload _ Ref.libs (Some "qr.png") buf));
      reflexivity.
Defined.

(** The encode form with a blank text and an empty chunk size, and with
    a chunk size of zero. *)
Lemma app_view_encode_form_witness :
  @form_chunk_size _ Ref.libs (RefHost.web_encode "   " "" "") = Returns 500 /\
  (exists p,
     @app_view_page _ Ref.libs RefHost.host Ref.sample_entropy (RefHost.web_encode "   " "" "")
     = Returns p /\
     encoded_image p = None /\
     encode_error p = Some "Please provide some text to encode.") /\
  (exists p,
     @app_view_page _ Ref.libs RefHost.host Ref.sample_entropy (RefHost.web_encode "hi" "0" "")
     = Returns p /\
     encode_error p = Some "Failed to encode: chunk_size must be positive").
Proof.
  destruct (@app_view_encode_form _ _ ref_lawful RefHost.host Ref.sample_entropy
              (RefHost.web_encode "   " "" "") ltac:(reflexivity) ltac:(reflexivity))
    as (Hdefault & _ & Hpage).
  destruct (@app_view_encode_form _ _ ref_lawful RefHost.host Ref.sample_entropy
              (RefHost.web_encode "hi" "0" "") ltac:(reflexivity) ltac:(reflexivity))
    as (_ & _ & Hzero).
  split; [apply Hdefault; now right|]. split.
  - destruct (Hpage 500 (Hdefault ltac:(now right))) as (p & Hp & _ & _ & _ & Hblank & _).
    exists p. split; [exact Hp|]. apply Hblank. reflexivity.
  - destruct (Hzero 0 ltac:(reflexivity)) as (p & Hp & _ & _ & _ & _ & Hbad & _).
    exists p. split; [exact Hp|].
    apply (proj2 (Hbad ltac:(discriminate) ltac:(lia))); reflexivity.
Defined.

(** ** The model on a few inputs *)

(** Five images of 290 by 348 pixels are tiled in three columns and two
    rows; the fifth goes to the second cell of the second row. *)
Example tile_five_images :
  exists canvas,
    tile_images (repeat (Blank 290 348) 5) = Ok canvas /\
    img_size canvas = (870, 696) /\
    pastes canvas !! 4%nat = Some (290, 348, Blank 290 348).
Proof. eexists. split; [reflexivity|]. split; reflexivity. Qed.

(** A chunk that holds separators. *)
Example frame_with_separators :
  parse_frame (Some (frame_string "a8e2f417" 1 2 "a|b||c"))
  = Some {| frame_id := "a8e2f417"; frame_index := 1; frame_total := 2;
            frame_text := "a|b||c" |}.
Proof. reflexivity. Qed.

Example msg_id_of_sample : str_take 8 (uuid_hex (uuid4 Ref.sample_entropy)) = "a8e2f417".
Proof. reflexivity. Qed.

Example b64encode_samples :
  b64encode "" = "" /\ b64encode "M" = "TQ==" /\ b64encode "Ma" = "TWE=" /\
  b64encode "Man" = "TWFu".
Proof. repeat split. Qed.

Example strip_samples :
  py_strip "  pw " = "pw" /\ py_strip "   " = "" /\ py_strip "a b" = "a b".
Proof. repeat split. Qed.

(** [int] of the values a JSON body can give for [chunk_size]. *)
Example chunk_size_conversions :
  json_chunk_size [] = Returns 500 /\
  json_chunk_size [("chunk_size", PyStr " 40 ")] = Returns 40 /\
  json_chunk_size [("chunk_size", PyBool true)] = Returns 1 /\
  json_chunk_size [("chunk_size", PyFloat (S754_finite false 5 (-1)))] = Returns 2 /\
  json_chunk_size [("chunk_size", PyFloat (S754_finite true 5 (-1)))] = Returns (-2) /\
  json_chunk_size [("chunk_size", PyStr "4.5")] = Raises IntValueError /\
  json_chunk_size [("chunk_size", PyNone)] = Raises TypeError.
Proof. repeat split. Qed.

(** A number for [data]; a chunk size that does not convert, with no
    [data] at all; a body that is a list. *)
Example encode_api_bad_bodies :
  @encode_api _ Ref.libs RefHost.host Ref.sample_entropy
    (@Build_request _ Ref.libs "POST" (PyDict [("data", PyInt 5)]) [] [] [])
  = Returns (jsonify [("error", JString "'int' object has no attribute 'encode'")] 400) /\
  @encode_api _ Ref.libs RefHost.host Ref.sample_entropy
    (@Build_request _ Ref.libs "POST" (PyDict [("chunk_size", PyStr "abc")]) [] [] [])
  = Raises IntValueError /\
  @encode_api _ Ref.libs RefHost.host Ref.sample_entropy
    (@Build_request _ Ref.libs "POST" (PyList [PyInt 1]) [] [] [])
  = Raises (AttributeError "list" "get") /\
  @encode_api _ Ref.libs RefHost.host Ref.sample_entropy
    (@Build_request _ Ref.libs "POST" PyNone [] [] [])
  = Returns (jsonify [("error", JString "Provide 'data' in JSON body.")] 400).
Proof. repeat split. Qed.

(** An upload with no file name: the page asks for a file, the API
    decodes it. *)
Example unnamed_upload :
  let req :=
    @Build_request _ Ref.libs "POST" PyNone [("mode", "decode")] []
      [("file", @Build_upload _ Ref.libs (Some "") (Ref.Garbage "cannot identify image file"))] in
  @app_view_page _ Ref.libs RefHost.host Ref.sample_entropy req
  = Returns {| encoded_image := None; decoded_text := None; decoded_hash := None;
               encode_error := None; decode_error := Some "Please upload a QR image." |} /\
  @decode_api _ Ref.libs req
  = Returns (jsonify [("error", JString "Invalid image: cannot identify image file");
                      ("sha256", JNull)] 400).
Proof. split; reflexivity. Qed.

(** [int] reads 4300 digits and refuses 4301, leading zeros counted. *)
Example int_digit_limit :
  py_int (string_of_list_ascii (repeat "0"%char 4299) +:+ "7") = Some 7 /\
  py_int (string_of_list_ascii (repeat "0"%char 4300) +:+ "7") = None.
Proof. split; vm_compute; reflexivity. Qed.

(** The messages the reference host gives the two Unicode errors. *)
Example unicode_error_messages :
  RefHost.encode_error_message Ref.surrogate_text
  = "'utf-8' codec can't encode character '\ud800' in position 0: surrogates not allowed" /\
  RefHost.decode_error_message (String (ascii_of_N 255) (String (ascii_of_N 254) ""))
  = "'utf-8' codec can't decode byte 0xff in position 0: invalid start byte".
Proof. split; reflexivity. Qed.

(** A picture whose envelope holds a lone surrogate, on the page. *)
Example surrogate_upload :
  @app_view_page _ Ref.libs RefHost.host Ref.sample_entropy
    (RefHost.decode_upload "" RefHost.surrogate_file)
  = Returns {| encoded_image := None; decoded_text := None; decoded_hash := None;
               encode_error := None;
               decode_error :=
                 Some ("Failed to decode: "
                       +:+ RefHost.encode_error_message Ref.surrogate_text) |}.
Proof. vm_compute. reflexivity. Qed.

